(** * Tetris: board, piece controller, sequencer, score tracker and engine

    A shallow embedding of the JavaScript sources (boardManager.js,
    tetrominoes.js, tetrominoUtils.js, tetrominoManager.js, scoreManager.js,
    gameEngine.js and inputHandler.js) together with the properties stated
    about them.

    Conventions of the embedding.
    - JavaScript numbers are doubles (IEEE 754 binary64).  Integer
      quantities (coordinates, counts, scores) are [Z], or [nat] for array
      sizes and indices; on them the arithmetic of the code is exact as long
      as they stay below 2^53.  Fractional quantities (times in
      milliseconds, the 0.8 speed factor) are rationals [Q]: a finite double
      is a rational, and [Js.fl] rounds a rational to the nearest double.
      [GameEngine.resume], [GameEngine.gameLoop], [InputHandler.update],
      [ScoreManager.calculateFallSpeedIn] and the statistics of
      [ScoreManager.getStats] round each operation as the code does
      ([Js.plus], [Js.minus], [Js.times], [Js.divide]).  The gravity test of
      [GameEngine.updateFalling], the timer of
      [GameEngine.updateLockDelay], [ScoreManager.calculateFallSpeed] and
      the index drawn by [TetrominoUtils.generatePieceBag] use the exact
      operations of [Q]:
      they agree with the code where the exact result is itself a double
      (for instance on integer milliseconds).  NaN and the infinities only
      appear in the dynamically typed values of [Js.value].
    - Objects are records; [null] is [None].  A configuration object passed
      to a constructor is a finite map from property names to values.
    - [Math.random] and [performance.now] are oracles: the k-th call returns
      the k-th element of a stream, and the state counts the calls.
    - A thrown exception is [None] in a result of type [option]; the
      constructor of the engine has a result type of its own
      ([GameEngine.Construction]).
    - Event callbacks ([onGameStateChange] and the like) are [null] after
      construction and only observe snapshots; they are not part of the
      state. *)

From Stdlib Require Import ZArith QArith Qabs Qround Qpower Qminmax Lia Lqa
  Permutation.
From stdpp Require Import gmap strings list sorting.

Open Scope Z_scope.

(** ** Dynamically typed values *)

Module Js.

Inductive value :=
| VUndefined
| VNull
| VBool (b : bool)
| VNum (q : Q)
| VNaN
| VInfinity (negative : bool)
| VStr (s : string).

(** [typeof v === 'number'] *)
Definition isNumberType (v : value) : bool :=
  match v with
  | VNum _ | VNaN | VInfinity _ => true
  | _ => false
  end.

(** Truthiness, as [||] and [if] test it. *)
Definition truthy (v : value) : bool :=
  match v with
  | VUndefined | VNull | VNaN => false
  | VBool b => b
  | VNum q => negb (Qeq_bool q 0)
  | VInfinity _ => true
  | VStr s => negb (String.eqb s "")
  end.

(** [a || b] *)
Definition or (a b : value) : value := if truthy a then a else b.

(** [obj.key]: a property that is absent reads as [undefined]. *)
Definition get (obj : gmap string value) (key : string) : value :=
  default VUndefined (obj !! key).

(** [{ ...a, ...b }]: properties of [b] win over those of [a]. *)
Definition spread (a b : gmap string value) : gmap string value := b ∪ a.

(** [Number.isInteger] on a finite number *)
Definition isInteger (q : Q) : bool := Qeq_bool q (inject_Z (Qfloor q)).

(** [Math.round]: the nearest integer, ties towards +Infinity. *)
Definition round (q : Q) : Z := Qfloor (q + (1 # 2)).

(** *** Double-precision arithmetic

    A finite double is a rational m * 2^e with |m| < 2^53 and
    -1074 <= e.  Every arithmetic operation of the language returns the
    double nearest to its exact result, ties going to the even
    significand.  Overflow (results beyond 2^1024) is not modelled. *)

(** The exponent e with 2^e <= |q| < 2^(e+1), for q <> 0. *)
Definition binade (q : Q) : Z :=
  let a := Qabs q in
  if Qle_bool 1 a then Z.log2 (Qfloor a) else - Z.log2_up (Qceiling (/ a)).

(** The nearest integer, ties to the even one. *)
Definition roundEven (q : Q) : Z :=
  let f := Qfloor q in
  match (q - inject_Z f ?= 1 # 2)%Q with
  | Lt => f
  | Gt => f + 1
  | Eq => if Z.even f then f else f + 1
  end.

(** The double nearest to [q]: 53 significant bits, and multiples of
    2^-1074 below 2^-1022. *)
Definition fl (q : Q) : Q :=
  if Qeq_bool q 0 then 0%Q
  else
    let ulp := Qpower 2 (Z.max (binade q) (-1022) - 52) in
    Qred (inject_Z (roundEven (q / ulp)) * ulp).

(** [a + b], [a - b], [a * b] and [a / b] on doubles *)
Definition plus (a b : Q) : Q := fl (a + b).
Definition minus (a b : Q) : Q := fl (a - b).
Definition times (a b : Q) : Q := fl (a * b).
Definition divide (a b : Q) : Q := fl (a / b).

(** Whether a rational is a double; the three operations are exact on
    operands whose exact result is one. *)
Definition isDouble (q : Q) : bool := Qeq_bool (fl q) q.

(** [Math.pow] on a double and an integer exponent, when it is rounded
    correctly.  The language only asks for an approximation, so the code is
    described for any [pow], and this one serves as an instance. *)
Definition pow (b : Q) (n : Z) : Q := fl (Qpower b n).

End Js.

(** ** tetrominoes.js: the piece catalog *)

Module Tetrominoes.

(** [TETROMINO_TYPES]: the seven string tags 'I', 'O', 'T', 'S', 'Z', 'J',
    'L'.  The constructors carry a prefix because [I], [O], [S] and [Z] are
    taken. *)
Inductive TetrominoType := TI | TO | TT | TS | TZ | TJ | TL.

#[global] Instance TetrominoType_eq_dec : EqDecision TetrominoType.
Proof. solve_decision. Defined.

Definition TETROMINO_COLORS (t : TetrominoType) : string :=
  match t with
  | TI => "#00F5FF"
  | TO => "#FFD700"
  | TT => "#9932CC"
  | TS => "#32CD32"
  | TZ => "#FF4500"
  | TJ => "#1E90FF"
  | TL => "#FF8C00"
  end.

(** A shape is a 4x4 grid of 0 and 1, row by row. *)
Definition Shape := list (list nat).

(** [TETROMINO_SHAPES[t]]: the four rotation states of a type. *)
Definition TETROMINO_SHAPES (t : TetrominoType) : list Shape :=
  match t with
  | TI =>
    [ [ [0;0;0;0]; [1;1;1;1]; [0;0;0;0]; [0;0;0;0] ];
      [ [0;0;1;0]; [0;0;1;0]; [0;0;1;0]; [0;0;1;0] ];
      [ [0;0;0;0]; [0;0;0;0]; [1;1;1;1]; [0;0;0;0] ];
      [ [0;1;0;0]; [0;1;0;0]; [0;1;0;0]; [0;1;0;0] ] ]
  | TO =>
    [ [ [0;0;0;0]; [0;1;1;0]; [0;1;1;0]; [0;0;0;0] ];
      [ [0;0;0;0]; [0;1;1;0]; [0;1;1;0]; [0;0;0;0] ];
      [ [0;0;0;0]; [0;1;1;0]; [0;1;1;0]; [0;0;0;0] ];
      [ [0;0;0;0]; [0;1;1;0]; [0;1;1;0]; [0;0;0;0] ] ]
  | TT =>
    [ [ [0;0;0;0]; [0;1;0;0]; [1;1;1;0]; [0;0;0;0] ];
      [ [0;0;0;0]; [0;1;0;0]; [0;1;1;0]; [0;1;0;0] ];
      [ [0;0;0;0]; [0;0;0;0]; [1;1;1;0]; [0;1;0;0] ];
      [ [0;0;0;0]; [0;1;0;0]; [1;1;0;0]; [0;1;0;0] ] ]
  | TS =>
    [ [ [0;0;0;0]; [0;1;1;0]; [1;1;0;0]; [0;0;0;0] ];
      [ [0;0;0;0]; [0;1;0;0]; [0;1;1;0]; [0;0;1;0] ];
      [ [0;0;0;0]; [0;0;0;0]; [0;1;1;0]; [1;1;0;0] ];
      [ [0;0;0;0]; [1;0;0;0]; [1;1;0;0]; [0;1;0;0] ] ]
  | TZ =>
    [ [ [0;0;0;0]; [1;1;0;0]; [0;1;1;0]; [0;0;0;0] ];
      [ [0;0;0;0]; [0;0;1;0]; [0;1;1;0]; [0;1;0;0] ];
      [ [0;0;0;0]; [0;0;0;0]; [1;1;0;0]; [0;1;1;0] ];
      [ [0;0;0;0]; [0;1;0;0]; [1;1;0;0]; [1;0;0;0] ] ]
  | TJ =>
    [ [ [0;0;0;0]; [1;0;0;0]; [1;1;1;0]; [0;0;0;0] ];
      [ [0;0;0;0]; [0;1;1;0]; [0;1;0;0]; [0;1;0;0] ];
      [ [0;0;0;0]; [0;0;0;0]; [1;1;1;0]; [0;0;1;0] ];
      [ [0;0;0;0]; [0;1;0;0]; [0;1;0;0]; [1;1;0;0] ] ]
  | TL =>
    [ [ [0;0;0;0]; [0;0;1;0]; [1;1;1;0]; [0;0;0;0] ];
      [ [0;0;0;0]; [0;1;0;0]; [0;1;0;0]; [0;1;1;0] ];
      [ [0;0;0;0]; [0;0;0;0]; [1;1;1;0]; [1;0;0;0] ];
      [ [0;0;0;0]; [1;1;0;0]; [0;1;0;0]; [0;1;0;0] ] ]
  end%nat.

(** [ALL_TETROMINO_TYPES = Object.values(TETROMINO_TYPES)], in the order
    the keys are written. *)
Definition ALL_TETROMINO_TYPES : list TetrominoType :=
  [TI; TO; TT; TS; TZ; TJ; TL].

Definition MAX_ROTATION_STATE : nat := 3.

End Tetrominoes.

(** ** tetrominoUtils.js: pieces and the 7-bag sequencer *)

Module TetrominoUtils.
Import Tetrominoes.

(** A tetromino object [{type, x, y, rotation, color, shape}]. *)
Record Tetromino := mkTetromino {
  type : TetrominoType;
  x : Z;
  y : Z;
  rotation : nat;
  color : string;
  shape : Shape
}.

(** [TETROMINO_SHAPES[t][r]].  An index past the table reads [undefined] in
    the source; it is the empty grid here.  Every caller below passes
    [r <= 3]. *)
Definition shapeAt (t : TetrominoType) (r : nat) : Shape :=
  default [] (TETROMINO_SHAPES t !! r).

(** [createTetromino(type, x, y, rotation)].  The type check of the source
    cannot fail for a [TetrominoType]; [None] is the error thrown for a
    rotation above [MAX_ROTATION_STATE]. *)
Definition createTetromino (t : TetrominoType) (px py : Z) (r : nat)
  : option Tetromino :=
  if (MAX_ROTATION_STATE <? r)%nat then None
  else Some (mkTetromino t px py r (TETROMINO_COLORS t) (shapeAt t r)).

(** The module-level [pieceBag], with the number of [Math.random] calls
    made so far. *)
Record Sequencer := mkSequencer {
  pieceBag : list TetrominoType;
  randomCalls : nat
}.

(** [[bag[i], bag[j]] = [bag[j], bag[i]]].  Both indices are inside the
    array whenever [Math.random] keeps its contract (see [randomIndex]). *)
Definition swap (bag : list TetrominoType) (i j : nat) : list TetrominoType :=
  match bag !! i, bag !! j with
  | Some bi, Some bj => <[j := bi]> (<[i := bj]> bag)
  | _, _ => bag
  end.

Section Random.

(** [random k] is what the k-th call of [Math.random()] returns. *)
Variable random : nat -> Q.

(** [Math.floor(Math.random() * (i + 1))] at call number [k]; the product
    is the exact one. *)
Definition randomIndex (k i : nat) : nat :=
  Z.to_nat (Qfloor (random k * inject_Z (Z.of_nat (i + 1)))).

(** The Fisher-Yates loop [for (i = ...; i > 0; i--)], entered at [i]. *)
Fixpoint shuffleFrom (i : nat) (bag : list TetrominoType) (k : nat)
  : list TetrominoType * nat :=
  match i with
  | O => (bag, k)
  | S i' => shuffleFrom i' (swap bag i (randomIndex k i)) (S k)
  end.

(** [generatePieceBag()], started at call number [k] of [Math.random]. *)
Definition generatePieceBag (k : nat) : list TetrominoType * nat :=
  let bag := ALL_TETROMINO_TYPES in
  shuffleFrom (length bag - 1) bag k.

(** [getRandomTetrominoType()]; [None] is the [undefined] that [pop]
    returns on an empty array. *)
Definition getRandomTetrominoType (sq : Sequencer)
  : option TetrominoType * Sequencer :=
  let sq1 :=
    if (length (pieceBag sq) =? 0)%nat
    then let '(bag, k) := generatePieceBag (randomCalls sq) in mkSequencer bag k
    else sq in
  (last (pieceBag sq1), mkSequencer (removelast (pieceBag sq1)) (randomCalls sq1)).

(** [resetPieceBag()] *)
Definition resetPieceBag (sq : Sequencer) : Sequencer :=
  mkSequencer [] (randomCalls sq).

(** [getPieceBagState()] *)
Definition getPieceBagState (sq : Sequencer) : list TetrominoType := pieceBag sq.

(** [createRandomTetromino(x, y)]; the outer [None] is a thrown error
    ([createTetromino] rejects an [undefined] type). *)
Definition createRandomTetromino (px py : Z) (sq : Sequencer)
  : option (Tetromino * Sequencer) :=
  match getRandomTetrominoType sq with
  | (Some t, sq') => (fun p => (p, sq')) <$> createTetromino t px py 0
  | (None, _) => None
  end.

(** [n] successive calls of [getRandomTetrominoType()], oldest first. *)
Fixpoint draws (n : nat) (sq : Sequencer)
  : list (option TetrominoType) * Sequencer :=
  match n with
  | O => ([], sq)
  | S n' =>
    let '(t, sq1) := getRandomTetrominoType sq in
    let '(ts, sq2) := draws n' sq1 in
    (t :: ts, sq2)
  end.

End Random.

(** [rotateTetromino(tetromino)]: clockwise, [(rotation + 1) % 4]. *)
Definition rotateTetromino (t : Tetromino) : Tetromino :=
  let newRotation := ((rotation t + 1) mod (MAX_ROTATION_STATE + 1))%nat in
  mkTetromino (type t) (x t) (y t) newRotation (color t)
              (shapeAt (type t) newRotation).

(** [moveTetromino(tetromino, deltaX, deltaY)] *)
Definition moveTetromino (t : Tetromino) (deltaX deltaY : Z) : Tetromino :=
  mkTetromino (type t) (x t + deltaX) (y t + deltaY) (rotation t) (color t)
              (shape t).

(** [setTetrominoPosition(tetromino, x, y)]; also the two assignments
    [piece.x = ...; piece.y = ...] on a fresh copy. *)
Definition setTetrominoPosition (t : Tetromino) (px py : Z) : Tetromino :=
  mkTetromino (type t) px py (rotation t) (color t) (shape t).

(** [cloneTetromino(tetromino)]: a copy with a copied shape; values have no
    identity here, so the copy is the value. *)
Definition cloneTetromino (t : Tetromino) : Tetromino :=
  mkTetromino (type t) (x t) (y t) (rotation t) (color t)
              (map (fun row => row) (shape t)).

(** [getTetrominoBlocks(tetromino)]: the cells [(x, y)] of the filled
    entries, rows outermost. *)
Definition getTetrominoBlocks (t : Tetromino) : list (Z * Z) :=
  concat (imap (fun row cells =>
    concat (imap (fun col v =>
      if (v =? 1)%nat then [(x t + Z.of_nat col, y t + Z.of_nat row)] else [])
      cells)) (shape t)).

(** [rotateTetrominoCounterClockwise(tetromino)] *)
Definition rotateTetrominoCounterClockwise (t : Tetromino) : Tetromino :=
  let newRotation :=
    if (rotation t =? 0)%nat then MAX_ROTATION_STATE else (rotation t - 1)%nat in
  mkTetromino (type t) (x t) (y t) newRotation (color t)
              (shapeAt (type t) newRotation).

(** [getTetrominoBounds(tetromino)]: the record [{minX, maxX, minY, maxY}]. *)
Record Bounds := mkBounds { minX : Z; maxX : Z; minY : Z; maxY : Z }.

Definition getTetrominoBounds (t : Tetromino) : Bounds :=
  match getTetrominoBlocks t with
  | [] => mkBounds 0 0 0 0
  | first :: _ =>
    fold_left (fun (b : Bounds) (block : Z * Z) =>
                 mkBounds (Z.min (minX b) block.1) (Z.max (maxX b) block.1)
                          (Z.min (minY b) block.2) (Z.max (maxY b) block.2))
              (getTetrominoBlocks t)
              (mkBounds first.1 first.1 first.2 first.2)
  end.

(** [getTetrominoWidth(tetromino)] and [getTetrominoHeight(tetromino)] *)
Definition getTetrominoWidth (t : Tetromino) : Z :=
  let bounds := getTetrominoBounds t in maxX bounds - minX bounds + 1.

Definition getTetrominoHeight (t : Tetromino) : Z :=
  let bounds := getTetrominoBounds t in maxY bounds - minY bounds + 1.

(** [areTetrominoesEqual(tetromino1, tetromino2)]: type, position and
    rotation; colour and shape are not compared. *)
Definition areTetrominoesEqual (t1 t2 : Tetromino) : bool :=
  bool_decide (type t1 = type t2) && (x t1 =? x t2) && (y t1 =? y t2)
  && (rotation t1 =? rotation t2)%nat.

(** A piece as this module makes them: a rotation state of the catalog,
    with the catalog's shape and colour for its type. *)
Definition catalog (t : Tetromino) : Prop :=
  (rotation t <= MAX_ROTATION_STATE)%nat /\
  shape t = shapeAt (type t) (rotation t) /\
  color t = TETROMINO_COLORS (type t).

End TetrominoUtils.

(** ** boardManager.js *)

Module BoardManager.
Import Tetrominoes.

(** An occupied cell [{type, color}]; an empty one is [null]. *)
Record Cell := mkCell { type : TetrominoType; color : string }.

Abbreviation Row := (list (option Cell)).

Record BoardManager := mkBoardManager {
  width : nat;
  height : nat;
  board : list Row
}.

(** [new Array(width).fill(null)] *)
Definition emptyRow (w : nat) : Row := replicate w None.

(** [initializeBoard()] *)
Definition initializeBoard (w h : nat) : list Row := replicate h (emptyRow w).

(** [new BoardManager(width, height)] *)
Definition create (w h : nat) : BoardManager :=
  mkBoardManager w h (initializeBoard w h).

(** [clearBoard()] *)
Definition clearBoard (bm : BoardManager) : BoardManager :=
  mkBoardManager (width bm) (height bm) (initializeBoard (width bm) (height bm)).

(** The invariant the class keeps: [height] rows of [width] cells. *)
Definition wellFormed (bm : BoardManager) : Prop :=
  length (board bm) = height bm /\
  Forall (fun r : Row => length r = width bm) (board bm).

(** [this.board[y][x]] for indices that are natural numbers; the outer
    [None] is [undefined]. *)
Definition cellAt (bm : BoardManager) (col row : nat) : option (option Cell) :=
  board bm !! row ≫= fun r : Row => r !! col.

(** [isWithinBounds(x, y)] *)
Definition isWithinBounds (bm : BoardManager) (x y : Z) : bool :=
  (0 <=? x) && (x <? Z.of_nat (width bm)) &&
  (0 <=? y) && (y <? Z.of_nat (height bm)).

(** [=== null] and [!== null] on what an array read gives. *)
Definition isNull (c : option (option Cell)) : bool :=
  match c with Some None => true | _ => false end.

(** [isEmpty(x, y)] *)
Definition isEmpty (bm : BoardManager) (x y : Z) : bool :=
  if negb (isWithinBounds bm x y) then false
  else isNull (cellAt bm (Z.to_nat x) (Z.to_nat y)).

(** [isOccupied(x, y)] *)
Definition isOccupied (bm : BoardManager) (x y : Z) : bool :=
  if negb (isWithinBounds bm x y) then true
  else negb (isNull (cellAt bm (Z.to_nat x) (Z.to_nat y))).

(** [isValidPosition(tetromino)]: the loop returns false at the first block
    that is out of bounds or occupied. *)
Definition isValidPosition (bm : BoardManager) (t : TetrominoUtils.Tetromino)
  : bool :=
  forallb (fun b : Z * Z =>
             if negb (isWithinBounds bm b.1 b.2) then false
             else if isOccupied bm b.1 b.2 then false
             else true)
          (TetrominoUtils.getTetrominoBlocks t).

(** [canMove(tetromino, deltaX, deltaY)] *)
Definition canMove (bm : BoardManager) (t : TetrominoUtils.Tetromino)
  (deltaX deltaY : Z) : bool :=
  isValidPosition bm (TetrominoUtils.moveTetromino t deltaX deltaY).

Definition canMoveLeft bm t := canMove bm t (-1) 0.
Definition canMoveRight bm t := canMove bm t 1 0.
Definition canMoveDown bm t := canMove bm t 0 1.

(** [canRotate(rotatedTetromino)] *)
Definition canRotate (bm : BoardManager) (rotated : TetrominoUtils.Tetromino)
  : bool := isValidPosition bm rotated.

(** [this.board[y][x] = c] *)
Definition setCell (rows : list Row) (x y : Z) (c : Cell) : list Row :=
  alter (fun r : Row => <[Z.to_nat x := Some c]> r) (Z.to_nat y) rows.

(** [placePiece(tetromino)] *)
Definition placePiece (bm : BoardManager) (t : TetrominoUtils.Tetromino)
  : bool * BoardManager :=
  if negb (isValidPosition bm t) then (false, bm)
  else
    let c := mkCell (TetrominoUtils.type t) (TetrominoUtils.color t) in
    (true,
     mkBoardManager (width bm) (height bm)
       (fold_left (fun rows (b : Z * Z) => setCell rows b.1 b.2 c)
                  (TetrominoUtils.getTetrominoBlocks t) (board bm))).

(** [isRowComplete(row)]; the row index is a loop counter, never negative. *)
Definition isRowComplete (bm : BoardManager) (row : nat) : bool :=
  if (height bm <=? row)%nat then false
  else forallb (fun col => negb (isNull (cellAt bm col row))) (seq 0 (width bm)).

(** [findCompleteRows()] *)
Definition findCompleteRows (bm : BoardManager) : list nat :=
  filter (fun row => isRowComplete bm row = true) (seq 0 (height bm)).

(** [clearRow(rowIndex)]: [splice] then [unshift]. *)
Definition clearRow (bm : BoardManager) (rowIndex : nat) : BoardManager :=
  if (height bm <=? rowIndex)%nat then bm
  else mkBoardManager (width bm) (height bm)
         (emptyRow (width bm) :: delete rowIndex (board bm)).

(** The record [{count, rows}] that [clearLines] returns. *)
Record LineClear := mkLineClear { count : nat; rows : list nat }.

(** [clearLines()].  A row index without a row (which the invariant rules
    out) contributes nothing. *)
Definition clearLines (bm : BoardManager) : LineClear * BoardManager :=
  let completeRows := findCompleteRows bm in
  if (length completeRows =? 0)%nat then (mkLineClear 0 [], bm)
  else
    let clearedRowIndices := completeRows in
    let newBoard :=
      replicate (length completeRows) (emptyRow (width bm)) ++
      omap (fun row => if bool_decide (row ∈ completeRows) then None
                       else board bm !! row)
           (seq 0 (height bm)) in
    (mkLineClear (length completeRows) clearedRowIndices,
     mkBoardManager (width bm) (height bm) newBoard).

(** [isGameOver()]: a block in the top two rows. *)
Definition isGameOver (bm : BoardManager) : bool :=
  existsb (fun row =>
    existsb (fun col => negb (isNull (cellAt bm col row))) (seq 0 (width bm)))
    (seq 0 (Nat.min 2 (height bm))).

(** [wouldCauseSpawnCollision(tetromino)] *)
Definition wouldCauseSpawnCollision bm t : bool := negb (isValidPosition bm t).

(** [getColumnHeights()]: per column, [height - row] of the first
    occupied row from the top, 0 for an empty column. *)
Definition getColumnHeights (bm : BoardManager) : list nat :=
  map (fun col =>
         match find (fun row => negb (isNull (cellAt bm col row)))
                    (seq 0 (height bm)) with
         | Some row => (height bm - row)%nat
         | None => 0%nat
         end)
      (seq 0 (width bm)).

(** [getFilledBlockCount()] *)
Definition getFilledBlockCount (bm : BoardManager) : nat :=
  fold_left (fun count row =>
    fold_left (fun count col =>
                 if negb (isNull (cellAt bm col row)) then S count else count)
              (seq 0 (width bm)) count)
    (seq 0 (height bm)) 0%nat.

End BoardManager.

(** ** tetrominoUtils.js: the functions that take a board *)

Module TetrominoUtilsBoard.
Import TetrominoUtils.

(** [isValidPosition(tetromino, board, boardWidth, boardHeight)].  The
    collision test is [board[y] && board[y][x] !== null]: a missing row
    counts as free, a missing cell of an existing row as taken. *)
Definition isValidPosition (t : Tetromino) (board : list BoardManager.Row)
  (boardWidth boardHeight : nat) : bool :=
  forallb (fun b : Z * Z =>
             if (b.1 <? 0) || (Z.of_nat boardWidth <=? b.1)
                || (b.2 <? 0) || (Z.of_nat boardHeight <=? b.2)
             then false
             else match board !! Z.to_nat b.2 with
                  | Some row =>
                    if negb (BoardManager.isNull (row !! Z.to_nat b.1))
                    then false else true
                  | None => true
                  end)
          (getTetrominoBlocks t).

(** [canMove(tetromino, deltaX, deltaY, board, boardWidth, boardHeight)] *)
Definition canMove (t : Tetromino) (deltaX deltaY : Z)
  (board : list BoardManager.Row) (boardWidth boardHeight : nat) : bool :=
  isValidPosition (moveTetromino t deltaX deltaY) board boardWidth boardHeight.

(** [canRotate(tetromino, board, boardWidth, boardHeight)]: unlike the
    board manager's [canRotate], this one rotates its argument first. *)
Definition canRotate (t : Tetromino) (board : list BoardManager.Row)
  (boardWidth boardHeight : nat) : bool :=
  isValidPosition (rotateTetromino t) board boardWidth boardHeight.

End TetrominoUtilsBoard.

(** ** tetrominoManager.js: the piece controller *)

Module TetrominoManager.
Import Tetrominoes.
Export TetrominoUtils(Tetromino, Sequencer).

(** The controller's own fields.  Its [boardManager] field is a reference
    to the board object that the engine owns too: every method below takes
    that one board as an argument, and [lockPiece] hands back the board it
    has written to. *)
Record TetrominoManager := mkTetrominoManager {
  currentPiece : option Tetromino;
  nextPiece : option Tetromino;
  spawnX : Z;
  spawnY : Z
}.

(** [new TetrominoManager(boardManager)] *)
Definition create (bm : BoardManager.BoardManager) : TetrominoManager :=
  mkTetrominoManager None None
    (Z.of_nat (BoardManager.width bm / 2) - 2) 0.

Definition setCurrentPiece (tm : TetrominoManager) (p : option Tetromino) :=
  mkTetrominoManager p (nextPiece tm) (spawnX tm) (spawnY tm).

(** [standardOffsets] and [iPieceOffsets], keyed by ['from->to']. *)
Definition standardOffsets (fromRotation toRotation : nat) : option (list (Z * Z)) :=
  match fromRotation, toRotation with
  | 0%nat, 1%nat => Some [(-1, 0); (-1, -1); (0, 2); (-1, 2)]
  | 1%nat, 2%nat => Some [(1, 0); (1, 1); (0, -2); (1, -2)]
  | 2%nat, 3%nat => Some [(1, 0); (1, -1); (0, 2); (1, 2)]
  | 3%nat, 0%nat => Some [(-1, 0); (-1, 1); (0, -2); (-1, -2)]
  | _, _ => None
  end.

Definition iPieceOffsets (fromRotation toRotation : nat) : option (list (Z * Z)) :=
  match fromRotation, toRotation with
  | 0%nat, 1%nat => Some [(-2, 0); (1, 0); (-2, 1); (1, -2)]
  | 1%nat, 2%nat => Some [(-1, 0); (2, 0); (-1, -2); (2, 1)]
  | 2%nat, 3%nat => Some [(2, 0); (-1, 0); (2, -1); (-1, 2)]
  | 3%nat, 0%nat => Some [(1, 0); (-2, 0); (1, 2); (-2, -1)]
  | _, _ => None
  end.

(** [getWallKickOffsets(pieceType, fromRotation, toRotation)]:
    [offsetTable[transitionKey] || []]. *)
Definition getWallKickOffsets (pieceType : TetrominoType)
  (fromRotation toRotation : nat) : list (Z * Z) :=
  let offsetTable :=
    if decide (pieceType = TI) then iPieceOffsets else standardOffsets in
  default [] (offsetTable fromRotation toRotation).

Section Random.
Variable random : nat -> Q.

(** [spawnPiece()].  The outer [None] is an error thrown while a piece is
    created; the inner option is the value returned. *)
Definition spawnPiece (bm : BoardManager.BoardManager) (tm : TetrominoManager)
  (sq : Sequencer)
  : option (option Tetromino * TetrominoManager * Sequencer) :=
  current ← match nextPiece tm with
            | Some np => Some (TetrominoUtils.cloneTetromino np, sq)
            | None => TetrominoUtils.createRandomTetromino random 0 0 sq
            end;
  let '(cur, sq1) := current in
  let cur := TetrominoUtils.setTetrominoPosition cur (spawnX tm) (spawnY tm) in
  next ← TetrominoUtils.createRandomTetromino random 0 0 sq1;
  let '(np, sq2) := next in
  let tm1 := mkTetrominoManager (Some cur) (Some np) (spawnX tm) (spawnY tm) in
  if negb (BoardManager.isValidPosition bm cur)
  then Some (None, setCurrentPiece tm1 None, sq2)
  else Some (Some cur, tm1, sq2).

End Random.

(** [canSpawnPiece(piece = null)]: every piece of this model has a shape,
    so the branch that clones is the one taken. *)
Definition canSpawnPiece (bm : BoardManager.BoardManager) (tm : TetrominoManager)
  (piece : option Tetromino) : bool :=
  match (match piece with Some p => Some p | None => nextPiece tm end) with
  | None => false
  | Some testPiece =>
    BoardManager.isValidPosition bm
      (TetrominoUtils.setTetrominoPosition
         (TetrominoUtils.cloneTetromino testPiece) (spawnX tm) (spawnY tm))
  end.

Definition getCurrentPiece (tm : TetrominoManager) := currentPiece tm.
Definition getNextPiece (tm : TetrominoManager) := nextPiece tm.

(** [hasActivePiece()] *)
Definition hasActivePiece (tm : TetrominoManager) : bool :=
  match currentPiece tm with Some _ => true | None => false end.

(** [moveHorizontal(direction)] *)
Definition moveHorizontal (bm : BoardManager.BoardManager)
  (tm : TetrominoManager) (direction : Z) : bool * TetrominoManager :=
  match currentPiece tm with
  | None => (false, tm)
  | Some cur =>
    let deltaX := if 0 <? direction then 1 else -1 in
    if BoardManager.canMove bm cur deltaX 0
    then (true, setCurrentPiece tm
                  (Some (TetrominoUtils.moveTetromino cur deltaX 0)))
    else (false, tm)
  end.

Definition moveLeft bm tm := moveHorizontal bm tm (-1).
Definition moveRight bm tm := moveHorizontal bm tm 1.

(** [moveDown()] *)
Definition moveDown (bm : BoardManager.BoardManager) (tm : TetrominoManager)
  : bool * TetrominoManager :=
  match currentPiece tm with
  | None => (false, tm)
  | Some cur =>
    if BoardManager.canMove bm cur 0 1
    then (true, setCurrentPiece tm (Some (TetrominoUtils.moveTetromino cur 0 1)))
    else (false, tm)
  end.

(** The [for ... of wallKickOffsets] loop of [rotatePiece]: the first
    kicked piece the board accepts, if any. *)
Fixpoint tryWallKicks (bm : BoardManager.BoardManager) (rotatedPiece : Tetromino)
  (offsets : list (Z * Z)) : option Tetromino :=
  match offsets with
  | [] => None
  | (offsetX, offsetY) :: rest =>
    let kickedPiece := TetrominoUtils.moveTetromino rotatedPiece offsetX offsetY in
    if BoardManager.canRotate bm kickedPiece then Some kickedPiece
    else tryWallKicks bm rotatedPiece rest
  end.

(** [rotatePiece()] *)
Definition rotatePiece (bm : BoardManager.BoardManager) (tm : TetrominoManager)
  : bool * TetrominoManager :=
  match currentPiece tm with
  | None => (false, tm)
  | Some cur =>
    let rotatedPiece := TetrominoUtils.rotateTetromino cur in
    if BoardManager.canRotate bm rotatedPiece
    then (true, setCurrentPiece tm (Some rotatedPiece))
    else
      let wallKickOffsets :=
        getWallKickOffsets (TetrominoUtils.type cur)
          (TetrominoUtils.rotation cur) (TetrominoUtils.rotation rotatedPiece) in
      match tryWallKicks bm rotatedPiece wallKickOffsets with
      | Some kickedPiece => (true, setCurrentPiece tm (Some kickedPiece))
      | None => (false, tm)
      end
  end.

(** [canMoveDown()] *)
Definition canMoveDown (bm : BoardManager.BoardManager) (tm : TetrominoManager)
  : bool :=
  match currentPiece tm with
  | None => false
  | Some cur => BoardManager.canMoveDown bm cur
  end.

(** [lockPiece()]: the piece goes onto the shared board. *)
Definition lockPiece (bm : BoardManager.BoardManager) (tm : TetrominoManager)
  : bool * BoardManager.BoardManager * TetrominoManager :=
  match currentPiece tm with
  | None => (false, bm, tm)
  | Some cur =>
    let '(success, bm') := BoardManager.placePiece bm cur in
    (success, bm', if success then setCurrentPiece tm None else tm)
  end.

(** [reset()] *)
Definition reset (tm : TetrominoManager) : TetrominoManager :=
  mkTetrominoManager None None (spawnX tm) (spawnY tm).

(** The [while (this.canMoveDown())] loop of [hardDrop]: [None] when the
    fuel runs out before the loop ends. *)
Fixpoint hardDropLoop (fuel : nat) (bm : BoardManager.BoardManager)
  (tm : TetrominoManager) (dropDistance : nat)
  : option (nat * TetrominoManager) :=
  match fuel with
  | O => None
  | S fuel' =>
    if canMoveDown bm tm
    then hardDropLoop fuel' bm (moveDown bm tm).2 (S dropDistance)
    else Some (dropDistance, tm)
  end.

(** [hardDrop()]: the distance dropped and the new controller. *)
Definition hardDrop (fuel : nat) (bm : BoardManager.BoardManager)
  (tm : TetrominoManager) : option (nat * TetrominoManager) :=
  match currentPiece tm with
  | None => Some (0%nat, tm)
  | Some _ => hardDropLoop fuel bm tm 0
  end.

(** The [while] loop of [getGhostPiece], with [ghostPiece.y++] as body. *)
Fixpoint ghostLoop (fuel : nat) (bm : BoardManager.BoardManager)
  (ghostPiece : Tetromino) : option Tetromino :=
  match fuel with
  | O => None
  | S fuel' =>
    if BoardManager.canMove bm ghostPiece 0 1
    then ghostLoop fuel' bm
           (TetrominoUtils.setTetrominoPosition ghostPiece
              (TetrominoUtils.x ghostPiece) (TetrominoUtils.y ghostPiece + 1))
    else Some ghostPiece
  end.

(** [getGhostPiece()]: the outer [None] is a loop out of fuel, the inner
    one the [null] returned without a current piece. *)
Definition getGhostPiece (fuel : nat) (bm : BoardManager.BoardManager)
  (tm : TetrominoManager) : option (option Tetromino) :=
  match currentPiece tm with
  | None => Some None
  | Some cur => Some <$> ghostLoop fuel bm (TetrominoUtils.cloneTetromino cur)
  end.

(** What the controller keeps true of its current piece: it is in a valid
    position on the board. *)
Definition currentPieceFits (bm : BoardManager.BoardManager)
  (tm : TetrominoManager) : Prop :=
  forall p, currentPiece tm = Some p -> BoardManager.isValidPosition bm p = true.

End TetrominoManager.

(** ** scoreManager.js *)

Module ScoreManager.
Import Js.

(** The configuration at the types the class computes with. *)
Record Config := mkConfig { linesPerLevel : Z; initialLevel : Z }.

Record LinesClearedByType := mkLinesClearedByType {
  single : Z; double : Z; triple : Z; tetris : Z
}.

Record ScoreManager := mkScoreManager {
  config : Config;
  score : Z;
  level : Z;
  linesCleared : Z;
  totalPiecesPlaced : Z;
  linesClearedByType : LinesClearedByType
}.

(** The object literal assigned to [this.config] in the constructor; the
    argument is [None] when the caller passes nothing ([config = {}]). *)
Definition constructorConfig (config : option (gmap string value))
  : gmap string value :=
  let config := default ∅ config in
  spread
    {[ "linesPerLevel" := or (get config "linesPerLevel") (VNum 10);
       "initialLevel" := or (get config "initialLevel") (VNum 1) ]}
    config.

(** A stored property read as the integer the class computes with. *)
Definition asInteger (v : value) : option Z :=
  match v with
  | VNum q => if isInteger q then Some (Qfloor q) else None
  | _ => None
  end.

Definition readConfig (stored : gmap string value) : option Config :=
  l ← asInteger (get stored "linesPerLevel");
  i ← asInteger (get stored "initialLevel");
  Some (mkConfig l i).

(** [reset()] *)
Definition reset (sm : ScoreManager) : ScoreManager :=
  mkScoreManager (config sm) 0 (initialLevel (config sm)) 0 0
    (mkLinesClearedByType 0 0 0 0).

(** The state a constructor call leaves, for a stored configuration. *)
Definition create (c : Config) : ScoreManager :=
  mkScoreManager c 0 (initialLevel c) 0 0 (mkLinesClearedByType 0 0 0 0).

(** [new ScoreManager(config)].  The constructor never throws; the result
    is [None] when the stored configuration holds something other than two
    integers, which the typed state cannot carry. *)
Definition construct (config : option (gmap string value)) : option ScoreManager :=
  create <$> readConfig (constructorConfig config).

(** [isNaN(v)], [v < c] and [v > c] on a value whose type is number. *)
Definition isNaN (v : value) : bool :=
  match v with VNaN => true | _ => false end.

Definition lessThan (v : value) (c : Q) : bool :=
  match v with
  | VNum q => negb (Qle_bool c q)
  | VInfinity negative => negative
  | _ => false
  end.

Definition greaterThan (v : value) (c : Q) : bool :=
  match v with
  | VNum q => negb (Qle_bool q c)
  | VInfinity negative => negb negative
  | _ => false
  end.

(** [Number.isInteger(v)] *)
Definition isIntegerValue (v : value) : bool :=
  match v with VNum q => isInteger q | _ => false end.

(** The guard at the head of [addScore]. *)
Definition invalidLineCount (v : value) : bool :=
  negb (isNumberType v) || isNaN v || lessThan v 1 || greaterThan v 4 ||
  negb (isIntegerValue v).

(** The integer a value holds, once the guard has accepted it. *)
Definition integerOf (v : value) : Z :=
  match v with VNum q => Qfloor q | _ => 0 end.

(** [getBaseScore(linesCleared)] *)
Definition getBaseScore (n : Z) : Z :=
  match n with
  | 1 => 100
  | 2 => 300
  | 3 => 500
  | 4 => 800
  | _ => 0
  end.

(** [updateLineClearingStats(linesCleared)] *)
Definition updateLineClearingStats (n : Z) (s : LinesClearedByType)
  : LinesClearedByType :=
  match n with
  | 1 => mkLinesClearedByType (single s + 1) (double s) (triple s) (tetris s)
  | 2 => mkLinesClearedByType (single s) (double s + 1) (triple s) (tetris s)
  | 3 => mkLinesClearedByType (single s) (double s) (triple s + 1) (tetris s)
  | 4 => mkLinesClearedByType (single s) (double s) (triple s) (tetris s + 1)
  | _ => s
  end.

(** [updateLevel()]: [Math.floor(linesCleared / linesPerLevel) +
    initialLevel].  [Z.div] is the floor of the quotient for a divisor that
    is not zero; for zero the source yields Infinity or NaN, which [Z]
    cannot hold, and the quotient is 0 here. *)
Definition updateLevel (sm : ScoreManager) : ScoreManager :=
  let newLevel :=
    linesCleared sm / linesPerLevel (config sm) + initialLevel (config sm) in
  mkScoreManager (config sm) (score sm) newLevel (linesCleared sm)
    (totalPiecesPlaced sm) (linesClearedByType sm).

(** [addScore(linesCleared)]: the points awarded and the new state. *)
Definition addScore (v : value) (sm : ScoreManager) : Z * ScoreManager :=
  if invalidLineCount v then (0, sm)
  else
    let n := integerOf v in
    let baseScore := getBaseScore n in
    let pointsAwarded := baseScore * level sm in
    let sm1 :=
      mkScoreManager (config sm) (score sm + pointsAwarded) (level sm)
        (linesCleared sm + n) (totalPiecesPlaced sm)
        (updateLineClearingStats n (linesClearedByType sm)) in
    (pointsAwarded, updateLevel sm1).

(** [addPiecePlacement()] *)
Definition addPiecePlacement (sm : ScoreManager) : ScoreManager :=
  mkScoreManager (config sm) (score sm) (level sm) (linesCleared sm)
    (totalPiecesPlaced sm + 1) (linesClearedByType sm).

Definition getScore (sm : ScoreManager) := score sm.
Definition getLevel (sm : ScoreManager) := level sm.
Definition getLinesCleared (sm : ScoreManager) := linesCleared sm.

(** [calculateFallSpeed(baseFallSpeed)]:
    [Math.max(Math.round(baseFallSpeed * Math.pow(0.8, level - 1)), 50)],
    with the roundings of the code.  The literal 0.8 is the double nearest
    to 8/10; [pow] stands for [Math.pow] on a double and an integer
    exponent, whose accuracy the language leaves to the implementation; the
    product is rounded to a double before [Math.round] sees it. *)
Definition calculateFallSpeedIn (pow : Q -> Z -> Q) (sm : ScoreManager)
    (baseFallSpeed : Q) : Z :=
  let speedMultiplier := pow (fl (8 # 10)) (level sm - 1) in
  Z.max (round (times baseFallSpeed speedMultiplier)) 50.

(** The same in exact arithmetic: the power and the product are the
    rationals themselves, and only [Math.round] rounds. *)
Definition calculateFallSpeed (sm : ScoreManager) (baseFallSpeed : Q) : Z :=
  let speedMultiplier := Qpower (8 # 10) (level sm - 1) in
  Z.max (round (baseFallSpeed * speedMultiplier)) 50.

(** [getLinesUntilNextLevel()]; [%] is the remainder that takes the sign
    of the dividend. *)
Definition getLinesUntilNextLevel (sm : ScoreManager) : Z :=
  let linesInCurrentLevel := Z.rem (linesCleared sm) (linesPerLevel (config sm)) in
  linesPerLevel (config sm) - linesInCurrentLevel.

(** The two derived figures of [getStats()]; the quotients and the product
    are rounded to doubles before [Math.round] sees them. *)
Definition averageScorePerPiece (sm : ScoreManager) : Z :=
  if 0 <? totalPiecesPlaced sm
  then round (divide (inject_Z (score sm)) (inject_Z (totalPiecesPlaced sm)))
  else 0.

Definition tetrisPercentage (sm : ScoreManager) : Z :=
  if 0 <? linesCleared sm
  then round (times (divide (inject_Z (tetris (linesClearedByType sm) * 4))
                       (inject_Z (linesCleared sm))) 100)
  else 0.

(** The object [exportState()] returns and [importState(state)] reads; a
    property that is absent is [None]. *)
Record SavedConfig := mkSavedConfig {
  savedLinesPerLevel : option Z;
  savedInitialLevel : option Z
}.

Record SavedState := mkSavedState {
  savedScore : option Z;
  savedLevel : option Z;
  savedLinesCleared : option Z;
  savedTotalPiecesPlaced : option Z;
  savedLinesClearedByType : option LinesClearedByType;
  savedConfig : option SavedConfig
}.

(** [exportState()] *)
Definition exportState (sm : ScoreManager) : SavedState :=
  mkSavedState (Some (score sm)) (Some (level sm)) (Some (linesCleared sm))
    (Some (totalPiecesPlaced sm)) (Some (linesClearedByType sm))
    (Some (mkSavedConfig (Some (linesPerLevel (config sm)))
                         (Some (initialLevel (config sm))))).

(** [n || d] for a number property that may be absent: 0 is falsy. *)
Definition numberOr (n : option Z) (d : Z) : Z :=
  match n with
  | Some v => if v =? 0 then d else v
  | None => d
  end.

(** [{ ...this.config, ...state.config }] *)
Definition mergeConfig (c : Config) (saved : SavedConfig) : Config :=
  mkConfig (default (linesPerLevel c) (savedLinesPerLevel saved))
           (default (initialLevel c) (savedInitialLevel saved)).

(** [importState(state)]: the level default is read before the
    configuration is merged. *)
Definition importState (state : SavedState) (sm : ScoreManager) : ScoreManager :=
  mkScoreManager
    (match savedConfig state with
     | Some saved => mergeConfig (config sm) saved
     | None => config sm
     end)
    (numberOr (savedScore state) 0)
    (numberOr (savedLevel state) (initialLevel (config sm)))
    (numberOr (savedLinesCleared state) 0)
    (numberOr (savedTotalPiecesPlaced state) 0)
    (default (mkLinesClearedByType 0 0 0 0) (savedLinesClearedByType state)).

(** A sequence of [addScore] calls, first argument first. *)
Definition addScores (vs : list value) (sm : ScoreManager) : ScoreManager :=
  fold_left (fun sm v => (addScore v sm).2) vs sm.

(** What the counters keep between calls of [addScore]: the total of the
    cleared lines is made up of the clears counted by kind, and the level
    is the one [updateLevel] computes from the total. *)
Definition consistent (sm : ScoreManager) : Prop :=
  linesCleared sm
  = single (linesClearedByType sm) + 2 * double (linesClearedByType sm)
    + 3 * triple (linesClearedByType sm) + 4 * tetris (linesClearedByType sm)
  /\ level sm
     = linesCleared sm / linesPerLevel (config sm) + initialLevel (config sm)
  /\ 0 <= single (linesClearedByType sm)
  /\ 0 <= double (linesClearedByType sm)
  /\ 0 <= triple (linesClearedByType sm)
  /\ 0 <= tetris (linesClearedByType sm).

End ScoreManager.

(** ** gameEngine.js *)

Module GameEngine.
Import Js.

(** The configuration at the types the engine computes with: array sizes
    and durations in milliseconds. *)
Record Config := mkConfig {
  boardWidth : nat;
  boardHeight : nat;
  initialFallSpeed : Q;
  softDropSpeed : Q;
  lockDelay : Q
}.

(** The object literal assigned to [this.config] in the constructor. *)
Definition constructorConfig (config : option (gmap string value))
  : gmap string value :=
  let config := default ∅ config in
  spread
    {[ "boardWidth" := or (get config "boardWidth") (VNum 10);
       "boardHeight" := or (get config "boardHeight") (VNum 20);
       "initialFallSpeed" := or (get config "initialFallSpeed") (VNum 1000);
       "softDropSpeed" := or (get config "softDropSpeed") (VNum 50);
       "lockDelay" := or (get config "lockDelay") (VNum 500) ]}
    config.

Definition asSize (v : value) : option nat :=
  match v with
  | VNum q => if isInteger q && Qle_bool 0 q then Some (Z.to_nat (Qfloor q))
              else None
  | _ => None
  end.

Definition asNumber (v : value) : option Q :=
  match v with VNum q => Some q | _ => None end.

Definition readConfig (stored : gmap string value) : option Config :=
  w ← asSize (get stored "boardWidth");
  h ← asSize (get stored "boardHeight");
  f ← asNumber (get stored "initialFallSpeed");
  s ← asNumber (get stored "softDropSpeed");
  l ← asNumber (get stored "lockDelay");
  Some (mkConfig w h f s l).

(** [gameState.status] *)
Inductive Status := Stopped | Playing | Paused | GameOver.

#[global] Instance Status_eq_dec : EqDecision Status.
Proof. solve_decision. Defined.

(** The engine object.  [gameState] is flattened into [status] and
    [fallSpeed]; [lastClearedRows] is [None] while the property does not
    exist.  The animation-frame handle belongs to the host and is left
    out. *)
Record GameEngine := mkGameEngine {
  config : Config;
  boardManager : BoardManager.BoardManager;
  tetrominoManager : TetrominoManager.TetrominoManager;
  scoreManager : ScoreManager.ScoreManager;
  status : Status;
  fallSpeed : Q;
  lastFallTime : Q;
  lastUpdateTime : Q;
  lockTimer : Q;
  isLockDelayActive : bool;
  isSoftDropping : bool;
  pauseTime : Q;
  isRunning : bool;
  lastClearedRows : option (list nat)
}.

(** The engine with what it shares with its host: the module-level piece
    bag and the number of [performance.now] calls made so far. *)
Record World := mkWorld {
  engine : GameEngine;
  sequencer : TetrominoUtils.Sequencer;
  nowCalls : nat
}.

(** [new GameEngine(config)] for a stored configuration; the score manager
    is built without arguments. *)
Definition create (c : Config) : GameEngine :=
  let bm := BoardManager.create (boardWidth c) (boardHeight c) in
  mkGameEngine c bm (TetrominoManager.create bm)
    (ScoreManager.create (ScoreManager.mkConfig 10 1))
    Stopped (initialFallSpeed c) 0 0 0 false false 0 false None.

(** What a call of [new GameEngine(config)] does: it returns an engine, or
    it throws, or the stored configuration holds a value that the typed
    records cannot carry (a fall speed that is a string, a height that is
    negative or fractional) and the call is not described. *)
Inductive Construction :=
| Built (e : GameEngine)
| Thrown
| Unmodelled.

(** Whether [initializeBoard] builds a first row, for the height passed to
    [new BoardManager]: the test [0 < height] of its loop.  For [undefined]
    the parameter takes its default, 20; [None] for a string, whose
    conversion to a number is not modelled. *)
Definition hasRows (height : value) : option bool :=
  match height with
  | VNum q => Some (negb (Qle_bool q 0))
  | VInfinity negative => Some (negb negative)
  | VBool b => Some b
  | VUndefined => Some true
  | VNull | VNaN => Some false
  | VStr _ => None
  end.

(** [new Array(width)] throws a [RangeError] when [width] is a number that
    is not an integer from 0 to 2^32 - 1; a [width] of another type becomes
    the only element of the array (and for [undefined] the parameter of
    [new BoardManager] takes its default, 10). *)
Definition invalidArrayLength (width : value) : bool :=
  match width with
  | VNum q => negb (isInteger q && Qle_bool 0 q && Qle_bool q (2 ^ 32 - 1))
  | VNaN | VInfinity _ => true
  | _ => false
  end.

(** [new GameEngine(config)].  The stored configuration is built without
    any validation and its sizes go to [new BoardManager], whose
    [initializeBoard] calls [new Array(width)] once for each row. *)
Definition construct (config : option (gmap string value)) : Construction :=
  let stored := constructorConfig config in
  match hasRows (get stored "boardHeight"),
        invalidArrayLength (get stored "boardWidth") with
  | Some true, true => Thrown
  | _, _ =>
    match readConfig stored with
    | Some c => Built (create c)
    | None => Unmodelled
    end
  end.

(** Field updates. *)
Definition setBoardManager (e : GameEngine) v :=
  mkGameEngine (config e) v (tetrominoManager e) (scoreManager e) (status e)
    (fallSpeed e) (lastFallTime e) (lastUpdateTime e) (lockTimer e)
    (isLockDelayActive e) (isSoftDropping e) (pauseTime e) (isRunning e)
    (lastClearedRows e).
Definition setTetrominoManager (e : GameEngine) v :=
  mkGameEngine (config e) (boardManager e) v (scoreManager e) (status e)
    (fallSpeed e) (lastFallTime e) (lastUpdateTime e) (lockTimer e)
    (isLockDelayActive e) (isSoftDropping e) (pauseTime e) (isRunning e)
    (lastClearedRows e).
Definition setScoreManager (e : GameEngine) v :=
  mkGameEngine (config e) (boardManager e) (tetrominoManager e) v (status e)
    (fallSpeed e) (lastFallTime e) (lastUpdateTime e) (lockTimer e)
    (isLockDelayActive e) (isSoftDropping e) (pauseTime e) (isRunning e)
    (lastClearedRows e).
Definition setStatus (e : GameEngine) v :=
  mkGameEngine (config e) (boardManager e) (tetrominoManager e)
    (scoreManager e) v (fallSpeed e) (lastFallTime e) (lastUpdateTime e)
    (lockTimer e) (isLockDelayActive e) (isSoftDropping e) (pauseTime e)
    (isRunning e) (lastClearedRows e).
Definition setFallSpeed (e : GameEngine) v :=
  mkGameEngine (config e) (boardManager e) (tetrominoManager e)
    (scoreManager e) (status e) v (lastFallTime e) (lastUpdateTime e)
    (lockTimer e) (isLockDelayActive e) (isSoftDropping e) (pauseTime e)
    (isRunning e) (lastClearedRows e).
Definition setLastFallTime (e : GameEngine) v :=
  mkGameEngine (config e) (boardManager e) (tetrominoManager e)
    (scoreManager e) (status e) (fallSpeed e) v (lastUpdateTime e)
    (lockTimer e) (isLockDelayActive e) (isSoftDropping e) (pauseTime e)
    (isRunning e) (lastClearedRows e).
Definition setLastUpdateTime (e : GameEngine) v :=
  mkGameEngine (config e) (boardManager e) (tetrominoManager e)
    (scoreManager e) (status e) (fallSpeed e) (lastFallTime e) v
    (lockTimer e) (isLockDelayActive e) (isSoftDropping e) (pauseTime e)
    (isRunning e) (lastClearedRows e).
Definition setLockDelay (e : GameEngine) (active : bool) (timer : Q) :=
  mkGameEngine (config e) (boardManager e) (tetrominoManager e)
    (scoreManager e) (status e) (fallSpeed e) (lastFallTime e)
    (lastUpdateTime e) timer active (isSoftDropping e) (pauseTime e)
    (isRunning e) (lastClearedRows e).
Definition setIsSoftDropping (e : GameEngine) v :=
  mkGameEngine (config e) (boardManager e) (tetrominoManager e)
    (scoreManager e) (status e) (fallSpeed e) (lastFallTime e)
    (lastUpdateTime e) (lockTimer e) (isLockDelayActive e) v (pauseTime e)
    (isRunning e) (lastClearedRows e).
Definition setPauseTime (e : GameEngine) v :=
  mkGameEngine (config e) (boardManager e) (tetrominoManager e)
    (scoreManager e) (status e) (fallSpeed e) (lastFallTime e)
    (lastUpdateTime e) (lockTimer e) (isLockDelayActive e)
    (isSoftDropping e) v (isRunning e) (lastClearedRows e).
Definition setIsRunning (e : GameEngine) v :=
  mkGameEngine (config e) (boardManager e) (tetrominoManager e)
    (scoreManager e) (status e) (fallSpeed e) (lastFallTime e)
    (lastUpdateTime e) (lockTimer e) (isLockDelayActive e)
    (isSoftDropping e) (pauseTime e) v (lastClearedRows e).
Definition setLastClearedRows (e : GameEngine) v :=
  mkGameEngine (config e) (boardManager e) (tetrominoManager e)
    (scoreManager e) (status e) (fallSpeed e) (lastFallTime e)
    (lastUpdateTime e) (lockTimer e) (isLockDelayActive e)
    (isSoftDropping e) (pauseTime e) (isRunning e) v.
Definition setEngine (w : World) (e : GameEngine) : World :=
  mkWorld e (sequencer w) (nowCalls w).

(** [stop()] *)
Definition stop (e : GameEngine) : GameEngine :=
  setStatus (setIsRunning e false) Stopped.

(** [reset()] *)
Definition reset (e : GameEngine) : GameEngine :=
  mkGameEngine (config e)
    (BoardManager.clearBoard (boardManager e))
    (TetrominoManager.reset (tetrominoManager e))
    (ScoreManager.reset (scoreManager e))
    Stopped (initialFallSpeed (config e))
    0 0 0 false false 0 (isRunning e) (lastClearedRows e).

(** [gameOver()] *)
Definition gameOver (e : GameEngine) : GameEngine :=
  if decide (status e = GameOver) then e
  else
    let e := setStatus e GameOver in
    let e := setIsRunning e false in
    let e := setLockDelay e false 0 in
    setIsSoftDropping e false.

(** [checkGameOverConditions()] *)
Definition checkGameOverConditions (e : GameEngine) : bool :=
  if BoardManager.isGameOver (boardManager e) then true
  else
    match TetrominoManager.currentPiece (tetrominoManager e) with
    | Some currentPiece =>
      negb (BoardManager.isValidPosition (boardManager e) currentPiece)
    | None => false
    end.

Definition startSoftDrop (e : GameEngine) := setIsSoftDropping e true.
Definition stopSoftDrop (e : GameEngine) := setIsSoftDropping e false.

(** [updateFallSpeed()] *)
Definition updateFallSpeed (e : GameEngine) : GameEngine :=
  setFallSpeed e
    (inject_Z (ScoreManager.calculateFallSpeed (scoreManager e)
                 (initialFallSpeed (config e)))).

(** [handleLinesCleared(linesCleared, clearedRows)] *)
Definition handleLinesCleared (e : GameEngine) (linesCleared : nat)
  (clearedRows : list nat) : GameEngine :=
  let '(pointsAwarded, sm) :=
    ScoreManager.addScore (VNum (inject_Z (Z.of_nat linesCleared)))
      (scoreManager e) in
  let e := setScoreManager e sm in
  let e := updateFallSpeed e in
  setLastClearedRows e (Some clearedRows).

(** [tryMovePieceDown()] *)
Definition tryMovePieceDown (e : GameEngine) : GameEngine :=
  if negb (TetrominoManager.hasActivePiece (tetrominoManager e)) then e
  else
    let '(moved, tm) :=
      TetrominoManager.moveDown (boardManager e) (tetrominoManager e) in
    if moved then setLockDelay (setTetrominoManager e tm) false 0
    else if negb (isLockDelayActive e) then setLockDelay e true 0
    else e.

(** [lockCurrentPiece()].  The result of [lockPiece] is not looked at. *)
Definition lockCurrentPiece (e : GameEngine) : GameEngine :=
  if negb (TetrominoManager.hasActivePiece (tetrominoManager e)) then e
  else
    let '(_, bm, tm) :=
      TetrominoManager.lockPiece (boardManager e) (tetrominoManager e) in
    let e := setTetrominoManager (setBoardManager e bm) tm in
    let e := setScoreManager e (ScoreManager.addPiecePlacement (scoreManager e)) in
    let '(lineClearResult, bm) := BoardManager.clearLines (boardManager e) in
    let e := setBoardManager e bm in
    let e :=
      if (0 <? BoardManager.count lineClearResult)%nat
      then handleLinesCleared e (BoardManager.count lineClearResult)
             (BoardManager.rows lineClearResult)
      else e in
    let e := setLockDelay e false 0 in
    if checkGameOverConditions e then gameOver e else e.

(** [updateLockDelay(deltaTime)]; the sum [lockTimer + deltaTime] is the
    exact one, which is what the code computes when the sum is a double (as
    it is for a timer that starts from 0). *)
Definition updateLockDelay (deltaTime : Q) (e : GameEngine) : GameEngine :=
  if isLockDelayActive e && bool_decide (status e = Playing) then
    let e := setLockDelay e true (lockTimer e + deltaTime)%Q in
    if Qle_bool (lockDelay (config e)) (lockTimer e) then lockCurrentPiece e
    else e
  else e.

Section Host.

(** [random k] and [now k]: what the k-th call of [Math.random()] and of
    [performance.now()] return. *)
Variable random : nat -> Q.
Variable now : nat -> Q.

(** One call of [performance.now()]. *)
Definition performanceNow (w : World) : Q * World :=
  (now (nowCalls w), mkWorld (engine w) (sequencer w) (S (nowCalls w))).

(** [updateFalling(deltaTime)]: the clock is read once for the test and
    once more for the new reference.  The difference tested here is the
    exact one; the code's is rounded to a double, and the two are the same
    number whenever the exact difference is a double. *)
Definition updateFalling (deltaTime : Q) (w : World) : World :=
  let e := engine w in
  let currentFallSpeed :=
    if isSoftDropping e then softDropSpeed (config e) else fallSpeed e in
  let '(t, w) := performanceNow w in
  let timeSinceLastFall := (t - lastFallTime e)%Q in
  if Qle_bool currentFallSpeed timeSinceLastFall then
    let w := setEngine w (tryMovePieceDown e) in
    let '(t', w) := performanceNow w in
    setEngine w (setLastFallTime (engine w) t')
  else w.

(** The first part of [update]: spawn a piece when there is none.  The
    boolean tells whether [update] goes on to the falling and lock-delay
    steps ([false] after either [return]); [None] is a thrown error. *)
Definition spawnIfNeeded (w : World) : option (bool * World) :=
  let e := engine w in
  if negb (TetrominoManager.hasActivePiece (tetrominoManager e)) then
    r ← TetrominoManager.spawnPiece random (boardManager e)
           (tetrominoManager e) (sequencer w);
    let '(spawnResult, tm, sq) := r in
    let e := setTetrominoManager e tm in
    let w := mkWorld e sq (nowCalls w) in
    match spawnResult with
    | None => Some (false, setEngine w (gameOver e))
    | Some _ =>
      if checkGameOverConditions e then Some (false, setEngine w (gameOver e))
      else Some (true, setEngine w (setLockDelay e false 0))
    end
  else Some (true, w).

(** [update(deltaTime)] *)
Definition update (deltaTime : Q) (w : World) : option World :=
  if negb (bool_decide (status (engine w) = Playing)) then Some w
  else
    match spawnIfNeeded w with
    | None => None
    | Some (false, w) => Some w
    | Some (true, w) =>
      let w := updateFalling deltaTime w in
      Some (setEngine w (updateLockDelay deltaTime (engine w)))
    end.

(** [pause()] *)
Definition pause (w : World) : World :=
  if decide (status (engine w) = Playing) then
    let e := setStatus (engine w) Paused in
    let '(t, w) := performanceNow (setEngine w e) in
    setEngine w (setPauseTime (engine w) t)
  else w.

(** [resume()]: [pauseDuration = currentTime - this.pauseTime] and
    [this.lastFallTime += pauseDuration], each rounded to a double. *)
Definition resume (w : World) : World :=
  if decide (status (engine w) = Paused) then
    let e := setStatus (engine w) Playing in
    let '(currentTime, w) := performanceNow (setEngine w e) in
    let e := engine w in
    let pauseDuration := minus currentTime (pauseTime e) in
    let e := setLastUpdateTime e currentTime in
    setEngine w (setLastFallTime e (plus (lastFallTime e) pauseDuration))
  else w.

(** [togglePause()] *)
Definition togglePause (w : World) : World :=
  if decide (status (engine w) = Playing) then pause w
  else if decide (status (engine w) = Paused) then resume w
  else w.

(** One run of [gameLoop()], up to the request for the next frame;
    [currentTime - this.lastUpdateTime] is rounded to a double. *)
Definition gameLoop (w : World) : option World :=
  if negb (isRunning (engine w)) then Some w
  else
    let '(currentTime, w) := performanceNow w in
    let e := engine w in
    let deltaTime := minus currentTime (lastUpdateTime e) in
    let w := setEngine w (setLastUpdateTime e currentTime) in
    if decide (status (engine w) = Playing) then update deltaTime w
    else Some w.

(** [n] successive runs of [gameLoop()], as the host's animation frames
    trigger them. *)
Fixpoint frames (n : nat) (w : World) : option World :=
  match n with
  | O => Some w
  | S n' => match gameLoop w with
            | Some w' => frames n' w'
            | None => None
            end
  end.

(** [start()] *)
Definition start (w : World) : option World :=
  if isRunning (engine w) then Some w
  else
    let e := reset (engine w) in
    let e := setIsRunning (setStatus e Playing) true in
    r ← TetrominoManager.spawnPiece random (boardManager e)
           (tetrominoManager e) (sequencer w);
    let '(spawnResult, tm, sq) := r in
    let e := setTetrominoManager e tm in
    let w := mkWorld e sq (nowCalls w) in
    match spawnResult with
    | None => Some (setEngine w (gameOver e))
    | Some _ =>
      let '(t, w) := performanceNow w in
      let e := setLastUpdateTime (engine w) t in
      let e := setLastFallTime e (lastUpdateTime e) in
      gameLoop (setEngine w e)
    end.

(** [restart()] *)
Definition restart (w : World) : option World :=
  let e := stop (engine w) in
  let e := reset e in
  start (setEngine w e).

End Host.

(** [getGameState()]: the snapshot fields the collaborators read. *)
Record Snapshot := mkSnapshot {
  snapStatus : Status;
  snapScore : Z;
  snapLevel : Z;
  snapLinesCleared : Z;
  snapBoard : list BoardManager.Row;
  snapCurrentPiece : option TetrominoUtils.Tetromino;
  snapNextPiece : option TetrominoUtils.Tetromino
}.

Definition getGameState (e : GameEngine) : Snapshot :=
  mkSnapshot (status e)
    (ScoreManager.score (scoreManager e))
    (ScoreManager.level (scoreManager e))
    (ScoreManager.linesCleared (scoreManager e))
    (BoardManager.board (boardManager e))
    (TetrominoManager.currentPiece (tetrominoManager e))
    (TetrominoManager.nextPiece (tetrominoManager e)).

(** What the engine keeps true between calls: the board is a grid of its
    stated size with at least one column and no complete row left on it,
    the current piece (if any) is in a valid position, and the score
    keeper's counters agree with each other. *)
Definition invariant (e : GameEngine) : Prop :=
  BoardManager.wellFormed (boardManager e) /\
  (0 < BoardManager.width (boardManager e))%nat /\
  BoardManager.findCompleteRows (boardManager e) = [] /\
  TetrominoManager.currentPieceFits (boardManager e) (tetrominoManager e) /\
  ScoreManager.consistent (scoreManager e).

End GameEngine.

(** ** Scenarios used as concrete inputs *)

(** ** inputHandler.js *)

Module InputHandler.

(** One entry of [keyTimers]. *)
Record Timer := mkTimer {
  action : string;
  lastExecuted : Q;
  initialDelay : Q;
  repeatInterval : Q;
  hasRepeated : bool
}.

(** [this.config]: [initialDelay], [repeatInterval] and
    [softDropInterval], in milliseconds. *)
Record Config := mkConfig {
  configInitialDelay : Q;
  configRepeatInterval : Q;
  configSoftDropInterval : Q
}.

(** The handler's own state.  [keyTimers] is a [Map]: its entries are kept
    in insertion order, which is the order [update] walks them in. *)
Record InputHandler := mkInputHandler {
  keysPressed : gset string;
  keyTimers : list (string * Timer);
  config : Config;
  keyMappings : gmap string string;
  isActive : bool
}.

Definition defaultKeyMappings : gmap string string :=
  list_to_map
    [ ("ArrowLeft", "moveLeft"); ("ArrowRight", "moveRight");
      ("ArrowDown", "softDrop"); ("ArrowUp", "rotate"); (" ", "rotate");
      ("p", "pause"); ("P", "pause"); ("Escape", "pause");
      ("r", "restart"); ("R", "restart") ].

(** [this.continuousActions] *)
Definition continuousActions : list string :=
  ["moveLeft"; "moveRight"; "softDrop"].

(** [new InputHandler(gameEngine)] *)
Definition create : InputHandler :=
  mkInputHandler ∅ [] (mkConfig 200 50 30) defaultKeyMappings false.

(** [this.keyMappings[event.key]]: [None] when the test [!action] of the
    source holds (no own property of that name, or an empty string). *)
Definition mappedAction (h : InputHandler) (key : string) : option string :=
  match keyMappings h !! key with
  | Some a => if decide (a = "") then None else Some a
  | None => None
  end.

(** [keyTimers.set(key, timer)] and [keyTimers.delete(key)] *)
Definition setTimer (timers : list (string * Timer)) (key : string)
  (timer : Timer) : list (string * Timer) :=
  if bool_decide (key ∈ timers.*1)
  then (fun kt : string * Timer =>
          if decide (kt.1 = key) then (key, timer) else kt) <$> timers
  else timers ++ [(key, timer)].

Definition deleteTimer (timers : list (string * Timer)) (key : string)
  : list (string * Timer) :=
  filter (fun kt : string * Timer => kt.1 <> key) timers.

Definition setKeys (h : InputHandler) (keys : gset string)
  (timers : list (string * Timer)) : InputHandler :=
  mkInputHandler keys timers (config h) (keyMappings h) (isActive h).

(** [isKeyPressed(key)] and [reset()] *)
Definition isKeyPressed (h : InputHandler) (key : string) : bool :=
  bool_decide (key ∈ keysPressed h).

Definition reset (h : InputHandler) : InputHandler := setKeys h ∅ [].

Section Host.

Variable random : nat -> Q.
Variable now : nat -> Q.

(** [executeAction(action, event)]; [None] is an error thrown by
    [restart]. *)
Definition executeAction (action : string) (w : GameEngine.World)
  : option GameEngine.World :=
  let gameState := GameEngine.getGameState (GameEngine.engine w) in
  if decide (action = "pause") then Some (GameEngine.togglePause now w)
  else if decide (action = "restart") then GameEngine.restart random now w
  else if negb (bool_decide (GameEngine.snapStatus gameState
                             = GameEngine.Playing))
  then Some w
  else
    let e := GameEngine.engine w in
    let tetrominoManager := GameEngine.tetrominoManager e in
    if decide (action = "moveLeft") then
      Some (GameEngine.setEngine w
              (GameEngine.setTetrominoManager e
                 (TetrominoManager.moveLeft (GameEngine.boardManager e)
                    tetrominoManager).2))
    else if decide (action = "moveRight") then
      Some (GameEngine.setEngine w
              (GameEngine.setTetrominoManager e
                 (TetrominoManager.moveRight (GameEngine.boardManager e)
                    tetrominoManager).2))
    else if decide (action = "softDrop") then
      Some (GameEngine.setEngine w (GameEngine.startSoftDrop e))
    else if decide (action = "rotate") then
      Some (GameEngine.setEngine w
              (GameEngine.setTetrominoManager e
                 (TetrominoManager.rotatePiece (GameEngine.boardManager e)
                    tetrominoManager).2))
    else Some w.

(** [handleKeyDown(event)] for [event.key]. *)
Definition handleKeyDown (key : string) (h : InputHandler)
  (w : GameEngine.World) : option (InputHandler * GameEngine.World) :=
  match mappedAction h key with
  | None => Some (h, w)
  | Some action =>
    if negb (bool_decide (action ∈ continuousActions))
    then (fun w' => (h, w')) <$> executeAction action w
    else if negb (bool_decide (key ∈ keysPressed h)) then
      match executeAction action w with
      | None => None
      | Some w =>
        let '(t, w) := GameEngine.performanceNow now w in
        Some (setKeys h ({[ key ]} ∪ keysPressed h)
                (setTimer (keyTimers h) key
                   (mkTimer action t (configInitialDelay (config h))
                      (if decide (action = "softDrop")
                       then configSoftDropInterval (config h)
                       else configRepeatInterval (config h))
                      false)),
              w)
      end
    else Some (h, w)
  end.

(** [handleKeyUp(event)] for [event.key]. *)
Definition handleKeyUp (key : string) (h : InputHandler)
  (w : GameEngine.World) : InputHandler * GameEngine.World :=
  match mappedAction h key with
  | None => (h, w)
  | Some action =>
    if bool_decide (action ∈ continuousActions)
    then (setKeys h (keysPressed h ∖ {[ key ]}) (deleteTimer (keyTimers h) key),
          if decide (action = "softDrop")
          then GameEngine.setEngine w
                 (GameEngine.stopSoftDrop (GameEngine.engine w))
          else w)
    else (h, w)
  end.

(** The loop of [update()] over the entries of [keyTimers];
    [currentTime - timer.lastExecuted] is rounded to a double. *)
Fixpoint updateTimers (currentTime : Q) (timers : list (string * Timer))
  (w : GameEngine.World)
  : option (list (string * Timer) * GameEngine.World) :=
  match timers with
  | [] => Some ([], w)
  | (key, timer) :: rest =>
    let timeSinceLastExecution := Js.minus currentTime (lastExecuted timer) in
    let '(shouldExecute, timer) :=
      if negb (hasRepeated timer) then
        if Qle_bool (initialDelay timer) timeSinceLastExecution
        then (true, mkTimer (action timer) (lastExecuted timer)
                      (initialDelay timer) (repeatInterval timer) true)
        else (false, timer)
      else if Qle_bool (repeatInterval timer) timeSinceLastExecution
           then (true, timer)
           else (false, timer) in
    if (shouldExecute : bool) then
      match executeAction (action timer) w with
      | None => None
      | Some w =>
        match updateTimers currentTime rest w with
        | None => None
        | Some (rest, w) =>
          Some ((key, mkTimer (action timer) currentTime (initialDelay timer)
                        (repeatInterval timer) (hasRepeated timer)) :: rest,
                w)
        end
      end
    else
      match updateTimers currentTime rest w with
      | None => None
      | Some (rest, w) => Some ((key, timer) :: rest, w)
      end
  end.

(** [update()], up to the request for the next frame. *)
Definition update (h : InputHandler) (w : GameEngine.World)
  : option (InputHandler * GameEngine.World) :=
  if negb (isActive h) then Some (h, w)
  else
    let '(currentTime, w) := GameEngine.performanceNow now w in
    match updateTimers currentTime (keyTimers h) w with
    | None => None
    | Some (timers, w) => Some (setKeys h (keysPressed h) timers, w)
    end.

End Host.

End InputHandler.

Module Scenario.
Import GameEngine.

(** A 10x20 board with one block in column 3 of row 2, right under the row
    where an I piece spawns. *)
Definition stackBelowSpawn : BoardManager.BoardManager :=
  BoardManager.mkBoardManager 10 20
    (BoardManager.setCell (BoardManager.initializeBoard 10 20) 3 2
       (BoardManager.mkCell Tetrominoes.TJ "#1E90FF")).

(** A playing engine on that board that has just locked a piece: no
    current piece, an I piece waiting as next, the last fall at clock 0. *)
Definition awaitingSpawn : World :=
  mkWorld
    (mkGameEngine (mkConfig 10 20 1000 50 500)
       stackBelowSpawn
       (TetrominoManager.mkTetrominoManager None
          (Some (TetrominoUtils.mkTetromino Tetrominoes.TI 0 0 0
                   (Tetrominoes.TETROMINO_COLORS Tetrominoes.TI)
                   (TetrominoUtils.shapeAt Tetrominoes.TI 0)))
          3 0)
       (ScoreManager.create (ScoreManager.mkConfig 10 1))
       Playing 1000 0 400 0 false false 0 true None)
    (TetrominoUtils.mkSequencer [] 0)
    0.

(** A 10x20 board in play: row 18 complete, row 19 with a hole in column
    0, everything above empty. *)
Definition holeBelowFullRow : BoardManager.BoardManager :=
  BoardManager.mkBoardManager 10 20
    (replicate 18 (BoardManager.emptyRow 10)
     ++ [ replicate 10 (Some (BoardManager.mkCell Tetrominoes.TI "#00F5FF"));
          None :: replicate 9 (Some (BoardManager.mkCell Tetrominoes.TL "#FF8C00")) ]).

(** [Math.random] stuck at 0 and a clock that reads 1000 ms. *)
Definition randomZero : nat -> Q := fun _ => 0%Q.
Definition clockAt1000 : nat -> Q := fun _ => 1000%Q.

(** A T piece at the spawn anchor of a 10x20 board. *)
Definition pieceAtSpawn : TetrominoUtils.Tetromino :=
  TetrominoUtils.mkTetromino Tetrominoes.TT 3 0 0
    (Tetrominoes.TETROMINO_COLORS Tetrominoes.TT)
    (TetrominoUtils.shapeAt Tetrominoes.TT 0).

(** A playing engine on an empty board with that piece falling freely and
    an I piece waiting as next, the last fall at clock 0. *)
Definition freeFall : World :=
  mkWorld
    (mkGameEngine (mkConfig 10 20 1000 50 500)
       (BoardManager.create 10 20)
       (TetrominoManager.mkTetrominoManager (Some pieceAtSpawn)
          (Some (TetrominoUtils.mkTetromino Tetrominoes.TI 0 0 0
                   (Tetrominoes.TETROMINO_COLORS Tetrominoes.TI)
                   (TetrominoUtils.shapeAt Tetrominoes.TI 0)))
          3 0)
       (ScoreManager.create (ScoreManager.mkConfig 10 1))
       Playing 1000 0 984 0 false false 0 true None)
    (TetrominoUtils.mkSequencer [] 0)
    0.

(** The same engine with its last fall at 1000.1 ms, and a clock that reads
    2000.2 ms at the first call and 5000.3 ms afterwards (the doubles
    nearest to these decimals). *)
Definition fallAt1000_1 : World :=
  mkWorld (setLastFallTime (engine freeFall) (Js.fl (10001 # 10)))
    (sequencer freeFall) 0.

Definition clockAcrossPause : nat -> Q :=
  fun k => match k with
           | O => Js.fl (20002 # 10)
           | S _ => Js.fl (50003 # 10)
           end.

(** An active input handler with the left arrow held since 0.1 ms and not
    yet repeated, and a clock that reads 200.1 ms. *)
Definition heldLeft : InputHandler.InputHandler :=
  InputHandler.mkInputHandler {[ "ArrowLeft" ]}
    [("ArrowLeft", InputHandler.mkTimer "moveLeft" (Js.fl (1 # 10)) 200 50 false)]
    (InputHandler.mkConfig 200 50 30) InputHandler.defaultKeyMappings true.

Definition clockAt200_1 : nat -> Q := fun _ => Js.fl (2001 # 10).

(** A playing engine whose bottom row lacks only the cell of column 0,
    with a vertical I piece resting in that column. *)
Definition lastGap : GameEngine :=
  mkGameEngine (mkConfig 10 20 1000 50 500)
    (BoardManager.mkBoardManager 10 20
       (replicate 19 (BoardManager.emptyRow 10)
        ++ [ None :: replicate 9
                       (Some (BoardManager.mkCell Tetrominoes.TL "#FF8C00")) ]))
    (TetrominoManager.mkTetrominoManager
       (Some (TetrominoUtils.mkTetromino Tetrominoes.TI (-2) 16 1
                (Tetrominoes.TETROMINO_COLORS Tetrominoes.TI)
                (TetrominoUtils.shapeAt Tetrominoes.TI 1)))
       (Some (TetrominoUtils.mkTetromino Tetrominoes.TO 0 0 0
                (Tetrominoes.TETROMINO_COLORS Tetrominoes.TO)
                (TetrominoUtils.shapeAt Tetrominoes.TO 0)))
       3 0)
    (ScoreManager.create (ScoreManager.mkConfig 10 1))
    Playing 1000 0 0 500 true false 0 true None.

End Scenario.

(** * Properties *)

(** ** Double-precision arithmetic *)

Section DoubleArithmetic.
Import Js.

Lemma Qfloor_eq (q : Q) (n : Z) :
  (inject_Z n <= q)%Q -> (q < inject_Z n + 1)%Q -> Qfloor q = n.
Proof.
  intros Hle Hlt.
  pose proof (Qfloor_le q) as H1. pose proof (Qlt_floor q) as H2.
  rewrite inject_Z_plus in H2. change (inject_Z 1) with 1%Q in H2.
  assert (Ha : (inject_Z n < inject_Z (Qfloor q) + 1)%Q) by lra.
  assert (Hb : (inject_Z (Qfloor q) < inject_Z n + 1)%Q) by lra.
  change 1%Q with (inject_Z 1) in Ha, Hb.
  rewrite <- inject_Z_plus, <- Zlt_Qlt in Ha, Hb. lia.
Qed.

(** Rounding to the nearest integer moves a number by at most a half. *)
Lemma roundEven_near (q : Q) :
  (q - (1 # 2) <= inject_Z (roundEven q)
   /\ inject_Z (roundEven q) <= q + (1 # 2))%Q.
Proof.
  unfold roundEven.
  pose proof (Qfloor_le q) as H1. pose proof (Qlt_floor q) as H2.
  rewrite inject_Z_plus in H2. change (inject_Z 1) with 1%Q in H2.
  destruct (q - inject_Z (Qfloor q) ?= 1 # 2)%Q eqn:E.
  - apply Qeq_alt in E.
    destruct (Z.even (Qfloor q)); rewrite ?inject_Z_plus;
      change (inject_Z 1) with 1%Q; split; lra.
  - apply Qlt_alt in E. split; lra.
  - apply Qgt_alt in E. rewrite inject_Z_plus. change (inject_Z 1) with 1%Q.
    split; lra.
Qed.

Lemma Qabs_of_nonneg (q : Q) : (0 <= q)%Q -> Qabs q = q.
Proof.
  destruct q as [n d]. unfold Qle. cbn. intros H.
  rewrite Z.abs_eq by lia. reflexivity.
Qed.

(** The exponent of a number from 1 up. *)
Lemma binade_spec (q : Q) (e : Z) :
  0 <= e -> (inject_Z (2 ^ e) <= q)%Q -> (q < inject_Z (2 ^ (e + 1)))%Q ->
  binade q = e.
Proof.
  intros He Hlo Hhi. unfold binade.
  assert (H1 : 1 <= 2 ^ e) by (apply (Z.pow_le_mono_r 2 0 e); lia).
  assert (Hq : (1 <= q)%Q).
  { apply (Qle_trans _ (inject_Z (2 ^ e))); [|done].
    change 1%Q with (inject_Z 1). by rewrite <- Zle_Qle. }
  rewrite (Qabs_of_nonneg q) by lra.
  apply Qle_bool_iff in Hq. rewrite Hq.
  apply Z.log2_unique; [done|]. split.
  - rewrite <- (Qfloor_Z (2 ^ e)). by apply Qfloor_resp_le.
  - rewrite Zlt_Qlt. apply (Qle_lt_trans _ q); [apply Qfloor_le|done].
Qed.

(** Rounding a number between 2^e and 2^(e+1) to a double moves it by at
    most half a unit in the last place, 2^(e-53). *)
Lemma fl_near (q : Q) (e : Z) :
  0 <= e -> (inject_Z (2 ^ e) <= q)%Q -> (q < inject_Z (2 ^ (e + 1)))%Q ->
  (q - Qpower 2 (e - 53) <= fl q /\ fl q <= q + Qpower 2 (e - 53))%Q.
Proof.
  intros He Hlo Hhi. unfold fl.
  assert (H1 : 1 <= 2 ^ e) by (apply (Z.pow_le_mono_r 2 0 e); lia).
  assert (Hq : (1 <= q)%Q).
  { apply (Qle_trans _ (inject_Z (2 ^ e))); [|done].
    change 1%Q with (inject_Z 1). by rewrite <- Zle_Qle. }
  destruct (Qeq_bool q 0) eqn:E0; [apply Qeq_bool_iff in E0; lra|].
  rewrite (binade_spec q e He Hlo Hhi), Z.max_l by lia.
  cbv zeta. rewrite Qred_correct.
  set (half := Qpower 2 (e - 53)).
  set (ulp := Qpower 2 (e - 52)).
  assert (Hulp : (ulp == 2 * half)%Q).
  { unfold ulp, half. replace (e - 52) with (1 + (e - 53)) by lia.
    rewrite Qpower_plus by discriminate. reflexivity. }
  assert (Hhalf : (0 < half)%Q) by (apply Qpower_0_lt; reflexivity).
  pose proof (roundEven_near (q / ulp)) as [Ha Hb].
  assert (Hy : (q / ulp * ulp == q)%Q)
    by (rewrite Qmult_comm; apply Qmult_div_r; lra).
  set (y := (q / ulp)%Q) in *.
  set (m := inject_Z (roundEven y)) in *.
  assert (Hc : (0 <= (m - (y - (1 # 2))) * ulp)%Q)
    by (apply Qmult_le_0_compat; lra).
  assert (Hd : (0 <= (y + (1 # 2) - m) * ulp)%Q)
    by (apply Qmult_le_0_compat; lra).
  split; lra.
Qed.

(** Rounding depends on the value of a rational, not on the fraction that
    denotes it. *)
Lemma binade_comp (q q' : Q) : (q == q')%Q -> binade q = binade q'.
Proof.
  intros H. unfold binade.
  assert (Ha : (Qabs q == Qabs q')%Q) by (by rewrite H).
  assert (E1 : Qle_bool 1 (Qabs q) = Qle_bool 1 (Qabs q')) by (by rewrite Ha).
  assert (E2 : Qfloor (Qabs q) = Qfloor (Qabs q')) by (by rewrite Ha).
  assert (E3 : Qceiling (/ Qabs q) = Qceiling (/ Qabs q')) by (by rewrite Ha).
  by rewrite E1, E2, E3.
Qed.

Lemma roundEven_comp (q q' : Q) : (q == q')%Q -> roundEven q = roundEven q'.
Proof.
  intros H. unfold roundEven.
  assert (E1 : Qfloor q = Qfloor q') by (by rewrite H).
  assert (E2 : (q - inject_Z (Qfloor q) ?= 1 # 2)%Q
               = (q' - inject_Z (Qfloor q') ?= 1 # 2)%Q)
    by (rewrite E1; by rewrite H).
  by rewrite E2, E1.
Qed.

Lemma fl_comp (q q' : Q) : (q == q')%Q -> fl q = fl q'.
Proof.
  intros H. unfold fl.
  assert (E0 : Qeq_bool q 0 = Qeq_bool q' 0) by (by rewrite H).
  rewrite E0, (binade_comp q q' H).
  destruct (Qeq_bool q' 0); [done|]. cbv zeta.
  apply Qred_complete.
  set (ulp := Qpower 2 (Z.max (binade q') (-1022) - 52)).
  rewrite (roundEven_comp (q / ulp) (q' / ulp)); [reflexivity|by rewrite H].
Qed.

(** Rounding keeps the sign, and moves a number that is at most N up by at
    most half a unit in the last place of N. *)
Lemma fl_nonneg (q : Q) : (0 <= q)%Q -> (0 <= fl q)%Q.
Proof.
  intros Hq. unfold fl. destruct (Qeq_bool q 0); [lra|].
  cbv zeta. rewrite Qred_correct.
  set (ulp := Qpower 2 (Z.max (binade q) (-1022) - 52)).
  assert (Hulp : (0 < ulp)%Q) by (apply Qpower_0_lt; reflexivity).
  pose proof (roundEven_near (q / ulp)) as [Ha _].
  assert (Hy : (0 <= q / ulp)%Q) by (apply Qle_shift_div_l; lra).
  apply Qmult_le_0_compat; [|lra].
  change 0%Q with (inject_Z 0). rewrite <- Zle_Qle.
  assert (Hm : (inject_Z (-1) < inject_Z (roundEven (q / ulp)))%Q).
  { change (inject_Z (-1)) with (-1)%Q. lra. }
  rewrite <- Zlt_Qlt in Hm. lia.
Qed.

Lemma binade_le (q : Q) (N : Z) :
  (0 <= q)%Q -> (q <= inject_Z N)%Q -> 1 <= N -> binade q <= Z.log2 N.
Proof.
  intros Hq HN H1. unfold binade. rewrite (Qabs_of_nonneg q Hq).
  destruct (Qle_bool 1 q).
  - apply Z.log2_le_mono. rewrite <- (Qfloor_Z N). by apply Qfloor_resp_le.
  - pose proof (Z.log2_up_nonneg (Qceiling (/ q))).
    pose proof (Z.log2_nonneg N). lia.
Qed.

Lemma fl_above (q : Q) (N : Z) :
  (0 <= q)%Q -> (q <= inject_Z N)%Q -> 1 <= N ->
  (fl q <= q + Qpower 2 (Z.log2 N - 53))%Q.
Proof.
  intros Hq HN H1. pose proof (binade_le q N Hq HN H1) as He.
  pose proof (Z.log2_nonneg N) as Hlog.
  assert (Hpos : (0 < Qpower 2 (Z.log2 N - 53))%Q)
    by (apply Qpower_0_lt; reflexivity).
  unfold fl. destruct (Qeq_bool q 0); [lra|].
  cbv zeta. rewrite Qred_correct.
  set (E := Z.max (binade q) (-1022)).
  set (half := Qpower 2 (E - 53)).
  set (ulp := Qpower 2 (E - 52)).
  assert (Hulp : (ulp == 2 * half)%Q).
  { unfold ulp, half. replace (E - 52) with (1 + (E - 53)) by lia.
    rewrite Qpower_plus by discriminate. reflexivity. }
  assert (Hhalf : (0 < half)%Q) by (apply Qpower_0_lt; reflexivity).
  assert (Hmono : (half <= Qpower 2 (Z.log2 N - 53))%Q)
    by (apply Qpower_le_compat_l; [unfold E; lia | discriminate]).
  pose proof (roundEven_near (q / ulp)) as [_ Hb].
  assert (Hy : (q / ulp * ulp == q)%Q)
    by (rewrite Qmult_comm; apply Qmult_div_r; lra).
  set (y := (q / ulp)%Q) in *.
  set (m := inject_Z (roundEven y)) in *.
  assert (Hd : (0 <= (y + (1 # 2) - m) * ulp)%Q)
    by (apply Qmult_le_0_compat; lra).
  lra.
Qed.

(** An operation whose exact result is a double returns it. *)
Lemma minus_exact (a b : Q) : isDouble (a - b) = true -> (minus a b == a - b)%Q.
Proof. intros H. by apply Qeq_bool_iff in H. Qed.

Lemma plus_exact (a b : Q) : isDouble (a + b) = true -> (plus a b == a + b)%Q.
Proof. intros H. by apply Qeq_bool_iff in H. Qed.

(** Some doubles: 0.1 and 0.8 are not rationals with a power of two as
    denominator and are rounded; integers of moderate size and their halves
    are doubles; 0.1 + 0.2 is not 0.3. *)
Example fl_replay :
  fl (1 # 10) = (3602879701896397 # 36028797018963968)%Q /\
  fl (8 # 10) = (3602879701896397 # 4503599627370496)%Q /\
  fl 1000 = 1000%Q /\ fl (-3 # 2) = (-3 # 2)%Q /\
  fl (2 ^ 53 + 1) = (2 ^ 53)%Q /\
  Qeq_bool (plus (fl (1 # 10)) (fl (2 # 10))) (fl (3 # 10)) = false /\
  (plus (fl (1 # 10)) (fl (2 # 10)) == fl (3 # 10) + (1 # 2 ^ 54))%Q.
Proof. vm_compute. repeat split. Qed.

End DoubleArithmetic.

(** ** Expectations of the repository's tests, replayed on the model *)

Section Replay.
Import Tetrominoes.

(** tetrominoManager.test.js: the spawn position of a 10-wide board. *)
Example replay_spawn_anchor :
  TetrominoManager.spawnX (TetrominoManager.create (BoardManager.create 10 20))
  = 3 /\
  TetrominoManager.spawnY (TetrominoManager.create (BoardManager.create 10 20))
  = 0.
Proof. split; reflexivity. Qed.

(** tetrominoManager.test.js: the wall kick tables. *)
Example replay_wall_kick_offsets :
  TetrominoManager.getWallKickOffsets TI 0 1
  = [(-2, 0); (1, 0); (-2, 1); (1, -2)] /\
  TetrominoManager.getWallKickOffsets TT 0 1
  = [(-1, 0); (-1, -1); (0, 2); (-1, 2)] /\
  TetrominoManager.getWallKickOffsets TT 0 5 = [].
Proof. repeat split; reflexivity. Qed.

(** Every shape of the catalog has four filled cells. *)
Example replay_four_blocks (t : TetrominoType) (r : nat) :
  (r <= MAX_ROTATION_STATE)%nat ->
  length (TetrominoUtils.getTetrominoBlocks
            (TetrominoUtils.mkTetromino t 0 0 r (TETROMINO_COLORS t)
               (TetrominoUtils.shapeAt t r))) = 4%nat.
Proof.
  unfold MAX_ROTATION_STATE. intros Hr.
  destruct r as [|[|[|[|r]]]]; [..|lia]; by destruct t.
Qed.

(** The horizontal I piece anchored at (3, 0) covers (3..6, 1). *)
Example replay_I_blocks :
  TetrominoUtils.getTetrominoBlocks
    (TetrominoUtils.mkTetromino TI 3 0 0 (TETROMINO_COLORS TI)
       (TetrominoUtils.shapeAt TI 0))
  = [(3, 1); (4, 1); (5, 1); (6, 1)].
Proof. reflexivity. Qed.

(** boardManager.test.js: a full bottom row of a 10x20 board is cleared,
    reported as row 19, and the board is empty afterwards. *)
Example replay_clear_bottom_row :
  BoardManager.clearLines
    (BoardManager.mkBoardManager 10 20
       (replicate 19 (BoardManager.emptyRow 10)
        ++ [replicate 10 (Some (BoardManager.mkCell TO "#FFD700"))]))
  = (BoardManager.mkLineClear 1 [19%nat], BoardManager.create 10 20).
Proof. reflexivity. Qed.

(** scoreManager.test.js: fall speeds at levels 1, 2, 3 and 20, and with a
    base of 500 at level 2. *)
Example replay_fall_speeds :
  let atLevel l :=
    ScoreManager.mkScoreManager (ScoreManager.mkConfig 10 1) 0 l 0 0
      (ScoreManager.mkLinesClearedByType 0 0 0 0) in
  ScoreManager.calculateFallSpeed (atLevel 1) 1000 = 1000 /\
  ScoreManager.calculateFallSpeed (atLevel 2) 1000 = 800 /\
  ScoreManager.calculateFallSpeed (atLevel 3) 1000 = 640 /\
  ScoreManager.calculateFallSpeed (atLevel 20) 1000 = 50 /\
  ScoreManager.calculateFallSpeed (atLevel 2) 500 = 400.
Proof. repeat split; reflexivity. Qed.

(** scoreManager.test.js: a tetris at level 1 is worth 800 points, and ten
    single lines reach level 2. *)
Example replay_scoring :
  (ScoreManager.addScore (Js.VNum 4)
     (ScoreManager.create (ScoreManager.mkConfig 10 1))).1 = 800 /\
  ScoreManager.level
    (Nat.iter 10 (fun sm => (ScoreManager.addScore (Js.VNum 1) sm).2)
       (ScoreManager.create (ScoreManager.mkConfig 10 1))) = 2.
Proof. split; reflexivity. Qed.

End Replay.

(** ** Board: positions outside the grid *)

Section BoardBounds.
Import BoardManager.

Lemma isWithinBounds_spec (bm : BoardManager) (x y : Z) :
  isWithinBounds bm x y = true <->
  0 <= x < Z.of_nat (width bm) /\ 0 <= y < Z.of_nat (height bm).
Proof. unfold isWithinBounds. rewrite !andb_true_iff. lia. Qed.

Lemma isValidPosition_blocks (bm : BoardManager) (t : TetrominoUtils.Tetromino) :
  isValidPosition bm t = true <->
  forall b, b ∈ TetrominoUtils.getTetrominoBlocks t ->
            isWithinBounds bm b.1 b.2 = true /\ isOccupied bm b.1 b.2 = false.
Proof.
  unfold isValidPosition. rewrite forallb_forall. split.
  - intros H b Hb. apply list_elem_of_In, H in Hb.
    destruct (isWithinBounds bm b.1 b.2); [|done].
    destruct (isOccupied bm b.1 b.2); done.
  - intros H b Hb. apply list_elem_of_In, H in Hb as [-> ->]. done.
Qed.

(** C10.  A coordinate outside [0,width) x [0,height) is occupied and not
    empty on every board, and a piece with a block there is not in a valid
    position. *)
Theorem out_of_bounds_is_occupied (bm : BoardManager) (x y : Z) :
  ~ (0 <= x < Z.of_nat (width bm) /\ 0 <= y < Z.of_nat (height bm)) ->
  isOccupied bm x y = true /\
  isEmpty bm x y = false /\
  forall t, (x, y) ∈ TetrominoUtils.getTetrominoBlocks t ->
            isValidPosition bm t = false.
Proof.
  intros Hout.
  assert (Hb : isWithinBounds bm x y = false).
  { destruct (isWithinBounds bm x y) eqn:E; [|done].
    apply isWithinBounds_spec in E. contradiction. }
  unfold isOccupied, isEmpty. rewrite Hb. simpl. repeat split.
  intros t Hin. destruct (isValidPosition bm t) eqn:E; [|done].
  destruct (proj1 (isValidPosition_blocks bm t) E _ Hin) as [Hw _].
  simpl in Hw. congruence.
Qed.

End BoardBounds.

Lemma out_of_bounds_is_occupied_witness :
  BoardManager.isOccupied (BoardManager.create 10 20) (-1) 1 = true /\
  BoardManager.isEmpty (BoardManager.create 10 20) (-1) 1 = false /\
  BoardManager.isValidPosition (BoardManager.create 10 20)
    (TetrominoUtils.mkTetromino Tetrominoes.TI (-1) 0 0
       (Tetrominoes.TETROMINO_COLORS Tetrominoes.TI)
       (TetrominoUtils.shapeAt Tetrominoes.TI 0)) = false.
Proof.
  destruct (out_of_bounds_is_occupied (BoardManager.create 10 20) (-1) 1)
    as (H1 & H2 & H3).
  - simpl. lia.
  - split; [exact H1 | split; [exact H2 |]]. apply H3.
    vm_compute. apply list_elem_of_here.
Defined.

(** ** Score tracker *)

Section Scoring.
Import Js ScoreManager.

Lemma isInteger_spec (q : Q) :
  isInteger q = true <-> exists n : Z, q == inject_Z n.
Proof.
  unfold isInteger. rewrite Qeq_bool_iff. split.
  - intros H. by exists (Qfloor q).
  - intros [n Hn]. rewrite Hn at 2. by rewrite Qfloor_Z.
Qed.

Lemma Qfloor_of_integer (q : Q) (n : Z) : q == inject_Z n -> Qfloor q = n.
Proof. intros ->. apply Qfloor_Z. Qed.

Lemma invalidLineCount_number (q : Q) :
  invalidLineCount (VNum q) = false <->
  exists n : Z, 1 <= n <= 4 /\ q == inject_Z n.
Proof.
  unfold invalidLineCount. simpl.
  rewrite !orb_false_iff, !negb_false_iff, !Qle_bool_iff, isInteger_spec.
  split.
  - intros ((H1 & H4) & [n Hn]). exists n. split; [|done].
    rewrite Hn in H1, H4.
    split; [rewrite (Zle_Qle 1 n) | rewrite (Zle_Qle n 4)]; assumption.
  - intros (n & Hr & Hn). rewrite Hn. split; [|by exists n].
    split; [change (inject_Z 1 <= inject_Z n)%Q
           | change (inject_Z n <= inject_Z 4)%Q]; rewrite <- Zle_Qle; lia.
Qed.

Lemma invalidLineCount_other (v : value) :
  (forall q, v <> VNum q) -> invalidLineCount v = true.
Proof.
  intros H. destruct v as [| |b|q| |[]|s]; try done. by destruct (H q).
Qed.

(** C9.  With the base scores 100, 300, 500 and 800, [addScore] of an
    integer n from 1 to 4 awards [base n * level], adds it to the score,
    adds n to the lines cleared and returns the points; any other argument
    (zero, negative, above 4, not an integer, NaN, infinite or not a number
    at all) leaves the state as it is and returns 0. *)
Theorem addScore_spec (sm : ScoreManager) :
  (getBaseScore 1 = 100 /\ getBaseScore 2 = 300 /\
   getBaseScore 3 = 500 /\ getBaseScore 4 = 800) /\
  (forall (q : Q) (n : Z), 1 <= n <= 4 -> q == inject_Z n ->
     (addScore (VNum q) sm).1 = getBaseScore n * level sm /\
     score (addScore (VNum q) sm).2 = score sm + getBaseScore n * level sm /\
     linesCleared (addScore (VNum q) sm).2 = linesCleared sm + n) /\
  (forall v : value,
     (forall (q : Q) (n : Z), v = VNum q -> q == inject_Z n -> ~ 1 <= n <= 4) ->
     addScore v sm = (0, sm)).
Proof.
  split; [done|]. split.
  - intros q n Hn Hq. unfold addScore.
    assert (Hok : invalidLineCount (VNum q) = false)
      by (apply invalidLineCount_number; eauto).
    rewrite Hok. simpl. by rewrite (Qfloor_of_integer q n Hq).
  - intros v Hv. unfold addScore.
    destruct (invalidLineCount v) eqn:E; [done|]. exfalso.
    destruct v as [| |b|q| |[]|s]; try done.
    apply invalidLineCount_number in E as (n & Hr & Hn).
    by apply (Hv q n).
Qed.

Lemma addScore_spec_witness :
  (addScore (VNum 4) (create (mkConfig 10 1))).1 = 800 /\
  score (addScore (VNum 4) (create (mkConfig 10 1))).2 = 800 /\
  linesCleared (addScore (VNum 4) (create (mkConfig 10 1))).2 = 4 /\
  addScore (VNum (5 # 2)) (create (mkConfig 10 1)) = (0, create (mkConfig 10 1)) /\
  addScore (VStr "2") (create (mkConfig 10 1)) = (0, create (mkConfig 10 1)).
Proof.
  destruct (addScore_spec (create (mkConfig 10 1))) as (_ & Hvalid & Hinvalid).
  destruct (Hvalid 4%Q 4 ltac:(lia) ltac:(reflexivity)) as (H1 & H2 & H3).
  split; [exact H1 | split; [exact H2 | split; [exact H3 | split]]].
  - apply Hinvalid. intros q n [= <-] Hq Hn.
    unfold Qeq in Hq. simpl in Hq. lia.
  - apply Hinvalid. intros q n Hq. discriminate Hq.
Defined.

(** C3, as the code has it.  For every level from 1 up and every base fall
    speed, [calculateFallSpeed] returns max(50, n), where n is the nearest
    integer (a half rounds up) to the product as the code computes it: the
    base speed times [Math.pow(0.8, level - 1)], rounded to a double.  So
    the result is at least 50; when the computed product is within [delta]
    of the exact [base * 0.8^(level-1)], n is within [delta + 1/2] of it;
    and when the computed product is the exact one, the result is what
    exact arithmetic gives. *)
Theorem calculateFallSpeed_rounded (pow : Q -> Z -> Q) (sm : ScoreManager)
    (baseFallSpeed : Q) :
  1 <= level sm ->
  exists n : Z,
    (inject_Z n - (1 # 2)
       <= times baseFallSpeed (pow (fl (8 # 10)) (level sm - 1)%Z)
     /\ times baseFallSpeed (pow (fl (8 # 10)) (level sm - 1)%Z)
       < inject_Z n + (1 # 2))%Q
    /\ calculateFallSpeedIn pow sm baseFallSpeed = Z.max 50 n
    /\ 50 <= calculateFallSpeedIn pow sm baseFallSpeed
    /\ (forall delta : Q,
          (baseFallSpeed * Qpower (8 # 10) (level sm - 1) - delta
             <= times baseFallSpeed (pow (fl (8 # 10)) (level sm - 1)%Z)
           /\ times baseFallSpeed (pow (fl (8 # 10)) (level sm - 1)%Z)
             <= baseFallSpeed * Qpower (8 # 10) (level sm - 1) + delta)%Q ->
          (baseFallSpeed * Qpower (8 # 10) (level sm - 1) - delta - (1 # 2)
             <= inject_Z n
           /\ inject_Z n
             <= baseFallSpeed * Qpower (8 # 10) (level sm - 1) + delta
                + (1 # 2))%Q)
    /\ ((times baseFallSpeed (pow (fl (8 # 10)) (level sm - 1)%Z)
         == baseFallSpeed * Qpower (8 # 10) (level sm - 1))%Q ->
        calculateFallSpeedIn pow sm baseFallSpeed
        = calculateFallSpeed sm baseFallSpeed).
Proof.
  intros _. unfold calculateFallSpeedIn, calculateFallSpeed, round.
  set (p := times baseFallSpeed (pow (fl (8 # 10)) (level sm - 1)%Z)).
  set (x := (baseFallSpeed * Qpower (8 # 10) (level sm - 1))%Q).
  exists (Qfloor (p + (1 # 2))).
  pose proof (Qfloor_le (p + (1 # 2))) as Hle.
  pose proof (Qlt_floor (p + (1 # 2))) as Hlt.
  rewrite inject_Z_plus in Hlt. change (inject_Z 1) with 1%Q in Hlt.
  split; [split; lra|]. split; [apply Z.max_comm|]. split; [lia|]. split.
  - intros delta [Hlo Hhi]. split; lra.
  - intros Hexact. by rewrite Hexact.
Qed.

Lemma calculateFallSpeed_rounded_witness :
  exists n : Z,
    (inject_Z n - (1 # 2) <= times 1000 (Js.pow (fl (8 # 10)) (5 - 1)%Z)
     /\ times 1000 (Js.pow (fl (8 # 10)) (5 - 1)%Z) < inject_Z n + (1 # 2))%Q
    /\ calculateFallSpeedIn Js.pow
         (mkScoreManager (mkConfig 10 1) 10000 5 40 100
            (mkLinesClearedByType 40 0 0 0)) 1000 = Z.max 50 n.
Proof.
  destruct (calculateFallSpeed_rounded Js.pow
              (mkScoreManager (mkConfig 10 1) 10000 5 40 100
                 (mkLinesClearedByType 40 0 0 0)) 1000)
    as (n & Hn & Hres & _); [simpl; lia|].
  exists n. split; [exact Hn | exact Hres].
Defined.

(** C3, as stated, fails: at level 5 with base 1000 the code returns 410,
    whatever double close to 0.4096 [Math.pow(0.8, 4)] returns, while
    max(50, 1000 * 0.8^4) is 409.6. *)
Lemma calculateFallSpeed_not_unrounded :
  (forall pow : Q -> Z -> Q,
     ((4095999 # 10000000) <= pow (fl (8 # 10)) 4%Z
      /\ pow (fl (8 # 10)) 4%Z <= (4096001 # 10000000))%Q ->
     calculateFallSpeedIn pow
       (mkScoreManager (mkConfig 10 1) 10000 5 40 100
          (mkLinesClearedByType 40 0 0 0)) 1000 = 410) /\
  calculateFallSpeedIn Js.pow
    (mkScoreManager (mkConfig 10 1) 10000 5 40 100
       (mkLinesClearedByType 40 0 0 0)) 1000 = 410 /\
  calculateFallSpeed
    (mkScoreManager (mkConfig 10 1) 10000 5 40 100
       (mkLinesClearedByType 40 0 0 0)) 1000 = 410 /\
  (Qmax 50 (1000 * Qpower (8 # 10) (5 - 1)) == (4096 # 10))%Q /\
  ~ (inject_Z 410 == (4096 # 10))%Q.
Proof.
  split; [|split; [by vm_compute|split; [reflexivity|split]]].
  - intros pow [Hlo Hhi]. unfold calculateFallSpeedIn, round, times.
    cbn [level]. change (5 - 1) with 4.
    set (p := pow (fl (8 # 10)) 4) in *.
    destruct (fl_near (1000 * p) 8) as [Ha Hb];
      [lia | change (inject_Z (2 ^ 8)) with 256%Q; lra
           | change (inject_Z (2 ^ (8 + 1))) with 512%Q; lra |].
    assert (Htiny : (Qpower 2 (8 - 53) <= 1 # 1000)%Q) by discriminate.
    set (t := Qpower 2 (8 - 53)) in *. clearbody p t.
    rewrite (Qfloor_eq _ 410); [reflexivity | |];
      change (inject_Z 410) with 410%Q; lra.
  - rewrite Q.max_r; [reflexivity | discriminate].
  - discriminate.
Qed.

(** The rounding of the product to a double is visible: at level 2 with the
    base speed 125.62499999999999 the code returns 101, where the exact
    product 100.49999999999999... rounds to 100. *)
Example calculateFallSpeed_double_rounding :
  calculateFallSpeedIn Js.pow
    (mkScoreManager (mkConfig 10 1) 1000 2 10 20
       (mkLinesClearedByType 10 0 0 0))
    (fl (12562499999999999 # 100000000000000)) = 101 /\
  calculateFallSpeed
    (mkScoreManager (mkConfig 10 1) 1000 2 10 20
       (mkLinesClearedByType 10 0 0 0))
    (fl (12562499999999999 # 100000000000000)) = 100.
Proof. by vm_compute. Qed.

End Scoring.

(** ** Piece controller: rotation with wall kicks *)

Section Rotation.
Import TetrominoUtils BoardManager TetrominoManager.

(** The loop over the kick offsets stops at the first offset the board
    accepts. *)
Lemma tryWallKicks_first (bm : BoardManager) (rotated : Tetromino)
  (before after : list (Z * Z)) (dx dy : Z) :
  (forall o, o ∈ before ->
     isValidPosition bm (moveTetromino rotated o.1 o.2) = false) ->
  isValidPosition bm (moveTetromino rotated dx dy) = true ->
  tryWallKicks bm rotated (before ++ (dx, dy) :: after)
  = Some (moveTetromino rotated dx dy).
Proof.
  intros Hbefore Hok. induction before as [|[ox oy] before IH]; simpl.
  - unfold canRotate. by rewrite Hok.
  - unfold canRotate.
    pose proof (Hbefore (ox, oy) (list_elem_of_here _ _)) as Hhead.
    simpl in Hhead. rewrite Hhead.
    apply IH. intros o Ho. apply Hbefore. by apply list_elem_of_further.
Qed.

Lemma tryWallKicks_none (bm : BoardManager) (rotated : Tetromino)
  (offsets : list (Z * Z)) :
  (forall o, o ∈ offsets ->
     isValidPosition bm (moveTetromino rotated o.1 o.2) = false) ->
  tryWallKicks bm rotated offsets = None.
Proof.
  intros Hall. induction offsets as [|[ox oy] offsets IH]; simpl; [done|].
  unfold canRotate.
  pose proof (Hall (ox, oy) (list_elem_of_here _ _)) as Hhead.
  simpl in Hhead. rewrite Hhead.
  apply IH. intros o Ho. apply Hall. by apply list_elem_of_further.
Qed.

(** C7.  [rotatePiece] on a current piece: the naive rotation has rotation
    state [(r + 1) mod 4] and is committed when the board accepts it;
    otherwise the offsets of [getWallKickOffsets] for (type, r, r + 1 mod 4)
    are tried in list order and the first accepted kicked piece is
    committed; when none is accepted the call returns false and the
    controller is unchanged. *)
Theorem rotatePiece_spec (bm : BoardManager) (tm : TetrominoManager)
  (cur : Tetromino) :
  currentPiece tm = Some cur ->
  let rotated := rotateTetromino cur in
  let offsets :=
    getWallKickOffsets (TetrominoUtils.type cur) (rotation cur)
      ((rotation cur + 1) mod 4) in
  (rotation rotated = (rotation cur + 1) mod 4)%nat /\
  (x rotated = x cur /\ y rotated = y cur /\
   TetrominoUtils.type rotated = TetrominoUtils.type cur) /\
  (isValidPosition bm rotated = true ->
   rotatePiece bm tm = (true, setCurrentPiece tm (Some rotated))) /\
  (isValidPosition bm rotated = false ->
   (forall before after dx dy,
      offsets = before ++ (dx, dy) :: after ->
      (forall o, o ∈ before ->
         isValidPosition bm (moveTetromino rotated o.1 o.2) = false) ->
      isValidPosition bm (moveTetromino rotated dx dy) = true ->
      rotatePiece bm tm
      = (true, setCurrentPiece tm (Some (moveTetromino rotated dx dy)))) /\
   ((forall o, o ∈ offsets ->
       isValidPosition bm (moveTetromino rotated o.1 o.2) = false) ->
    rotatePiece bm tm = (false, tm))).
Proof.
  intros Hcur rotated offsets. unfold rotatePiece. rewrite Hcur.
  fold rotated. change (rotation rotated) with ((rotation cur + 1) mod 4)%nat.
  fold offsets. unfold canRotate.
  split; [done|]. split; [done|]. split.
  - by intros ->.
  - intros ->. split.
    + intros before after dx dy Hsplit Hbefore Hok.
      by rewrite Hsplit, (tryWallKicks_first _ _ _ _ _ _ Hbefore Hok).
    + intros Hall. by rewrite (tryWallKicks_none _ _ _ Hall).
Qed.

(** Without a current piece there is nothing to rotate. *)
Lemma rotatePiece_no_piece (bm : BoardManager) (tm : TetrominoManager) :
  currentPiece tm = None -> rotatePiece bm tm = (false, tm).
Proof. intros H. unfold rotatePiece. by rewrite H. Qed.

(** A T piece in rotation state 1 against the left wall of an empty 10x20
    board: the naive rotation leaves the board, the first kick (1, 0) is
    accepted. *)
Lemma rotatePiece_spec_witness :
  rotatePiece (BoardManager.create 10 20)
    (mkTetrominoManager
       (Some (mkTetromino Tetrominoes.TT (-1) 5 1
                (Tetrominoes.TETROMINO_COLORS Tetrominoes.TT)
                (shapeAt Tetrominoes.TT 1)))
       None 3 0)
  = (true,
     mkTetrominoManager
       (Some (mkTetromino Tetrominoes.TT 0 5 2
                (Tetrominoes.TETROMINO_COLORS Tetrominoes.TT)
                (shapeAt Tetrominoes.TT 2)))
       None 3 0).
Proof.
  set (cur := mkTetromino Tetrominoes.TT (-1) 5 1
                (Tetrominoes.TETROMINO_COLORS Tetrominoes.TT)
                (shapeAt Tetrominoes.TT 1)).
  set (tm := mkTetrominoManager (Some cur) None 3 0).
  destruct (rotatePiece_spec (BoardManager.create 10 20) tm cur eq_refl)
    as (_ & _ & _ & Hkick).
  destruct (Hkick eq_refl) as [Hfirst _].
  exact (Hfirst [] [(1, 1); (0, -2); (1, -2)] 1 0 eq_refl
           ltac:(intros o Ho; inversion Ho) eq_refl).
Defined.

End Rotation.

(** ** Construction configuration *)

Section Construction.
Import Js.

Lemma get_absent (obj : gmap string value) (key : string) :
  obj !! key = None -> get obj key = VUndefined.
Proof. unfold get. by intros ->. Qed.

Lemma spread_absent (a b : gmap string value) (key : string) :
  b !! key = None -> spread a b !! key = a !! key.
Proof. intros H. unfold spread. by apply lookup_union_r. Qed.

Lemma spread_present (a b : gmap string value) (key : string) (v : value) :
  b !! key = Some v -> spread a b !! key = Some v.
Proof. intros H. unfold spread. by apply lookup_union_Some_l. Qed.

Ltac in_list :=
  repeat first [apply list_elem_of_here | apply list_elem_of_further].




End Construction.

(** ** Board: the invariant *)

Section BoardInvariant.
Import BoardManager.

Lemma create_wellFormed (w h : nat) : wellFormed (create w h).
Proof.
  split; simpl.
  - apply length_replicate.
  - apply Forall_replicate, length_replicate.
Qed.

Lemma clearBoard_wellFormed (bm : BoardManager) : wellFormed (clearBoard bm).
Proof. apply create_wellFormed. Qed.

Lemma setCell_shape (w : nat) (rows : list Row) (x y : Z) (c : Cell) :
  Forall (fun r : Row => length r = w) rows ->
  length (setCell rows x y c) = length rows /\
  Forall (fun r : Row => length r = w) (setCell rows x y c).
Proof.
  intros Hrows. unfold setCell. split; [apply length_alter|].
  apply Forall_alter; [done|]. intros r _ Hr. by rewrite length_insert.
Qed.

Lemma placeBlocks_shape (w : nat) (blocks : list (Z * Z)) (rows : list Row)
  (c : Cell) :
  Forall (fun r : Row => length r = w) rows ->
  length (fold_left (fun rows (b : Z * Z) => setCell rows b.1 b.2 c)
            blocks rows) = length rows /\
  Forall (fun r : Row => length r = w)
    (fold_left (fun rows (b : Z * Z) => setCell rows b.1 b.2 c) blocks rows).
Proof.
  revert rows. induction blocks as [|b blocks IH]; intros rows Hrows; [done|].
  destruct (setCell_shape w rows b.1 b.2 c Hrows) as [Hlen Hshape].
  destruct (IH _ Hshape) as [Hlen' Hshape']. simpl. split; [congruence|done].
Qed.

Lemma placePiece_wellFormed (bm : BoardManager) (t : TetrominoUtils.Tetromino) :
  wellFormed bm -> wellFormed (placePiece bm t).2.
Proof.
  intros Hwf. unfold placePiece.
  destruct (negb (isValidPosition bm t)); [done|]. cbn [snd].
  destruct Hwf as [Hh Hw]. unfold wellFormed. cbn [board width height].
  rewrite <- Hh. by apply placeBlocks_shape.
Qed.

Lemma clearRow_wellFormed (bm : BoardManager) (i : nat) :
  wellFormed bm -> wellFormed (clearRow bm i).
Proof.
  intros [Hh Hw]. unfold clearRow.
  destruct (height bm <=? i)%nat eqn:E; [done|]. apply Nat.leb_gt in E.
  split; simpl.
  - rewrite length_delete by (apply lookup_lt_is_Some_2; lia). lia.
  - constructor; [apply length_replicate | by apply Forall_delete].
Qed.

End BoardInvariant.

(** ** Board: clearing complete rows *)

Section LineClearing.
Import BoardManager.

Lemma omap_cons_unfold {A B} (f : A -> option B) (a : A) (l : list A) :
  omap f (a :: l)
  = match f a with Some b => b :: omap f l | None => omap f l end.
Proof. reflexivity. Qed.

(** Index windows over a list, as the loops over [row] see it. *)
Lemma omap_seq_filter {A} (P : nat -> Prop) `{!forall i, Decision (P i)}
  (Q : A -> Prop) `{!forall a, Decision (Q a)} (pre l : list A) :
  (forall i a, l !! i = Some a -> P (length pre + i)%nat <-> Q a) ->
  omap (fun i => if bool_decide (P i) then None else (pre ++ l) !! i)
       (seq (length pre) (length l))
  = filter (fun a => ~ Q a) l.
Proof.
  revert pre. induction l as [|a l IH]; intros pre HPQ; [done|].
  simpl seq. rewrite omap_cons_unfold.
  specialize (IH (pre ++ [a])).
  rewrite length_app, Nat.add_1_r, <- app_assoc in IH. simpl in IH.
  rewrite IH.
  - rewrite filter_cons.
    pose proof (HPQ 0%nat a eq_refl) as Hhd. rewrite Nat.add_0_r in Hhd.
    rewrite list_lookup_middle by done.
    destruct (decide (P (length pre))) as [HP|HP].
    + rewrite bool_decide_eq_true_2 by done.
      rewrite decide_False; [done|]. intros HnQ. by apply HnQ, Hhd.
    + rewrite bool_decide_eq_false_2 by done.
      rewrite decide_True; [done|]. intros HQ. by apply HP, Hhd.
  - intros i b Hib. pose proof (HPQ (S i) b Hib) as Hs.
    by rewrite Nat.add_succ_r in Hs.
Qed.

Lemma filter_seq_length {A} (P : nat -> Prop) `{!forall i, Decision (P i)}
  (Q : A -> Prop) `{!forall a, Decision (Q a)} (k : nat) (l : list A) :
  (forall i a, l !! i = Some a -> P (k + i)%nat <-> Q a) ->
  length (filter P (seq k (length l))) = length (filter Q l).
Proof.
  revert k. induction l as [|a l IH]; intros k HPQ; [done|].
  simpl seq. rewrite !filter_cons.
  pose proof (HPQ 0%nat a eq_refl) as Hhd. rewrite Nat.add_0_r in Hhd.
  assert (Hrest : length (filter P (seq (S k) (length l)))
                  = length (filter Q l)).
  { apply IH. intros i b Hib. pose proof (HPQ (S i) b Hib) as Hs.
    by rewrite Nat.add_succ_r in Hs. }
  destruct (decide (P k)) as [HP|HP].
  - rewrite decide_True by by apply Hhd. simpl. by rewrite Hrest.
  - rewrite decide_False; [done|]. intros HQ. by apply HP, Hhd.
Qed.

Lemma filter_seq_sorted (P : nat -> Prop) `{!forall i, Decision (P i)}
  (k n : nat) : StronglySorted lt (filter P (seq k n)).
Proof.
  revert k. induction n as [|n IH]; intros k; [constructor|].
  simpl seq. rewrite filter_cons. destruct (decide (P k)); [|apply IH].
  constructor; [apply IH|]. apply Forall_forall. intros i Hi.
  apply list_elem_of_filter in Hi as [_ Hi]. apply elem_of_seq in Hi. lia.
Qed.

(** A row of the right length is complete for [isRowComplete] exactly when
    every cell holds a block. *)
Lemma row_scan_full (r : Row) :
  forallb (fun col => negb (isNull (r !! col))) (seq 0 (length r)) = true
  <-> Forall is_Some r.
Proof.
  rewrite forallb_forall, Forall_lookup. split.
  - intros H col c Hc.
    assert (Hin : In col (seq 0 (length r))).
    { apply list_elem_of_In, elem_of_seq. apply lookup_lt_Some in Hc. lia. }
    specialize (H col Hin). rewrite Hc in H. destruct c; [done|].
    discriminate H.
  - intros H col Hcol. apply list_elem_of_In, elem_of_seq in Hcol.
    assert (Hlt : (col < length r)%nat) by lia.
    destruct (lookup_lt_is_Some_2 r col Hlt) as [c Hc].
    rewrite Hc. by destruct (H col c Hc) as [blk ->].
Qed.

Lemma isRowComplete_full (bm : BoardManager) (i : nat) (r : Row) :
  wellFormed bm -> board bm !! i = Some r ->
  isRowComplete bm i = true <-> Forall is_Some r.
Proof.
  intros [Hh Hw] Hr. unfold isRowComplete, cellAt.
  assert (i < height bm)%nat by (rewrite <- Hh; by eapply lookup_lt_Some).
  destruct (height bm <=? i)%nat eqn:E; [apply Nat.leb_le in E; lia|].
  rewrite Hr.
  assert (Hlen : length r = width bm).
  { rewrite Forall_lookup in Hw. by eapply Hw. }
  rewrite <- Hlen. simpl. apply row_scan_full.
Qed.

Lemma findCompleteRows_elem (bm : BoardManager) (i : nat) :
  wellFormed bm ->
  i ∈ findCompleteRows bm <->
  exists r, board bm !! i = Some r /\ Forall is_Some r.
Proof.
  intros Hwf. unfold findCompleteRows.
  rewrite list_elem_of_filter, elem_of_seq. split.
  - intros [Hc Hi]. destruct Hwf as [Hh Hw].
    assert (Hlt : (i < length (board bm))%nat) by lia.
    destruct (lookup_lt_is_Some_2 (board bm) i Hlt) as [r Hr].
    exists r. split; [done|]. by apply (isRowComplete_full bm i r).
  - intros (r & Hr & Hfull). split.
    + by apply (isRowComplete_full bm i r).
    + destruct Hwf as [Hh _]. apply lookup_lt_Some in Hr. lia.
Qed.

Lemma filter_complement_all {A} (P : A -> Prop) `{!forall a, Decision (P a)}
  (l : list A) :
  length (filter P l) = 0%nat -> filter (fun a => ~ P a) l = l.
Proof.
  induction l as [|a l IH]; [done|]. rewrite !filter_cons.
  destruct (decide (P a)) as [HP|HP]; [done|]. intros Hlen.
  rewrite decide_True by done. by rewrite IH.
Qed.

Lemma clearLines_board (bm : BoardManager) :
  wellFormed bm ->
  board (clearLines bm).2
  = replicate (count (clearLines bm).1) (emptyRow (width bm))
    ++ filter (fun r : Row => ~ Forall is_Some r) (board bm)
  /\ count (clearLines bm).1
     = length (filter (fun r : Row => Forall is_Some r) (board bm))
  /\ rows (clearLines bm).1 = findCompleteRows bm.
Proof.
  intros Hwf.
  assert (Hcount : length (findCompleteRows bm)
                   = length (filter (fun r : Row => Forall is_Some r) (board bm))).
  { unfold findCompleteRows. destruct Hwf as [Hh Hw]. rewrite <- Hh.
    apply filter_seq_length. intros i r Hr. simpl.
    by apply isRowComplete_full. }
  assert (Hkeep :
    omap (fun row => if bool_decide (row ∈ findCompleteRows bm) then None
                     else board bm !! row) (seq 0 (height bm))
    = filter (fun r : Row => ~ Forall is_Some r) (board bm)).
  { destruct Hwf as [Hh Hw]. rewrite <- Hh.
    apply (omap_seq_filter (fun i => i ∈ findCompleteRows bm)
             (fun r : Row => Forall is_Some r) [] (board bm)).
    intros i r Hr. simpl. rewrite findCompleteRows_elem by done. split.
    - intros (r' & Hr' & Hfull). congruence.
    - intros Hfull. by exists r. }
  unfold clearLines.
  destruct (length (findCompleteRows bm) =? 0)%nat eqn:E; simpl.
  - apply Nat.eqb_eq in E. rewrite E in Hcount.
    rewrite filter_complement_all by done. rewrite <- Hcount.
    by apply length_zero_iff_nil in E.
  - by rewrite Hkeep, Hcount.
Qed.

Lemma filter_all {A} (P : A -> Prop) `{!forall a, Decision (P a)} (l : list A) :
  Forall P l -> filter P l = l /\ filter (fun a => ~ P a) l = [].
Proof.
  induction 1 as [|a l Ha Hl [IH1 IH2]]; [done|]. rewrite !filter_cons.
  rewrite decide_True by done. rewrite decide_False by tauto.
  by rewrite IH1, IH2.
Qed.

Lemma filter_split_length {A} (P : A -> Prop) `{!forall a, Decision (P a)}
  (l : list A) :
  (length (filter P l) + length (filter (fun a => ~ P a) l))%nat = length l.
Proof.
  rewrite <- length_app. apply Permutation_length, filter_app_complement.
Qed.

Lemma filter_none {A} (P : A -> Prop) `{!forall a, Decision (P a)}
  (l : list A) :
  Forall (fun a => ~ P a) l -> filter P l = [].
Proof.
  induction 1 as [|a l Ha Hl IH]; [done|]. by rewrite filter_cons_False.
Qed.

(** Measured from its old index, a row that stays moves down by the number
    of complete rows below it; that is all k of them for a row above every
    complete row. *)
Lemma clearLines_row_displacement (bm : BoardManager) (i : nat) (r : Row) :
  wellFormed bm -> board bm !! i = Some r -> ~ Forall is_Some r ->
  board (clearLines bm).2
    !! (i + length (filter (fun r : Row => Forall is_Some r)
                      (drop (S i) (board bm))))%nat
  = Some r.
Proof.
  intros Hwf Hr Hnot.
  destruct (clearLines_board bm Hwf) as (Hboard & Hcount & _).
  rewrite Hboard, Hcount. clear Hboard Hcount.
  pose proof (take_drop_middle (board bm) i r Hr) as Hmid.
  set (above := take i (board bm)) in *.
  set (below := drop (S i) (board bm)) in *.
  assert (Hi : length above = i).
  { unfold above. rewrite length_take. apply lookup_lt_Some in Hr. lia. }
  rewrite <- Hmid. rewrite !filter_app, !filter_cons.
  rewrite decide_False by done. rewrite decide_True by done.
  rewrite length_app.
  pose proof (filter_split_length (fun r : Row => Forall is_Some r) above)
    as Hsplit.
  cbv beta in Hsplit.
  rewrite lookup_app_r; rewrite length_replicate; [|lia].
  match goal with
  | |- _ !! ?k = _ =>
      replace k
        with (length (filter (fun a : Row => ~ Forall is_Some a) above) + 0)%nat
        by lia
  end.
  by rewrite lookup_app_r, Nat.add_0_r, Nat.sub_diag by lia.
Qed.

(** C5, as the code has it.  On a board that keeps the class invariant,
    [clearLines] reports the indices (ascending, as they were before the
    call) of exactly the rows in which every cell is occupied, with their
    number as the count; the new grid is that many empty rows followed by
    the other rows in their old order; the dimensions and the invariant are
    kept.  When all rows are complete the new grid is empty.  With k rows
    removed, the h-k remaining rows are rows k..h-1 of the new grid, in
    order; a remaining row moves down by the number of removed rows below
    it, which is k for a row above every removed row. *)
Theorem clearLines_spec (bm : BoardManager) :
  wellFormed bm ->
  let result := (clearLines bm).1 in
  let bm' := (clearLines bm).2 in
  let remaining := filter (fun r : Row => ~ Forall is_Some r) (board bm) in
  (forall i, i ∈ rows result <->
             exists r, board bm !! i = Some r /\ Forall is_Some r) /\
  StronglySorted lt (rows result) /\
  count result = length (rows result) /\
  board bm'
  = replicate (count result) (replicate (width bm) None) ++ remaining /\
  length remaining = (height bm - count result)%nat /\
  width bm' = width bm /\ height bm' = height bm /\ wellFormed bm' /\
  (Forall (fun r : Row => Forall is_Some r) (board bm) ->
   board bm' = replicate (height bm) (replicate (width bm) None)) /\
  (forall j r, remaining !! j = Some r ->
               board bm' !! (count result + j)%nat = Some r) /\
  (forall j, (j < count result)%nat ->
             board bm' !! j = Some (replicate (width bm) None)) /\
  (forall i r, board bm !! i = Some r -> ~ Forall is_Some r ->
     board bm'
       !! (i + length (filter (fun r : Row => Forall is_Some r)
                         (drop (S i) (board bm))))%nat
     = Some r) /\
  (forall i r, board bm !! i = Some r -> ~ Forall is_Some r ->
     (forall j, j ∈ rows result -> (i < j)%nat) ->
     board bm' !! (i + count result)%nat = Some r).
Proof.
  intros Hwf result bm' remaining.
  pose proof (clearLines_row_displacement bm) as Hmove.
  pose proof (findCompleteRows_elem bm) as Helem.
  destruct (clearLines_board bm Hwf) as (Hboard & Hcount & Hrows).
  fold result bm' remaining in Hboard, Hcount, Hrows.
  change (emptyRow (width bm)) with (replicate (width bm) (@None Cell))
    in Hboard.
  pose proof (filter_split_length (fun r : Row => Forall is_Some r) (board bm))
    as Hsplit.
  fold remaining in Hsplit. rewrite <- Hcount in Hsplit.
  assert (Hdims : width bm' = width bm /\ height bm' = height bm).
  { unfold bm', clearLines.
    by destruct (length (findCompleteRows bm) =? 0)%nat. }
  destruct Hwf as [Hh Hw].
  split; [|split; [|split; [|split; [|split; [|split; [|split; [|split;
    [|split; [|split; [|split; [|split]]]]]]]]]]].
  - intros i. rewrite Hrows. by apply findCompleteRows_elem.
  - rewrite Hrows. apply filter_seq_sorted.
  - rewrite Hrows, Hcount. unfold findCompleteRows. rewrite <- Hh.
    symmetry. apply filter_seq_length. intros i r Hr.
    by apply isRowComplete_full.
  - exact Hboard.
  - unfold remaining. lia.
  - apply Hdims.
  - apply Hdims.
  - split.
    + rewrite Hboard, length_app, length_replicate. destruct Hdims.
      unfold remaining. lia.
    + rewrite Hboard. destruct Hdims as [-> _]. apply Forall_app. split.
      * apply Forall_replicate, length_replicate.
      * apply Forall_forall. intros r Hr.
        apply list_elem_of_filter in Hr as [_ Hr].
        rewrite Forall_forall in Hw. by apply Hw.
  - intros Hall.
    destruct (filter_all (fun r : Row => Forall is_Some r) (board bm) Hall)
      as [Hfull Hnone].
    fold remaining in Hnone.
    rewrite Hboard, Hnone, app_nil_r, Hcount, Hfull, Hh. done.
  - intros j r Hj. rewrite Hboard, lookup_app_r; rewrite length_replicate;
      [|lia]. by replace (count result + j - count result)%nat with j by lia.
  - intros j Hj. rewrite Hboard, lookup_app_l by by rewrite length_replicate.
    by apply lookup_replicate_2.
  - intros i r Hr Hnot. by apply Hmove.
  - intros i r Hr Hnot Habove.
    rewrite <- (Hmove i r) by done. f_equal. f_equal. rewrite Hcount.
    rewrite <- (take_drop (S i) (board bm)) at 1.
    rewrite filter_app, length_app, filter_none; [done|].
    apply Forall_lookup. intros j rj Hj Hfull.
    apply lookup_take_Some in Hj as [Hj Hlt].
    assert (Hin : j ∈ rows result).
    { rewrite Hrows. apply Helem; [by split|]. by exists rj. }
    apply Habove in Hin. lia.
Qed.

(** A 10x20 board with a complete row 18 over a bottom row with a hole:
    the bottom row stays where it is. *)
Lemma clearLines_spec_witness :
  rows (clearLines Scenario.holeBelowFullRow).1 = [18%nat] /\
  board (clearLines Scenario.holeBelowFullRow).2 !! (19 + 0)%nat
  = Some (None :: replicate 9 (Some (mkCell Tetrominoes.TL "#FF8C00"))).
Proof.
  assert (Hwf : wellFormed Scenario.holeBelowFullRow).
  { split; [reflexivity|]. vm_compute. repeat constructor. }
  destruct (clearLines_spec Scenario.holeBelowFullRow Hwf)
    as (_ & _ & _ & _ & _ & _ & _ & _ & _ & _ & _ & Hmove & _).
  split; [reflexivity|].
  apply (Hmove 19%nat); [reflexivity|].
  intros Hfull. by apply Forall_cons_1 in Hfull as [[? [=]] _].
Defined.

(** C5, as stated, fails in its last clause: with k = 1 row removed (row
    18), the remaining bottom row is not shifted down by 1; it is still row
    19, and there is no row 20. *)
Lemma clearLines_row_below_stays :
  wellFormed Scenario.holeBelowFullRow /\
  count (clearLines Scenario.holeBelowFullRow).1 = 1%nat /\
  board Scenario.holeBelowFullRow !! 19%nat
  = Some (None :: replicate 9 (Some (mkCell Tetrominoes.TL "#FF8C00"))) /\
  board (clearLines Scenario.holeBelowFullRow).2 !! 19%nat
  = Some (None :: replicate 9 (Some (mkCell Tetrominoes.TL "#FF8C00"))) /\
  board (clearLines Scenario.holeBelowFullRow).2
    !! (19 + count (clearLines Scenario.holeBelowFullRow).1)%nat = None.
Proof.
  split; [|repeat split; reflexivity].
  split; [reflexivity|]. vm_compute. repeat constructor.
Qed.

End LineClearing.

(** ** The 7-bag sequencer *)

Section Bag.
Import Tetrominoes TetrominoUtils.

Variable random : nat -> Q.

(** The contract of [Math.random]: a number in [0, 1). *)
Hypothesis random_range : forall k, (0 <= random k /\ random k < 1)%Q.

Lemma randomIndex_in_range (k i : nat) : (randomIndex random k i <= i)%nat.
Proof.
  unfold randomIndex. destruct (random_range k) as [H0 H1].
  set (c := inject_Z (Z.of_nat (i + 1))).
  assert (Hc : (0 < c)%Q).
  { unfold c. change 0%Q with (inject_Z 0). rewrite <- Zlt_Qlt. clear. lia. }
  assert (Hlt : (random k * c < c)%Q) by nra.
  assert (Hfl : Qfloor (random k * c) < Z.of_nat (i + 1)).
  { rewrite Zlt_Qlt. eapply Qle_lt_trans; [apply Qfloor_le | exact Hlt]. }
  revert Hfl. generalize (Qfloor (random k * c)). clear. intros z Hz. lia.
Qed.

(** After the swap, position [k] holds what the exchanged position held. *)
Lemma swap_lookup (bag : list TetrominoType) (i j k : nat) :
  (i < length bag)%nat -> (j < length bag)%nat ->
  swap bag i j !! k
  = bag !! (if decide (k = i) then j else if decide (k = j) then i else k).
Proof.
  intros Hi Hj. unfold swap.
  destruct (lookup_lt_is_Some_2 bag i Hi) as [bi Hbi].
  destruct (lookup_lt_is_Some_2 bag j Hj) as [bj Hbj].
  rewrite Hbi, Hbj.
  destruct (decide (k = j)) as [->|Hkj].
  - rewrite list_lookup_insert_eq by by rewrite length_insert.
    case_decide; congruence.
  - rewrite list_lookup_insert_ne by done.
    destruct (decide (k = i)) as [->|Hki].
    + by rewrite list_lookup_insert_eq.
    + by rewrite list_lookup_insert_ne.
Qed.

Lemma swap_Permutation (bag : list TetrominoType) (i j : nat) :
  (i < length bag)%nat -> (j <= i)%nat -> swap bag i j ≡ₚ bag.
Proof.
  intros Hi Hj. apply Permutation_inj. split.
  - unfold swap. repeat case_match; by rewrite ?length_insert.
  - exists (fun k => if decide (k = i) then j
                     else if decide (k = j) then i else k).
    split.
    + intros a b. repeat case_decide; congruence.
    + intros k. apply swap_lookup; lia.
Qed.

Lemma shuffleFrom_Permutation (i : nat) (bag : list TetrominoType) (k : nat) :
  (i < length bag)%nat -> (shuffleFrom random i bag k).1 ≡ₚ bag.
Proof.
  revert bag k. induction i as [|i IH]; intros bag k Hi; [done|].
  simpl.
  assert (Hswap : swap bag (S i) (randomIndex random k (S i)) ≡ₚ bag)
    by (apply swap_Permutation; [done | apply randomIndex_in_range]).
  rewrite IH; [done|]. rewrite (Permutation_length Hswap). lia.
Qed.

Lemma generatePieceBag_Permutation (k : nat) :
  (generatePieceBag random k).1 ≡ₚ ALL_TETROMINO_TYPES.
Proof. unfold generatePieceBag. apply shuffleFrom_Permutation. simpl. lia. Qed.

Lemma draws_S (n : nat) (sq : Sequencer) :
  draws random (S n) sq
  = ((getRandomTetrominoType random sq).1
       :: (draws random n (getRandomTetrominoType random sq).2).1,
     (draws random n (getRandomTetrominoType random sq).2).2).
Proof.
  change (draws random (S n) sq)
    with (let '(t, sq1) := getRandomTetrominoType random sq in
          let '(ts, sq2) := draws random n sq1 in (t :: ts, sq2)).
  destruct (getRandomTetrominoType random sq) as [t sq1]. cbn [fst snd].
  by destruct (draws random n sq1).
Qed.

(** A draw from a bag that holds pieces pops the last one, without a call
    of [Math.random]. *)
Lemma getRandomTetrominoType_pop (bag : list TetrominoType)
  (t : TetrominoType) (k : nat) :
  getRandomTetrominoType random (mkSequencer (bag ++ [t]) k)
  = (Some t, mkSequencer bag k).
Proof.
  unfold getRandomTetrominoType. cbn [pieceBag randomCalls].
  rewrite length_app, Nat.add_1_r. cbn [Nat.eqb pieceBag randomCalls].
  by rewrite last_snoc, removelast_last.
Qed.

(** A draw from the empty bag refills it first. *)
Lemma getRandomTetrominoType_refill (k : nat) :
  getRandomTetrominoType random (mkSequencer [] k)
  = (last (generatePieceBag random k).1,
     mkSequencer (removelast (generatePieceBag random k).1)
       (generatePieceBag random k).2).
Proof.
  unfold getRandomTetrominoType. cbn [pieceBag randomCalls length Nat.eqb].
  by destruct (generatePieceBag random k).
Qed.

Lemma draws_pops (bag : list TetrominoType) (k : nat) :
  draws random (length bag) (mkSequencer bag k)
  = (Some <$> reverse bag, mkSequencer [] k).
Proof.
  induction bag as [|t bag IH] using rev_ind; [done|].
  rewrite length_app, Nat.add_1_r, draws_S, getRandomTetrominoType_pop.
  cbn [fst snd]. by rewrite IH, reverse_snoc.
Qed.

(** Seven draws from an empty bag: one refill, then the refilled bag is
    handed out completely. *)
Lemma draws_refill (k : nat) :
  draws random 7 (mkSequencer [] k)
  = (Some <$> reverse (generatePieceBag random k).1,
     mkSequencer [] (generatePieceBag random k).2).
Proof.
  pose proof (Permutation_length (generatePieceBag_Permutation k)) as Hlen.
  rewrite draws_S, getRandomTetrominoType_refill.
  destruct (generatePieceBag random k) as [bag k']. cbn [fst snd] in *.
  destruct bag as [|t bag _] using rev_ind; [done|].
  rewrite length_app, Nat.add_1_r in Hlen. injection Hlen as Hlen.
  rewrite last_snoc, removelast_last, <- Hlen, draws_pops. cbn [fst snd].
  by rewrite reverse_snoc.
Qed.

Lemma draws_app (a b : nat) (sq : Sequencer) :
  draws random (a + b) sq
  = ((draws random a sq).1 ++ (draws random b (draws random a sq).2).1,
     (draws random b (draws random a sq).2).2).
Proof.
  revert sq. induction a as [|a IH]; intros sq.
  - cbn [Nat.add draws fst snd app]. by destruct (draws random b sq).
  - change (S a + b)%nat with (S (a + b)). by rewrite !draws_S, IH.
Qed.

Lemma draws_boundary (m : nat) (sq : Sequencer) :
  pieceBag sq = [] -> pieceBag (draws random (7 * m) sq).2 = [].
Proof.
  revert sq. induction m as [|m IH]; intros sq Hsq; [exact Hsq|].
  replace (7 * S m)%nat with (7 + 7 * m)%nat by lia.
  rewrite draws_app. cbn [snd]. apply IH.
  destruct sq as [bag k]. cbn [pieceBag] in Hsq. subst bag.
  by rewrite draws_refill.
Qed.

(** C6.  Start at a bag boundary (an empty pending bag, as after loading
    the module or [resetPieceBag]).  Then every later multiple of seven
    draws is a boundary again, and the seven draws that follow it return
    each of the seven types exactly once; [resetPieceBag] leaves the
    pending bag empty. *)
Theorem bag_draws_each_type_once (sq : Sequencer) (m : nat) :
  pieceBag sq = [] ->
  let sq1 := (draws random (7 * m) sq).2 in
  let window := (draws random 7 sq1).1 in
  pieceBag sq1 = [] /\
  window ≡ₚ Some <$> ALL_TETROMINO_TYPES /\
  (forall t : TetrominoType, length (filter (Some t =.) window) = 1%nat) /\
  pieceBag (draws random 7 sq1).2 = [] /\
  (forall sq' : Sequencer, pieceBag (resetPieceBag sq') = []).
Proof.
  intros Hsq sq1 window.
  assert (Hb : pieceBag sq1 = []) by by apply draws_boundary.
  assert (Hw : window ≡ₚ Some <$> ALL_TETROMINO_TYPES).
  { unfold window. destruct sq1 as [bag k]. cbn [pieceBag] in Hb. subst bag.
    rewrite draws_refill. cbn [fst].
    by rewrite reverse_Permutation, generatePieceBag_Permutation. }
  split; [done|]. split; [done|]. split; [|split; [|done]].
  - intros t. rewrite Hw. by destruct t.
  - destruct sq1 as [bag k]. cbn [pieceBag] in Hb. subst bag.
    by rewrite draws_refill.
Qed.

End Bag.

(** With [Math.random] stuck at 0, the second window of seven draws. *)
Lemma bag_draws_each_type_once_witness :
  (TetrominoUtils.draws (fun _ => 0%Q) 7
     (TetrominoUtils.draws (fun _ => 0%Q) (7 * 1)
        (TetrominoUtils.mkSequencer [] 0)).2).1
  ≡ₚ Some <$> Tetrominoes.ALL_TETROMINO_TYPES.
Proof.
  apply (bag_draws_each_type_once (fun _ => 0%Q)
           ltac:(intros k; split; [apply Qle_refl | reflexivity])
           (TetrominoUtils.mkSequencer [] 0) 1 eq_refl).
Defined.

(** ** Piece controller: spawning *)

Section Spawning.
Import Tetrominoes TetrominoUtils TetrominoManager.

Variable random : nat -> Q.
Hypothesis random_range : forall k, (0 <= random k /\ random k < 1)%Q.

(** The sequencer always has a type to hand out. *)
Lemma getRandomTetrominoType_total (sq : Sequencer) :
  exists t, (getRandomTetrominoType random sq).1 = Some t.
Proof.
  destruct sq as [bag k]. destruct bag as [|t bag _] using rev_ind.
  - rewrite getRandomTetrominoType_refill. cbn [fst].
    pose proof (Permutation_length
                  (generatePieceBag_Permutation random random_range k)) as Hlen.
    destruct (generatePieceBag random k).1 as [|t bag _] using rev_ind;
      [done|].
    exists t. apply last_snoc.
  - exists t. by rewrite getRandomTetrominoType_pop.
Qed.

Lemma cloneTetromino_id (t : Tetromino) : cloneTetromino t = t.
Proof. destruct t. unfold cloneTetromino. simpl. by rewrite map_id. Qed.

Lemma createRandomTetromino_total (px py : Z) (sq : Sequencer) :
  exists t,
    getRandomTetrominoType random sq
    = (Some t, (getRandomTetrominoType random sq).2) /\
    createRandomTetromino random px py sq
    = Some (mkTetromino t px py 0 (TETROMINO_COLORS t) (shapeAt t 0),
            (getRandomTetrominoType random sq).2).
Proof.
  destruct (getRandomTetrominoType_total sq) as [t Ht]. exists t.
  unfold createRandomTetromino.
  destruct (getRandomTetrominoType random sq) as [o sq']. simpl in *.
  by subst o.
Qed.

(** A spawn never throws: it returns a candidate piece or null, and leaves
    a next piece behind. *)
Lemma spawnPiece_returns (bm : BoardManager.BoardManager)
  (tm : TetrominoManager) (sq : Sequencer) :
  exists (cand next : Tetromino) (sq' : Sequencer),
    spawnPiece random bm tm sq
    = Some (if BoardManager.isValidPosition bm cand then Some cand else None,
            mkTetrominoManager
              (if BoardManager.isValidPosition bm cand then Some cand else None)
              (Some next) (spawnX tm) (spawnY tm),
            sq').
Proof.
  unfold spawnPiece.
  assert (Hcur : exists cur sq1,
    match nextPiece tm with
    | Some np => Some (cloneTetromino np, sq)
    | None => createRandomTetromino random 0 0 sq
    end = Some (cur, sq1)).
  { destruct (nextPiece tm) as [np|]; [by eauto|].
    destruct (createRandomTetromino_total 0 0 sq) as (t & _ & ->). eauto. }
  destruct Hcur as (cur & sq1 & ->). cbn [mbind option_bind].
  destruct (createRandomTetromino_total 0 0 sq1) as (t' & _ & ->).
  cbn [mbind option_bind].
  exists (setTetrominoPosition cur (spawnX tm) (spawnY tm)),
    (mkTetromino t' 0 0 0 (TETROMINO_COLORS t') (shapeAt t' 0)),
    (getRandomTetrominoType random sq1).2.
  by destruct (BoardManager.isValidPosition bm _).
Qed.

(** C8.  [spawnPiece]: the candidate is the old next piece when there is
    one, and otherwise a piece of a freshly drawn type; it is placed at the
    spawn anchor; a new next piece of a drawn type is always made (one draw
    more); when the board rejects the candidate the current piece is set to
    null and null is returned, otherwise the candidate is current and is
    returned.  The anchor of a controller is column floor(width / 2) - 2 of
    row 0. *)
Theorem spawnPiece_spec (bm : BoardManager.BoardManager)
  (tm : TetrominoManager) (sq : Sequencer) :
  exists (cand next : Tetromino) (sq' : Sequencer),
    match nextPiece tm with
    | Some np =>
      cand = setTetrominoPosition np (spawnX tm) (spawnY tm) /\
      getRandomTetrominoType random sq = (Some (TetrominoUtils.type next), sq')
    | None =>
      exists t sq1,
        getRandomTetrominoType random sq = (Some t, sq1) /\
        cand = mkTetromino t (spawnX tm) (spawnY tm) 0
                 (TETROMINO_COLORS t) (shapeAt t 0) /\
        getRandomTetrominoType random sq1
        = (Some (TetrominoUtils.type next), sq')
    end /\
    next = mkTetromino (TetrominoUtils.type next) 0 0 0
             (TETROMINO_COLORS (TetrominoUtils.type next))
             (shapeAt (TetrominoUtils.type next) 0) /\
    x cand = spawnX tm /\ y cand = spawnY tm /\
    spawnPiece random bm tm sq
    = Some (if BoardManager.isValidPosition bm cand then Some cand else None,
            mkTetrominoManager
              (if BoardManager.isValidPosition bm cand then Some cand else None)
              (Some next) (spawnX tm) (spawnY tm),
            sq') /\
    spawnX (create bm) = Z.of_nat (BoardManager.width bm / 2) - 2 /\
    spawnY (create bm) = 0.
Proof.
  unfold spawnPiece. destruct (nextPiece tm) as [np|] eqn:Hnext.
  - destruct (createRandomTetromino_total 0 0 sq) as (t & Hdraw & Hnew).
    exists (setTetrominoPosition np (spawnX tm) (spawnY tm)),
      (mkTetromino t 0 0 0 (TETROMINO_COLORS t) (shapeAt t 0)),
      (getRandomTetrominoType random sq).2.
    split; [by split|]. split; [done|]. split; [done|]. split; [done|].
    split; [|done]. cbn [mbind option_bind]. rewrite cloneTetromino_id, Hnew.
    cbn [mbind option_bind].
    by destruct (BoardManager.isValidPosition bm _).
  - destruct (createRandomTetromino_total 0 0 sq) as (t & Hdraw & Hnew).
    set (sq1 := (getRandomTetrominoType random sq).2) in *.
    destruct (createRandomTetromino_total 0 0 sq1) as (t' & Hdraw' & Hnew').
    exists (mkTetromino t (spawnX tm) (spawnY tm) 0
              (TETROMINO_COLORS t) (shapeAt t 0)),
      (mkTetromino t' 0 0 0 (TETROMINO_COLORS t') (shapeAt t' 0)),
      (getRandomTetrominoType random sq1).2.
    split; [by exists t, sq1|]. split; [done|]. split; [done|].
    split; [done|]. split; [|done].
    rewrite Hnew. cbn [mbind option_bind]. rewrite Hnew'.
    cbn [mbind option_bind]. unfold setTetrominoPosition.
    cbn [TetrominoUtils.type x y rotation color shape].
    by destruct (BoardManager.isValidPosition bm _).
Qed.

End Spawning.

(** The first spawn on an empty 10x20 board, with [Math.random] stuck at 0:
    the piece appears at (3, 0). *)
Lemma spawnPiece_spec_witness :
  exists cand next sq',
    TetrominoManager.spawnPiece (fun _ => 0%Q) (BoardManager.create 10 20)
      (TetrominoManager.create (BoardManager.create 10 20))
      (TetrominoUtils.mkSequencer [] 0)
    = Some (Some cand,
            TetrominoManager.mkTetrominoManager (Some cand) (Some next) 3 0,
            sq') /\
    TetrominoUtils.x cand = 3 /\ TetrominoUtils.y cand = 0.
Proof.
  destruct (spawnPiece_spec (fun _ => 0%Q)
              ltac:(intros k; split; [apply Qle_refl | reflexivity])
              (BoardManager.create 10 20)
              (TetrominoManager.create (BoardManager.create 10 20))
              (TetrominoUtils.mkSequencer [] 0))
    as (cand & next & sq' & Hcand & _ & Hx & Hy & Hspawn & _).
  exists cand, next, sq'. split; [|split; [exact Hx | exact Hy]].
  cbn [TetrominoManager.nextPiece TetrominoManager.create] in Hcand.
  destruct Hcand as (t & sq1 & _ & Hc & _).
  assert (Hvalid : BoardManager.isValidPosition (BoardManager.create 10 20) cand
                   = true) by (rewrite Hc; destruct t; reflexivity).
  rewrite Hvalid in Hspawn. exact Hspawn.
Defined.

(** ** Engine: pause and resume *)

Section PauseResume.
Import GameEngine.

Variable random : nat -> Q.
Variable now : nat -> Q.

(** While the game is paused a frame only moves [lastUpdateTime] (and reads
    the clock when the loop is running). *)
Lemma gameLoop_paused (w : World) :
  status (engine w) = Paused ->
  exists w',
    gameLoop random now w = Some w' /\
    engine w' = setLastUpdateTime (engine w) (lastUpdateTime (engine w')) /\
    sequencer w' = sequencer w.
Proof.
  intros Hst. destruct w as [e sq calls]. simpl in Hst.
  unfold gameLoop, performanceNow. cbn [engine sequencer nowCalls setEngine].
  destruct (isRunning e) eqn:Hrun; cbn [negb].
  - rewrite decide_False by (destruct e; simpl in *; congruence).
    eexists. split; [done|]. split; [|done]. by destruct e.
  - exists (mkWorld e sq calls). split; [done|]. split; [|done]. by destruct e.
Qed.

Lemma frames_paused (n : nat) (w : World) :
  status (engine w) = Paused ->
  exists w',
    frames random now n w = Some w' /\
    engine w' = setLastUpdateTime (engine w) (lastUpdateTime (engine w')) /\
    sequencer w' = sequencer w.
Proof.
  revert w. induction n as [|n IH]; intros w Hst.
  - exists w. split; [done|]. split; [|done]. by destruct (engine w).
  - destruct (gameLoop_paused w Hst) as (w1 & Hloop & He1 & Hs1).
    assert (Hst1 : status (engine w1) = Paused).
    { rewrite He1. by destruct (engine w). }
    destruct (IH w1 Hst1) as (w2 & Hframes & He2 & Hs2).
    exists w2. cbn [frames]. rewrite Hloop. split; [done|].
    split; [|congruence]. rewrite He2, He1. by destruct (engine w).
Qed.

(** C4, as the code has it.  From a playing engine, [pause()], any number
    of frames of the host's loop, then [resume()]: the snapshot (status,
    score, level, lines cleared, board, current and next piece) is what it
    was, and [lastFallTime] has grown by the pause duration as the code
    computes it: the clock reading taken by [resume] minus the one taken by
    [pause], rounded to a double, is added, and the sum is rounded to a
    double.  When that difference and that sum are doubles themselves, the
    shift is exactly the pause duration. *)
Theorem pause_resume_round_trip (w : World) (n : nat) :
  status (engine w) = Playing ->
  exists w1,
    frames random now n (pause now w) = Some w1 /\
    status (engine w1) = Paused /\
    getGameState (engine (resume now w1)) = getGameState (engine w) /\
    pauseTime (engine w1) = now (nowCalls w) /\
    lastUpdateTime (engine (resume now w1)) = now (nowCalls w1) /\
    lastFallTime (engine (resume now w1))
    = Js.plus (lastFallTime (engine w))
        (Js.minus (now (nowCalls w1)) (now (nowCalls w))) /\
    (Js.isDouble (now (nowCalls w1) - now (nowCalls w)) = true ->
     Js.isDouble (lastFallTime (engine w)
                  + (now (nowCalls w1) - now (nowCalls w))) = true ->
     (lastFallTime (engine (resume now w1))
      == lastFallTime (engine w)
         + (now (nowCalls w1) - now (nowCalls w)))%Q).
Proof.
  intros Hst. destruct w as [e sq calls]. cbn [engine nowCalls] in *.
  assert (Hp : pause now (mkWorld e sq calls)
               = mkWorld (setPauseTime (setStatus e Paused) (now calls)) sq
                   (S calls)).
  { unfold pause. cbn [engine]. by rewrite decide_True. }
  rewrite Hp.
  destruct (frames_paused n
              (mkWorld (setPauseTime (setStatus e Paused) (now calls)) sq
                 (S calls)) eq_refl)
    as (w1 & Hframes & He1 & Hs1).
  exists w1. split; [done|]. destruct w1 as [e1 sq1 calls1].
  cbn [engine sequencer nowCalls] in *.
  set (u := lastUpdateTime e1) in *. clearbody u. subst e1.
  assert (Hfall : lastFallTime
                    (engine
                       (resume now
                          (mkWorld
                             (setLastUpdateTime
                                (setPauseTime (setStatus e Paused) (now calls))
                                u) sq1 calls1)))
                  = Js.plus (lastFallTime e)
                      (Js.minus (now calls1) (now calls))).
  { unfold resume. cbn [engine]. rewrite decide_True by done. by destruct e. }
  split; [done|]. split.
  { unfold resume. cbn [engine]. rewrite decide_True by done.
    destruct e. simpl in Hst. subst. done. }
  split; [by destruct e|]. split.
  { unfold resume. cbn [engine]. rewrite decide_True by done. by destruct e. }
  split; [exact Hfall|].
  intros Hdiff Hsum. rewrite Hfall. unfold Js.plus.
  rewrite (fl_comp _ (lastFallTime e + (now calls1 - now calls))%Q)
    by (by rewrite (minus_exact _ _ Hdiff)).
  by apply Qeq_bool_iff in Hsum.
Qed.

(** C4, as stated, fails on a clock with fractional readings: with the
    last fall at 1000.1 ms, a pause at 2000.2 ms and the resume at
    5000.3 ms, [lastFallTime] becomes 4000.2000000000003, which is 2^-43 ms
    more than 1000.1 plus the pause duration, and is not 1000.1 plus the
    double that the code computes as the pause duration either. *)
Lemma pause_resume_shift_rounded :
  status (engine Scenario.fallAt1000_1) = Playing /\
  lastFallTime
    (engine
       (resume Scenario.clockAcrossPause
          (pause Scenario.clockAcrossPause Scenario.fallAt1000_1)))
  = (8796532826859111 # 2199023255552)%Q /\
  (lastFallTime (engine Scenario.fallAt1000_1)
   + (Scenario.clockAcrossPause 1 - Scenario.clockAcrossPause 0)
   == (8796532826859111 # 2199023255552) - (1 # 2 ^ 43))%Q /\
  ~ ((8796532826859111 # 2199023255552)
     == lastFallTime (engine Scenario.fallAt1000_1)
        + (Scenario.clockAcrossPause 1 - Scenario.clockAcrossPause 0))%Q /\
  ~ ((8796532826859111 # 2199023255552)
     == lastFallTime (engine Scenario.fallAt1000_1)
        + Js.minus (Scenario.clockAcrossPause 1)
            (Scenario.clockAcrossPause 0))%Q.
Proof.
  split; [reflexivity|]. split; [by vm_compute|]. split; [by vm_compute|].
  split; by vm_compute.
Qed.

End PauseResume.

(** A running 10x20 game paused at clock reading 0, three frames at 250,
    500 and 750, resumed at 1000: the fall reference moves from 0 to 1000. *)
Lemma pause_resume_round_trip_witness :
  exists w1,
    GameEngine.frames (fun _ => 0%Q) (fun k => inject_Z (Z.of_nat k) * 250)%Q 3
      (GameEngine.pause (fun k => inject_Z (Z.of_nat k) * 250)%Q
         (GameEngine.mkWorld
            (GameEngine.setIsRunning
               (GameEngine.setStatus
                  (GameEngine.create (GameEngine.mkConfig 10 20 1000 50 500))
                  GameEngine.Playing) true)
            (TetrominoUtils.mkSequencer [] 0) 0))
    = Some w1 /\
    (GameEngine.lastFallTime
       (GameEngine.engine
          (GameEngine.resume (fun k => inject_Z (Z.of_nat k) * 250)%Q w1))
     == 1000)%Q /\
    GameEngine.status
      (GameEngine.engine
         (GameEngine.resume (fun k => inject_Z (Z.of_nat k) * 250)%Q w1))
    = GameEngine.Playing.
Proof.
  destruct (pause_resume_round_trip (fun _ => 0%Q)
              (fun k => inject_Z (Z.of_nat k) * 250)%Q
              (GameEngine.mkWorld
                 (GameEngine.setIsRunning
                    (GameEngine.setStatus
                       (GameEngine.create
                          (GameEngine.mkConfig 10 20 1000 50 500))
                       GameEngine.Playing) true)
                 (TetrominoUtils.mkSequencer [] 0) 0) 3 eq_refl)
    as (w1 & Hframes & _ & Hsnap & _ & _ & _ & Hexact).
  exists w1. split; [exact Hframes|]. split.
  - vm_compute in Hframes. injection Hframes as <-.
    rewrite Hexact by (by vm_compute). reflexivity.
  - exact (f_equal GameEngine.snapStatus Hsnap).
Defined.

(** ** Engine: one call of [update] *)

Section Update.
Import GameEngine.

Variable random : nat -> Q.
Variable now : nat -> Q.
Hypothesis random_range : forall k, (0 <= random k /\ random k < 1)%Q.

Ltac engine_simpl :=
  cbn [engine sequencer nowCalls setEngine config boardManager
       tetrominoManager scoreManager status fallSpeed lastFallTime
       lastUpdateTime lockTimer isLockDelayActive isSoftDropping pauseTime
       isRunning lastClearedRows setBoardManager setTetrominoManager
       setScoreManager setStatus setFallSpeed setLastFallTime
       setLastUpdateTime setLockDelay setIsSoftDropping setPauseTime
       setIsRunning setLastClearedRows] in *.

Lemma gameOver_frame (e : GameEngine) :
  status (gameOver e) = GameOver /\
  boardManager (gameOver e) = boardManager e /\
  scoreManager (gameOver e) = scoreManager e /\
  config (gameOver e) = config e.
Proof. unfold gameOver. case_decide; by engine_simpl. Qed.

(** The spawn step of [update] on an engine without a current piece. *)
Lemma spawnIfNeeded_spawns (w : World) :
  TetrominoManager.currentPiece (tetrominoManager (engine w)) = None ->
  exists (goOn : bool) (w1 : World),
    spawnIfNeeded random w = Some (goOn, w1) /\
    boardManager (engine w1) = boardManager (engine w) /\
    scoreManager (engine w1) = scoreManager (engine w) /\
    config (engine w1) = config (engine w) /\
    if goOn
    then status (engine w1) = status (engine w) /\
         isLockDelayActive (engine w1) = false /\
         lockTimer (engine w1) = 0%Q /\
         is_Some (TetrominoManager.currentPiece (tetrominoManager (engine w1)))
    else status (engine w1) = GameOver.
Proof.
  intros Hnone. destruct w as [e sq calls]. engine_simpl.
  unfold spawnIfNeeded, TetrominoManager.hasActivePiece. engine_simpl.
  rewrite Hnone. cbn [negb].
  destruct (spawnPiece_returns random random_range (boardManager e)
              (tetrominoManager e) sq)
    as (cand & next & sq' & Hspawn).
  rewrite Hspawn. cbn [mbind option_bind].
  destruct (BoardManager.isValidPosition (boardManager e) cand).
  - destruct (checkGameOverConditions _) eqn:Hover.
    + eexists false, _. split; [done|]. engine_simpl.
      edestruct gameOver_frame as (-> & -> & -> & ->). by engine_simpl.
    + eexists true, _. split; [done|]. by engine_simpl.
  - eexists false, _. split; [done|]. engine_simpl.
    edestruct gameOver_frame as (-> & -> & -> & ->). by engine_simpl.
Qed.

(** The falling step on a piece whose lock delay has not started: the
    timer stays at zero, whether or not the delay gets armed. *)
Lemma updateFalling_fresh (deltaTime : Q) (w : World) :
  isLockDelayActive (engine w) = false ->
  lockTimer (engine w) = 0%Q ->
  is_Some (TetrominoManager.currentPiece (tetrominoManager (engine w))) ->
  boardManager (engine (updateFalling now deltaTime w)) = boardManager (engine w) /\
  scoreManager (engine (updateFalling now deltaTime w)) = scoreManager (engine w) /\
  config (engine (updateFalling now deltaTime w)) = config (engine w) /\
  status (engine (updateFalling now deltaTime w)) = status (engine w) /\
  lockTimer (engine (updateFalling now deltaTime w)) = 0%Q /\
  is_Some (TetrominoManager.currentPiece
             (tetrominoManager (engine (updateFalling now deltaTime w)))).
Proof.
  intros Hoff Htimer [p Hp]. destruct w as [e sq calls]. engine_simpl.
  unfold updateFalling, performanceNow. engine_simpl.
  destruct (Qle_bool _ _); engine_simpl; [|by eauto].
  unfold tryMovePieceDown, TetrominoManager.hasActivePiece,
    TetrominoManager.moveDown.
  rewrite Hp, Hoff. cbn [negb].
  destruct (BoardManager.canMove _ _ _ _); engine_simpl; by eauto.
Qed.

(** The lock-delay step does not lock when the timer starts from zero and
    the frame is shorter than the lock delay. *)
Lemma updateLockDelay_short (deltaTime : Q) (e : GameEngine) :
  lockTimer e = 0%Q -> (deltaTime < lockDelay (config e))%Q ->
  boardManager (updateLockDelay deltaTime e) = boardManager e /\
  scoreManager (updateLockDelay deltaTime e) = scoreManager e /\
  tetrominoManager (updateLockDelay deltaTime e) = tetrominoManager e /\
  status (updateLockDelay deltaTime e) = status e.
Proof.
  intros Htimer Hshort. unfold updateLockDelay.
  destruct (isLockDelayActive e && bool_decide (status e = Playing)); [|done].
  engine_simpl. rewrite Htimer.
  destruct (Qle_bool _ _) eqn:Hle; [|done].
  apply Qle_bool_iff in Hle. lra.
Qed.

(** C2, as the code has it.  A call of [update] in the playing status runs
    the spawn check, the falling step and the lock-delay step in that
    order; when the call has to spawn a piece and [deltaTime] is smaller
    than the lock delay, the call returns with the board and the score
    manager (its count of placed pieces included) untouched, and if the
    game is still playing the spawned piece is still the current one. *)
Theorem update_spawned_piece_not_locked (deltaTime : Q) (w : World) :
  status (engine w) = Playing ->
  TetrominoManager.currentPiece (tetrominoManager (engine w)) = None ->
  (deltaTime < lockDelay (config (engine w)))%Q ->
  update random now deltaTime w
  = match spawnIfNeeded random w with
    | None => None
    | Some (false, w1) => Some w1
    | Some (true, w1) =>
      Some (setEngine (updateFalling now deltaTime w1)
              (updateLockDelay deltaTime
                 (engine (updateFalling now deltaTime w1))))
    end /\
  exists w',
    update random now deltaTime w = Some w' /\
    boardManager (engine w') = boardManager (engine w) /\
    scoreManager (engine w') = scoreManager (engine w) /\
    (status (engine w') = Playing ->
     is_Some (TetrominoManager.currentPiece (tetrominoManager (engine w')))).
Proof.
  intros Hplaying Hnone Hshort.
  assert (Hupdate : update random now deltaTime w
    = match spawnIfNeeded random w with
      | None => None
      | Some (false, w1) => Some w1
      | Some (true, w1) =>
        Some (setEngine (updateFalling now deltaTime w1)
                (updateLockDelay deltaTime
                   (engine (updateFalling now deltaTime w1))))
      end).
  { unfold update. rewrite bool_decide_eq_true_2 by done. cbn [negb].
    destruct (spawnIfNeeded random w) as [[[] w1]|]; done. }
  split; [exact Hupdate|]. rewrite Hupdate.
  destruct (spawnIfNeeded_spawns w Hnone)
    as ([] & w1 & -> & Hbm & Hsm & Hcfg & Hrest).
  - destruct Hrest as (Hst & Hoff & Htimer & Hpiece).
    destruct (updateFalling_fresh deltaTime w1 Hoff Htimer Hpiece)
      as (Hbm2 & Hsm2 & Hcfg2 & Hst2 & Htimer2 & Hpiece2).
    set (w2 := updateFalling now deltaTime w1) in *.
    destruct (updateLockDelay_short deltaTime (engine w2) Htimer2)
      as (Hbm3 & Hsm3 & Htm3 & Hst3); [congruence|].
    eexists. split; [done|]. destruct w2 as [e2 sq2 calls2]. engine_simpl.
    rewrite Hbm3, Hsm3, Htm3. repeat split; congruence.
  - exists w1. repeat split; [done | done |]. congruence.
Qed.

End Update.

(** A frame of 16 ms on the scenario: the I piece spawns over the stack
    and is not locked. *)
Lemma update_spawned_piece_not_locked_witness :
  exists w',
    GameEngine.update Scenario.randomZero Scenario.clockAt1000 16
      Scenario.awaitingSpawn = Some w' /\
    GameEngine.boardManager (GameEngine.engine w') = Scenario.stackBelowSpawn /\
    GameEngine.scoreManager (GameEngine.engine w')
    = ScoreManager.create (ScoreManager.mkConfig 10 1) /\
    (GameEngine.status (GameEngine.engine w') = GameEngine.Playing ->
     is_Some (TetrominoManager.currentPiece
                (GameEngine.tetrominoManager (GameEngine.engine w')))).
Proof.
  apply (update_spawned_piece_not_locked Scenario.randomZero
           Scenario.clockAt1000
           ltac:(intros k; split; [apply Qle_refl | reflexivity])
           16 Scenario.awaitingSpawn eq_refl eq_refl eq_refl).
Defined.

(** C2, as stated, fails for a long frame.  On the same scenario with
    [deltaTime] = 600 ms (above the lock delay of 500 ms) the I piece is
    spawned, found blocked by the falling step, and locked by the
    lock-delay step of the same call: its cells are on the board, the
    count of placed pieces is 1 and there is no current piece left. *)
Lemma update_locks_spawned_piece :
  TetrominoManager.currentPiece
    (GameEngine.tetrominoManager (GameEngine.engine Scenario.awaitingSpawn))
  = None /\
  BoardManager.cellAt
    (GameEngine.boardManager (GameEngine.engine Scenario.awaitingSpawn)) 3 1
  = Some None /\
  exists w',
    GameEngine.update Scenario.randomZero Scenario.clockAt1000 600
      Scenario.awaitingSpawn = Some w' /\
    BoardManager.cellAt (GameEngine.boardManager (GameEngine.engine w')) 3 1
    = Some (Some (BoardManager.mkCell Tetrominoes.TI "#00F5FF")) /\
    ScoreManager.totalPiecesPlaced
      (GameEngine.scoreManager (GameEngine.engine w')) = 1 /\
    TetrominoManager.currentPiece
      (GameEngine.tetrominoManager (GameEngine.engine w')) = None.
Proof.
  split; [reflexivity|]. split; [reflexivity|].
  eexists. split; [vm_compute; reflexivity|].
  split; [reflexivity|]. split; reflexivity.
Qed.

(** * Further properties of the code *)

(** ** Pieces: blocks, translation and rotation *)

Section PieceGeometry.
Import Tetrominoes TetrominoUtils.

Lemma concat_imap_fmap {A B C} (g : B -> C) (f : nat -> A -> list B)
  (l : list A) :
  g <$> concat (imap f l) = concat (imap (fun i a => g <$> f i a) l).
Proof.
  revert f. induction l as [|a l IH]; intros f; [done|].
  simpl. by rewrite fmap_app, IH.
Qed.

(** The cells of a piece are the filled entries of its shape, offset by its
    anchor. *)
Lemma getTetrominoBlocks_elem (t : Tetromino) (b : Z * Z) :
  b ∈ getTetrominoBlocks t <->
  exists (row col : nat) (cells : list nat),
    shape t !! row = Some cells /\ cells !! col = Some 1%nat /\
    b = (x t + Z.of_nat col, y t + Z.of_nat row).
Proof.
  unfold getTetrominoBlocks. rewrite list_elem_of_In, in_concat. split.
  - intros (l & Hl & Hb). apply list_elem_of_In, elem_of_lookup_imap in Hl
      as (row & cells & -> & Hrow).
    apply in_concat in Hb as (l' & Hl' & Hb).
    apply list_elem_of_In, elem_of_lookup_imap in Hl' as (col & v & -> & Hcol).
    destruct (v =? 1)%nat eqn:Hv; [|by destruct Hb].
    apply Nat.eqb_eq in Hv. subst v. destruct Hb as [<-|[]].
    by exists row, col, cells.
  - intros (row & col & cells & Hrow & Hcol & ->).
    eexists. split.
    + apply list_elem_of_In, elem_of_lookup_imap. by exists row, cells.
    + apply in_concat. eexists. split.
      * apply list_elem_of_In, elem_of_lookup_imap. by exists col, 1%nat.
      * by left.
Qed.

(** X1.  Moving a piece moves each of its cells by the same offset, in the
    same order. *)
Theorem getTetrominoBlocks_moveTetromino (t : Tetromino) (deltaX deltaY : Z) :
  getTetrominoBlocks (moveTetromino t deltaX deltaY)
  = (fun b : Z * Z => (b.1 + deltaX, b.2 + deltaY)) <$> getTetrominoBlocks t.
Proof.
  unfold getTetrominoBlocks, moveTetromino. cbn [x y shape].
  rewrite concat_imap_fmap. f_equal. apply imap_ext. intros row cells _.
  rewrite concat_imap_fmap. f_equal. apply imap_ext. intros col v _.
  destruct (v =? 1)%nat; [|done]. simpl. do 2 f_equal; lia.
Qed.

(** A piece as [createTetromino] and the rotations make it: a rotation
    state of the catalog with the shape the catalog has for it. *)
Lemma createTetromino_catalog (t : TetrominoType) (px py : Z) (r : nat)
  (p : Tetromino) :
  createTetromino t px py r = Some p ->
  (rotation p <= MAX_ROTATION_STATE)%nat /\
  shape p = shapeAt (TetrominoUtils.type p) (rotation p) /\
  color p = TETROMINO_COLORS (TetrominoUtils.type p).
Proof.
  unfold createTetromino. destruct (MAX_ROTATION_STATE <? r)%nat eqn:E; [done|].
  intros [= <-]. apply Nat.ltb_ge in E. done.
Qed.

(** X2.  On a piece in a rotation state 0..3 that carries the catalog's
    shape for it, the two rotations undo each other and four clockwise
    rotations give the piece back. *)
Theorem rotate_round_trip (t : Tetromino) :
  (rotation t <= MAX_ROTATION_STATE)%nat ->
  shape t = shapeAt (TetrominoUtils.type t) (rotation t) ->
  rotateTetrominoCounterClockwise (rotateTetromino t) = t /\
  rotateTetromino (rotateTetrominoCounterClockwise t) = t /\
  rotateTetromino (rotateTetromino (rotateTetromino (rotateTetromino t))) = t.
Proof.
  destruct t as [ty px py r c sh]. unfold MAX_ROTATION_STATE. cbn.
  intros Hr ->.
  destruct r as [|[|[|[|r]]]]; [..|lia]; repeat split; reflexivity.
Qed.

Lemma rotate_round_trip_witness :
  rotateTetrominoCounterClockwise
    (rotateTetromino
       (mkTetromino TS 4 7 3 (TETROMINO_COLORS TS) (shapeAt TS 3)))
  = mkTetromino TS 4 7 3 (TETROMINO_COLORS TS) (shapeAt TS 3).
Proof.
  apply (rotate_round_trip
           (mkTetromino TS 4 7 3 (TETROMINO_COLORS TS) (shapeAt TS 3))).
  - unfold MAX_ROTATION_STATE. simpl. lia.
  - reflexivity.
Defined.

End PieceGeometry.

(** ** The two position checks *)

Section TwoValidityChecks.
Import TetrominoUtils.

(** X3.  On a board with as many rows as its height says, the stand-alone
    [isValidPosition] of tetrominoUtils.js and the board manager's method
    give the same answer for every piece. *)
Theorem isValidPosition_agree (bm : BoardManager.BoardManager) (t : Tetromino) :
  length (BoardManager.board bm) = BoardManager.height bm ->
  TetrominoUtilsBoard.isValidPosition t (BoardManager.board bm)
    (BoardManager.width bm) (BoardManager.height bm)
  = BoardManager.isValidPosition bm t.
Proof.
  intros Hlen.
  unfold TetrominoUtilsBoard.isValidPosition, BoardManager.isValidPosition.
  induction (getTetrominoBlocks t) as [|[bx by_] blocks IH]; [done|].
  cbn [forallb fst snd]. rewrite IH. f_equal.
  unfold BoardManager.isOccupied, BoardManager.isWithinBounds,
    BoardManager.cellAt.
  destruct (bx <? 0) eqn:E1, (Z.of_nat (BoardManager.width bm) <=? bx) eqn:E2,
    (by_ <? 0) eqn:E3, (Z.of_nat (BoardManager.height bm) <=? by_) eqn:E4;
    repeat match goal with
    | H : (_ <? _) = _ |- _ =>
        first [apply Z.ltb_lt in H | apply Z.ltb_ge in H]
    | H : (_ <=? _) = _ |- _ =>
        first [apply Z.leb_le in H | apply Z.leb_gt in H]
    end;
    cbn [orb];
    try (rewrite (proj2 (Z.leb_gt 0 bx)) by lia; done);
    try (rewrite (proj2 (Z.leb_le 0 bx)) by lia;
         rewrite ?(proj2 (Z.ltb_ge bx _)) by lia;
         rewrite ?(proj2 (Z.ltb_lt bx _)) by lia;
         rewrite ?(proj2 (Z.leb_gt 0 by_)) by lia;
         rewrite ?(proj2 (Z.leb_le 0 by_)) by lia;
         rewrite ?(proj2 (Z.ltb_ge by_ _)) by lia;
         rewrite ?(proj2 (Z.ltb_lt by_ _)) by lia;
         cbn [andb negb]; try done).
  assert (Hrow : (Z.to_nat by_ < length (BoardManager.board bm))%nat) by lia.
  destruct (lookup_lt_is_Some_2 _ _ Hrow) as [row ->]. cbn [mbind option_bind].
  by destruct (BoardManager.isNull (row !! Z.to_nat bx)).
Qed.

Lemma isValidPosition_agree_witness :
  TetrominoUtilsBoard.isValidPosition
    (mkTetromino Tetrominoes.TI 3 0 0
       (Tetrominoes.TETROMINO_COLORS Tetrominoes.TI)
       (shapeAt Tetrominoes.TI 0))
    (BoardManager.board Scenario.holeBelowFullRow) 10 20
  = BoardManager.isValidPosition Scenario.holeBelowFullRow
      (mkTetromino Tetrominoes.TI 3 0 0
         (Tetrominoes.TETROMINO_COLORS Tetrominoes.TI)
         (shapeAt Tetrominoes.TI 0)).
Proof.
  apply (isValidPosition_agree Scenario.holeBelowFullRow). reflexivity.
Defined.

End TwoValidityChecks.

(** ** Piece sequencer: inside a bag *)

Section BagWindow.
Import Tetrominoes TetrominoUtils.

Variable random : nat -> Q.

(** The contract of [Math.random]: a number in [0, 1). *)
Hypothesis random_range : forall k, (0 <= random k /\ random k < 1)%Q.

(** Draws from a bag that holds at least that many pieces pop them from
    its end and never call [Math.random]. *)
Lemma draws_suffix (bag tail : list TetrominoType) (k : nat) :
  draws random (length tail) (mkSequencer (bag ++ tail) k)
  = (Some <$> reverse tail, mkSequencer bag k).
Proof.
  induction tail as [|t tail IH] using rev_ind.
  - by rewrite app_nil_r.
  - rewrite length_app, Nat.add_1_r, draws_S, app_assoc,
      getRandomTetrominoType_pop.
    cbn [fst snd]. by rewrite IH, reverse_snoc.
Qed.

(** X4.  Up to seven draws after a bag boundary never repeat a type, and
    the pending bag holds exactly the types not handed out yet. *)
Theorem bag_partial_draws (n k : nat) :
  (1 <= n <= 7)%nat ->
  let result := draws random n (mkSequencer [] k) in
  exists drawn : list TetrominoType,
    result.1 = Some <$> drawn /\
    length drawn = n /\
    NoDup drawn /\
    drawn ++ pieceBag result.2 ≡ₚ ALL_TETROMINO_TYPES.
Proof.
  intros Hn result. unfold result. clear result.
  pose proof (generatePieceBag_Permutation random random_range k) as Hperm.
  pose proof (Permutation_length Hperm) as Hlen.
  destruct n as [|n]; [lia|].
  rewrite draws_S, getRandomTetrominoType_refill.
  destruct (generatePieceBag random k) as [bag k']. cbn [fst snd] in *.
  destruct bag as [|t bag _] using rev_ind; [done|].
  rewrite length_app, Nat.add_1_r in Hlen. cbn [length] in Hlen.
  rewrite last_snoc, removelast_last.
  change (length ALL_TETROMINO_TYPES) with 7%nat in Hlen.
  assert (Hd : length (drop (length bag - n) bag) = n)
    by (rewrite length_drop; lia).
  assert (Hdraws : draws random n (mkSequencer bag k')
                   = (Some <$> reverse (drop (length bag - n) bag),
                      mkSequencer (take (length bag - n) bag) k')).
  { rewrite <- (take_drop (length bag - n) bag) at 1.
    rewrite <- Hd at 1. apply draws_suffix. }
  rewrite Hdraws. cbn [fst snd pieceBag].
  exists (t :: reverse (drop (length bag - n) bag)).
  split; [done|]. split; [cbn [length]; by rewrite length_reverse, Hd|].
  assert (Hall : t :: reverse (drop (length bag - n) bag)
                   ++ take (length bag - n) bag ≡ₚ ALL_TETROMINO_TYPES).
  { rewrite <- Hperm, reverse_Permutation, <- Permutation_cons_append.
    constructor. rewrite Permutation_app_comm. by rewrite take_drop. }
  split; [|exact Hall].
  assert (Hnd : NoDup (t :: reverse (drop (length bag - n) bag)
                         ++ take (length bag - n) bag)).
  { rewrite Hall. by apply (bool_decide_unpack _). }
  rewrite app_comm_cons in Hnd. by apply NoDup_app in Hnd as [? _].
Qed.

End BagWindow.

(** With [Math.random] stuck at 0, the first three draws. *)
Lemma bag_partial_draws_witness :
  exists drawn : list Tetrominoes.TetrominoType,
    (TetrominoUtils.draws Scenario.randomZero 3
       (TetrominoUtils.mkSequencer [] 0)).1 = Some <$> drawn /\
    length drawn = 3%nat /\
    NoDup drawn /\
    drawn ++ TetrominoUtils.pieceBag
               (TetrominoUtils.draws Scenario.randomZero 3
                  (TetrominoUtils.mkSequencer [] 0)).2
      ≡ₚ Tetrominoes.ALL_TETROMINO_TYPES.
Proof.
  apply (bag_partial_draws Scenario.randomZero
           ltac:(intros k; split; [apply Qle_refl | reflexivity]) 3 0).
  lia.
Defined.

(** ** Board: locking a piece *)

Section Placement.
Import BoardManager.

Lemma setCell_lookup (rows : list Row) (x y : Z) (c : Cell) (col row : nat) :
  setCell rows x y c !! row ≫= (fun r : Row => r !! col)
  = if decide (col = Z.to_nat x /\ row = Z.to_nat y)
    then (fun _ => Some c) <$> (rows !! row ≫= fun r : Row => r !! col)
    else rows !! row ≫= fun r : Row => r !! col.
Proof.
  unfold setCell. destruct (decide (row = Z.to_nat y)) as [->|Hrow].
  - rewrite list_lookup_alter_eq.
    destruct (rows !! Z.to_nat y) as [r|]; cbn [fmap option_fmap option_map
      mbind option_bind]; [|by destruct (decide _)].
    destruct (decide (col = Z.to_nat x)) as [->|Hcol].
    + rewrite decide_True by done.
      destruct (r !! Z.to_nat x) eqn:E.
      * apply lookup_lt_Some in E. by rewrite list_lookup_insert_eq.
      * rewrite list_insert_ge by by apply lookup_ge_None. by rewrite E.
    + rewrite decide_False by tauto. by rewrite list_lookup_insert_ne.
  - rewrite list_lookup_alter_ne by done. rewrite decide_False by tauto. done.
Qed.

(** Writing the cells of a list of in-range blocks: the written cells hold
    the new value, every other cell keeps its own. *)
Lemma placeBlocks_lookup (blocks : list (Z * Z)) (rows : list Row) (c : Cell)
  (col row : nat) :
  (forall b, b ∈ blocks ->
     0 <= b.1 /\ 0 <= b.2 /\
     is_Some (rows !! Z.to_nat b.2 ≫= fun r : Row => r !! Z.to_nat b.1)) ->
  fold_left (fun rows (b : Z * Z) => setCell rows b.1 b.2 c) blocks rows
    !! row ≫= (fun r : Row => r !! col)
  = if bool_decide ((Z.of_nat col, Z.of_nat row) ∈ blocks)
    then Some (Some c)
    else rows !! row ≫= fun r : Row => r !! col.
Proof.
  revert rows. induction blocks as [|[bx by_] blocks IH]; intros rows Hin.
  - rewrite bool_decide_eq_false_2 by apply not_elem_of_nil. done.
  - cbn [fold_left fst snd]. rewrite IH.
    + destruct (Hin (bx, by_) ltac:(left)) as (Hx & Hy & [old Hold]).
      cbn [fst snd] in *.
      rewrite setCell_lookup.
      destruct (decide (col = Z.to_nat bx /\ row = Z.to_nat by_)) as [[-> ->]|Hne].
      * rewrite Hold. cbn [fmap option_fmap option_map].
        rewrite (bool_decide_eq_true_2 (_ ∈ (bx, by_) :: blocks)).
        -- by destruct (bool_decide _).
        -- rewrite !Z2Nat.id by done. left.
      * destruct (bool_decide_reflect
                    ((Z.of_nat col, Z.of_nat row) ∈ blocks)) as [Hb|Hb].
        -- rewrite bool_decide_eq_true_2; [done|by right].
        -- rewrite bool_decide_eq_false_2; [done|].
           intros [[= <- <-]|?]%elem_of_cons; [|done].
           apply Hne. by rewrite !Nat2Z.id.
    + intros b Hb. destruct (Hin b ltac:(by right)) as (Hx & Hy & Hsome).
      split; [done|]. split; [done|].
      rewrite setCell_lookup. destruct (decide _); [|done].
      by apply fmap_is_Some.
Qed.

(** A block of a piece in a valid position is an existing, empty cell. *)
Lemma valid_block_cell (bm : BoardManager) (t : TetrominoUtils.Tetromino)
  (b : Z * Z) :
  isValidPosition bm t = true -> b ∈ TetrominoUtils.getTetrominoBlocks t ->
  0 <= b.1 < Z.of_nat (width bm) /\ 0 <= b.2 < Z.of_nat (height bm) /\
  cellAt bm (Z.to_nat b.1) (Z.to_nat b.2) = Some None.
Proof.
  intros Hvalid Hb.
  destruct (proj1 (isValidPosition_blocks bm t) Hvalid b Hb) as [Hw Hocc].
  pose proof (proj1 (isWithinBounds_spec bm b.1 b.2) Hw) as [Hx Hy].
  split; [done|]. split; [done|].
  unfold isOccupied in Hocc. rewrite Hw in Hocc. cbn [negb] in Hocc.
  destruct (cellAt bm (Z.to_nat b.1) (Z.to_nat b.2)) as [[cell|]|]; done.
Qed.

Lemma placePiece_cellAt (bm : BoardManager) (t : TetrominoUtils.Tetromino)
  (col row : nat) :
  isValidPosition bm t = true ->
  cellAt (placePiece bm t).2 col row
  = if bool_decide ((Z.of_nat col, Z.of_nat row)
                      ∈ TetrominoUtils.getTetrominoBlocks t)
    then Some (Some (mkCell (TetrominoUtils.type t) (TetrominoUtils.color t)))
    else cellAt bm col row.
Proof.
  intros Hvalid. unfold placePiece. rewrite Hvalid. cbn [negb snd].
  unfold cellAt. cbn [board]. apply placeBlocks_lookup.
  intros b Hb. destruct (valid_block_cell bm t b Hvalid Hb) as (Hx & Hy & Hc).
  unfold cellAt in Hc. rewrite Hc. split; [lia|]. split; [lia|]. by eexists.
Qed.

(** X5.  [placePiece] answers whether the position is valid.  When it is
    not, the board is untouched; when it is, exactly the cells of the piece
    change, each to the piece's type and colour. *)
Theorem placePiece_cells (bm : BoardManager) (t : TetrominoUtils.Tetromino) :
  (placePiece bm t).1 = isValidPosition bm t /\
  (isValidPosition bm t = false -> (placePiece bm t).2 = bm) /\
  width (placePiece bm t).2 = width bm /\
  height (placePiece bm t).2 = height bm /\
  (isValidPosition bm t = true ->
   forall col row : nat,
     cellAt (placePiece bm t).2 col row
     = if bool_decide ((Z.of_nat col, Z.of_nat row)
                         ∈ TetrominoUtils.getTetrominoBlocks t)
       then Some (Some (mkCell (TetrominoUtils.type t)
                               (TetrominoUtils.color t)))
       else cellAt bm col row).
Proof.
  split; [|split; [|split; [|split]]].
  - unfold placePiece. by destruct (isValidPosition bm t).
  - intros H. unfold placePiece. by rewrite H.
  - unfold placePiece. by destruct (isValidPosition bm t).
  - unfold placePiece. by destruct (isValidPosition bm t).
  - intros H col row. by apply placePiece_cellAt.
Qed.

(** X6.  After a piece is locked, another piece fits exactly when it
    fitted before and shares no cell with the locked one. *)
Theorem placePiece_blocks_later_pieces (bm : BoardManager)
  (t t' : TetrominoUtils.Tetromino) :
  isValidPosition bm t = true ->
  isValidPosition (placePiece bm t).2 t' = true <->
  isValidPosition bm t' = true /\
  forall b, b ∈ TetrominoUtils.getTetrominoBlocks t' ->
            b ∉ TetrominoUtils.getTetrominoBlocks t.
Proof.
  intros Hvalid.
  assert (Hdim : forall x y, isWithinBounds (placePiece bm t).2 x y
                             = isWithinBounds bm x y).
  { intros x y. unfold placePiece. by rewrite Hvalid. }
  assert (Hocc : forall b : Z * Z, isWithinBounds bm b.1 b.2 = true ->
            isOccupied (placePiece bm t).2 b.1 b.2 = false <->
            isOccupied bm b.1 b.2 = false /\
            b ∉ TetrominoUtils.getTetrominoBlocks t).
  { intros [bx by_] Hw. cbn [fst snd] in *. unfold isOccupied.
    rewrite Hdim, Hw. cbn [negb].
    pose proof (proj1 (isWithinBounds_spec _ _ _) Hw) as [Hx Hy].
    rewrite placePiece_cellAt by done. rewrite !Z2Nat.id by lia.
    destruct (bool_decide_reflect
                ((bx, by_) ∈ TetrominoUtils.getTetrominoBlocks t)); cbn.
    - split; [done|]. by intros [_ ?].
    - split; [done|]. by intros [? _]. }
  rewrite !isValidPosition_blocks. split.
  - intros H. split.
    + intros b Hb. destruct (H b Hb) as [Hw Ho]. rewrite Hdim in Hw.
      split; [done|]. by apply (Hocc b Hw).
    + intros b Hb. destruct (H b Hb) as [Hw Ho]. rewrite Hdim in Hw.
      by apply (Hocc b Hw).
  - intros [H Hdisj] b Hb. destruct (H b Hb) as [Hw Ho]. rewrite Hdim.
    split; [done|]. apply (Hocc b Hw). split; [done|]. by apply Hdisj.
Qed.

End Placement.

Lemma placePiece_blocks_later_pieces_witness :
  BoardManager.isValidPosition
    (BoardManager.placePiece (BoardManager.create 10 20)
       (TetrominoUtils.mkTetromino Tetrominoes.TO 4 17 0 "#FFD700"
          (TetrominoUtils.shapeAt Tetrominoes.TO 0))).2
    (TetrominoUtils.mkTetromino Tetrominoes.TT 4 16 0 "#9932CC"
       (TetrominoUtils.shapeAt Tetrominoes.TT 0)) = false.
Proof.
  destruct (BoardManager.isValidPosition _ _) eqn:E; [|reflexivity].
  apply (placePiece_blocks_later_pieces (BoardManager.create 10 20)
           (TetrominoUtils.mkTetromino Tetrominoes.TO 4 17 0 "#FFD700"
              (TetrominoUtils.shapeAt Tetrominoes.TO 0))
           (TetrominoUtils.mkTetromino Tetrominoes.TT 4 16 0 "#9932CC"
              (TetrominoUtils.shapeAt Tetrominoes.TT 0))
           eq_refl) in E.
  destruct E as [_ E]. exfalso. apply (E (5, 18)); vm_compute.
  - do 2 apply list_elem_of_further. apply list_elem_of_here.
  - apply list_elem_of_here.
Defined.

(** ** Board: what clearing lines keeps *)

Section LineClearingBalance.
Import BoardManager.

Lemma clearLines_wellFormed (bm : BoardManager) :
  wellFormed bm ->
  wellFormed (clearLines bm).2 /\
  width (clearLines bm).2 = width bm /\ height (clearLines bm).2 = height bm.
Proof.
  intros Hwf. destruct (clearLines_board bm Hwf) as (Hboard & Hcount & _).
  assert (Hdim : width (clearLines bm).2 = width bm /\
                 height (clearLines bm).2 = height bm).
  { unfold clearLines. by destruct (length (findCompleteRows bm) =? 0)%nat. }
  split; [|exact Hdim]. destruct Hdim as [Hw Hh]. destruct Hwf as [Hlen Hrows].
  split.
  - rewrite Hboard, Hh, length_app, length_replicate, Hcount, <- Hlen.
    apply filter_split_length.
  - rewrite Hboard, Hw. apply Forall_app. split.
    + apply Forall_replicate. apply length_replicate.
    + apply Forall_forall. intros r [_ Hr]%list_elem_of_filter.
      by apply (proj1 (Forall_forall _ _) Hrows).
Qed.

Lemma clearLines_no_complete_row (bm : BoardManager) :
  wellFormed bm -> (0 < width bm)%nat ->
  findCompleteRows (clearLines bm).2 = [].
Proof.
  intros Hwf Hw.
  destruct (clearLines_wellFormed bm Hwf) as (Hwf' & Hw' & _).
  destruct (clearLines_board bm Hwf) as (Hboard & _ & _).
  apply elem_of_nil_inv. intros i Hi.
  apply (findCompleteRows_elem _ _ Hwf') in Hi as (r & Hr & Hfull).
  apply list_elem_of_lookup_2 in Hr. rewrite Hboard in Hr.
  apply elem_of_app in Hr as [Hr|Hr].
  - apply elem_of_replicate_inv in Hr. subst r. unfold emptyRow in Hfull.
    destruct (width bm) as [|w]; [lia|].
    cbn [replicate] in Hfull. apply Forall_cons in Hfull as [[? [=]] _].
  - by apply list_elem_of_filter in Hr as [Hr _].
Qed.

(** X7.  On a board with at least one column, no complete row is left after
    [clearLines], so a second call clears nothing and leaves the board as
    it is. *)
Theorem clearLines_leaves_no_complete_row (bm : BoardManager) :
  wellFormed bm -> (0 < width bm)%nat ->
  findCompleteRows (clearLines bm).2 = [] /\
  clearLines (clearLines bm).2 = (mkLineClear 0 [], (clearLines bm).2).
Proof.
  intros Hwf Hw.
  pose proof (clearLines_no_complete_row bm Hwf Hw) as Hnone.
  split; [exact Hnone|]. unfold clearLines at 1. by rewrite Hnone.
Qed.

Lemma clearLines_leaves_no_complete_row_witness :
  clearLines (clearLines Scenario.holeBelowFullRow).2
  = (mkLineClear 0 [], (clearLines Scenario.holeBelowFullRow).2).
Proof.
  apply (clearLines_leaves_no_complete_row Scenario.holeBelowFullRow).
  - split; [reflexivity|]. by apply (bool_decide_unpack _).
  - simpl. lia.
Defined.

Lemma fold_left_indices {A St} (g : St -> A -> St) (h : St -> nat -> St)
  (k : nat) (l : list A) (s : St) :
  (forall s i a, l !! i = Some a -> h s (k + i)%nat = g s a) ->
  fold_left h (seq k (length l)) s = fold_left g l s.
Proof.
  revert k s. induction l as [|a l IH]; intros k s H; [done|].
  cbn [length seq fold_left].
  rewrite <- (H s 0%nat a eq_refl), Nat.add_0_r. apply IH.
  intros s' i a' Hi. rewrite <- (H s' (S i) a' Hi). f_equal. lia.
Qed.

Lemma count_row (r : Row) (n : nat) :
  fold_left (fun count (cell : option Cell) =>
               if negb (isNull (Some cell)) then S count else count) r n
  = (n + length (filter is_Some r))%nat.
Proof.
  revert n. induction r as [|cell r IH]; intros n; [cbn; lia|].
  cbn [fold_left]. rewrite IH. destruct cell as [c|]; cbn [isNull negb].
  - rewrite filter_cons_True by by eexists. cbn [length]. lia.
  - rewrite filter_cons_False by by intros [? [=]]. lia.
Qed.

(** The counting loops of [getFilledBlockCount] add up, row by row, the
    cells that hold a block. *)
Lemma getFilledBlockCount_sum (bm : BoardManager) :
  wellFormed bm ->
  getFilledBlockCount bm
  = sum_list_with (fun r : Row => length (filter is_Some r)) (board bm).
Proof.
  intros [Hlen Hrows]. unfold getFilledBlockCount. rewrite <- Hlen.
  rewrite (fold_left_indices
             (fun count (r : Row) => (count + length (filter is_Some r))%nat)).
  - assert (Hsum : forall (l : list Row) (n : nat),
              fold_left (fun count (r : Row) =>
                           (count + length (filter is_Some r))%nat) l n
              = (n + sum_list_with
                       (fun r : Row => length (filter is_Some r)) l)%nat).
    { induction l as [|r l IH]; intros n; [cbn; lia|].
      cbn [fold_left sum_list_with]. rewrite IH. lia. }
    by rewrite Hsum.
  - intros n i r Hi. cbn [Nat.add].
    assert (Hr : length r = width bm).
    { apply (proj1 (Forall_forall _ _) Hrows). by eapply list_elem_of_lookup_2. }
    rewrite <- Hr, <- count_row. apply fold_left_indices.
    intros n' col cell Hcol. cbn [Nat.add]. unfold cellAt. rewrite Hi.
    cbn [mbind option_bind]. by rewrite Hcol.
Qed.

(** X8.  [clearLines] removes exactly the blocks of the rows it reports:
    the filled cells left, plus a full row's worth for each cleared row,
    are the filled cells there were. *)
Theorem clearLines_filled_blocks (bm : BoardManager) :
  wellFormed bm ->
  (getFilledBlockCount (clearLines bm).2
   + count (clearLines bm).1 * width bm)%nat
  = getFilledBlockCount bm.
Proof.
  intros Hwf.
  destruct (clearLines_wellFormed bm Hwf) as (Hwf' & _ & _).
  destruct (clearLines_board bm Hwf) as (Hboard & Hcount & _).
  rewrite !getFilledBlockCount_sum by done.
  rewrite Hboard, Hcount, sum_list_with_app.
  rewrite <- (filter_app_complement (fun r : Row => Forall is_Some r)
                (board bm)) at 4.
  rewrite sum_list_with_app.
  assert (Hempty : forall k, sum_list_with
            (fun r : Row => length (filter is_Some r))
            (replicate k (emptyRow (width bm))) = 0%nat).
  { intros k. induction k as [|k IH]; [done|].
    cbn [replicate sum_list_with]. rewrite IH. unfold emptyRow.
    rewrite (filter_none is_Some); [done|].
    apply Forall_replicate. by intros [? [=]]. }
  rewrite Hempty.
  assert (Hfull : forall l : list Row,
            Forall (fun r : Row => length r = width bm) l ->
            sum_list_with (fun r : Row => length (filter is_Some r))
              (filter (fun r : Row => Forall is_Some r) l)
            = (length (filter (fun r : Row => Forall is_Some r) l)
               * width bm)%nat).
  { induction 1 as [|r l Hr _ IH]; [done|].
    destruct (decide (Forall is_Some r)) as [Hf|Hf].
    - rewrite filter_cons_True by done. cbn [sum_list_with length].
      rewrite IH. destruct (filter_all is_Some r Hf) as [-> _]. lia.
    - by rewrite filter_cons_False. }
  rewrite Hfull by apply Hwf. lia.
Qed.

Lemma clearLines_filled_blocks_witness :
  (getFilledBlockCount (clearLines Scenario.holeBelowFullRow).2
   + count (clearLines Scenario.holeBelowFullRow).1 * 10)%nat
  = getFilledBlockCount Scenario.holeBelowFullRow.
Proof.
  apply (clearLines_filled_blocks Scenario.holeBelowFullRow).
  split; [reflexivity|]. by apply (bool_decide_unpack _).
Defined.

End LineClearingBalance.

(** ** Board: the game-over test *)

Section TopRows.
Import BoardManager.

Lemma isGameOver_spec (bm : BoardManager) :
  wellFormed bm ->
  isGameOver bm = true <->
  exists (col row : nat) (c : Cell),
    (row < 2)%nat /\ cellAt bm col row = Some (Some c).
Proof.
  intros [Hlen Hrows]. unfold isGameOver. rewrite existsb_exists. split.
  - intros (row & Hrow & Hcols).
    apply existsb_exists in Hcols as (col & Hcol & Hc).
    apply in_seq in Hrow. apply in_seq in Hcol.
    destruct (cellAt bm col row) as [[c|]|] eqn:E; cbn in Hc.
    + exists col, row, c. split; [lia|done].
    + done.
    + exfalso. unfold cellAt in E.
      destruct (board bm !! row) as [r|] eqn:Er.
      * assert (length r = width bm)
          by (apply (proj1 (Forall_forall _ _) Hrows);
              by eapply list_elem_of_lookup_2).
        cbn in E. apply lookup_ge_None in E. lia.
      * apply lookup_ge_None in Er. lia.
  - intros (col & row & c & Hrow & Hc). unfold cellAt in Hc.
    destruct (board bm !! row) as [r|] eqn:Er; [|done]. cbn in Hc.
    assert (length r = width bm)
      by (apply (proj1 (Forall_forall _ _) Hrows);
          by eapply list_elem_of_lookup_2).
    pose proof (lookup_lt_Some _ _ _ Er). pose proof (lookup_lt_Some _ _ _ Hc).
    exists row. split; [apply in_seq; lia|].
    apply existsb_exists. exists col. split; [apply in_seq; lia|].
    unfold cellAt. rewrite Er. cbn. by rewrite Hc.
Qed.

(** X9.  Locking a piece in a valid position makes [isGameOver] true
    exactly when it was true already or the piece has a cell in one of the
    top two rows. *)
Theorem placePiece_isGameOver (bm : BoardManager)
  (t : TetrominoUtils.Tetromino) :
  wellFormed bm -> isValidPosition bm t = true ->
  isGameOver (placePiece bm t).2 = true <->
  isGameOver bm = true \/
  exists b, b ∈ TetrominoUtils.getTetrominoBlocks t /\ b.2 < 2.
Proof.
  intros Hwf Hvalid.
  rewrite (isGameOver_spec _ (placePiece_wellFormed bm t Hwf)).
  rewrite (isGameOver_spec bm Hwf). split.
  - intros (col & row & c & Hrow & Hc).
    rewrite placePiece_cellAt in Hc by done.
    destruct (bool_decide_reflect
                ((Z.of_nat col, Z.of_nat row)
                   ∈ TetrominoUtils.getTetrominoBlocks t)) as [Hb|Hb].
    + right. eexists. split; [exact Hb|]. cbn. lia.
    + left. by exists col, row, c.
  - intros [(col & row & c & Hrow & Hc)|(b & Hb & Hrow)].
    + exists col, row. rewrite placePiece_cellAt by done.
      destruct (bool_decide _); eauto.
    + destruct (valid_block_cell bm t b Hvalid Hb) as (Hx & Hy & _).
      exists (Z.to_nat b.1), (Z.to_nat b.2). eexists. split; [lia|].
      rewrite placePiece_cellAt by done. rewrite !Z2Nat.id by lia.
      rewrite bool_decide_eq_true_2; [done|]. by destruct b.
Qed.

Lemma placePiece_isGameOver_witness :
  isGameOver
    (placePiece (create 10 20)
       (TetrominoUtils.mkTetromino Tetrominoes.TI 3 0 0 "#00F5FF"
          (TetrominoUtils.shapeAt Tetrominoes.TI 0))).2 = true.
Proof.
  apply (placePiece_isGameOver (create 10 20)
           (TetrominoUtils.mkTetromino Tetrominoes.TI 3 0 0 "#00F5FF"
              (TetrominoUtils.shapeAt Tetrominoes.TI 0))).
  - apply create_wellFormed.
  - reflexivity.
  - right. exists (3, 1). split; [apply list_elem_of_here|simpl; lia].
Defined.

End TopRows.

(** ** Piece controller: the current piece stays in a valid position *)

Section Controller.
Import Tetrominoes TetrominoUtils TetrominoManager.

Variable random : nat -> Q.

Lemma tryWallKicks_valid (bm : BoardManager.BoardManager)
  (rotated kicked : Tetromino) (offsets : list (Z * Z)) :
  tryWallKicks bm rotated offsets = Some kicked ->
  BoardManager.isValidPosition bm kicked = true.
Proof.
  induction offsets as [|[ox oy] offsets IH]; [done|]. cbn [tryWallKicks].
  unfold BoardManager.canRotate.
  destruct (BoardManager.isValidPosition bm (moveTetromino rotated ox oy))
    eqn:E; [|exact IH].
  by intros [= <-].
Qed.

Lemma setCurrentPiece_fits (bm : BoardManager.BoardManager)
  (tm : TetrominoManager) (p : Tetromino) :
  BoardManager.isValidPosition bm p = true ->
  currentPieceFits bm (setCurrentPiece tm (Some p)).
Proof. intros Hp q [= <-]. exact Hp. Qed.

Lemma moveHorizontal_fits (bm : BoardManager.BoardManager)
  (tm : TetrominoManager) (direction : Z) :
  currentPieceFits bm tm -> currentPieceFits bm (moveHorizontal bm tm direction).2.
Proof.
  intros Hfit. unfold moveHorizontal.
  destruct (currentPiece tm) as [cur|] eqn:Ecur; [|exact Hfit].
  destruct (BoardManager.canMove bm cur _ 0) eqn:E; [|exact Hfit].
  by apply setCurrentPiece_fits.
Qed.

Lemma moveDown_fits (bm : BoardManager.BoardManager) (tm : TetrominoManager) :
  currentPieceFits bm tm -> currentPieceFits bm (moveDown bm tm).2.
Proof.
  intros Hfit. unfold moveDown.
  destruct (currentPiece tm) as [cur|] eqn:Ecur; [|exact Hfit].
  destruct (BoardManager.canMove bm cur 0 1) eqn:E; [|exact Hfit].
  by apply setCurrentPiece_fits.
Qed.

Lemma rotatePiece_fits (bm : BoardManager.BoardManager) (tm : TetrominoManager) :
  currentPieceFits bm tm -> currentPieceFits bm (rotatePiece bm tm).2.
Proof.
  intros Hfit. unfold rotatePiece.
  destruct (currentPiece tm) as [cur|] eqn:Ecur; [|exact Hfit].
  destruct (BoardManager.canRotate bm (rotateTetromino cur)) eqn:E.
  - by apply setCurrentPiece_fits.
  - destruct (tryWallKicks bm _ _) as [kicked|] eqn:Ek; [|exact Hfit].
    apply setCurrentPiece_fits. by eapply tryWallKicks_valid.
Qed.

Lemma hardDropLoop_fits (bm : BoardManager.BoardManager) (fuel : nat)
  (tm tm' : TetrominoManager) (n d : nat) :
  currentPieceFits bm tm -> hardDropLoop fuel bm tm n = Some (d, tm') ->
  currentPieceFits bm tm'.
Proof.
  revert tm n. induction fuel as [|fuel IH]; intros tm n Hfit; [done|].
  cbn [hardDropLoop]. destruct (canMoveDown bm tm).
  - apply IH. by apply moveDown_fits.
  - by intros [= _ <-].
Qed.

Lemma spawnPiece_fits (bm : BoardManager.BoardManager) (tm tm' : TetrominoManager)
  (sq sq' : Sequencer) (r : option Tetromino) :
  spawnPiece random bm tm sq = Some (r, tm', sq') ->
  currentPieceFits bm tm' /\ currentPiece tm' = r.
Proof.
  unfold spawnPiece.
  destruct (match nextPiece tm with
            | Some np => Some (cloneTetromino np, sq)
            | None => createRandomTetromino random 0 0 sq
            end) as [[cur sq1]|]; [|done].
  cbn [mbind option_bind].
  destruct (createRandomTetromino random 0 0 sq1) as [[np sq2]|]; [|done].
  cbn [mbind option_bind].
  destruct (BoardManager.isValidPosition bm _) eqn:E; cbn [negb];
    intros [= <- <- <-]; (split; [|done]).
  - by intros p [= <-].
  - by intros p [=].
Qed.

(** X10.  Whatever the controller does to its current piece leaves it in a
    valid position: a piece that fits the board still fits after
    [moveLeft], [moveRight], [moveDown], [rotatePiece] and [hardDrop],
    whether or not the operation succeeds, and the piece [spawnPiece]
    installs fits too. *)
Theorem controller_keeps_piece_valid (bm : BoardManager.BoardManager)
  (tm : TetrominoManager) :
  currentPieceFits bm tm ->
  currentPieceFits bm (moveLeft bm tm).2 /\
  currentPieceFits bm (moveRight bm tm).2 /\
  currentPieceFits bm (moveDown bm tm).2 /\
  currentPieceFits bm (rotatePiece bm tm).2 /\
  (forall fuel d tm', hardDrop fuel bm tm = Some (d, tm') ->
                      currentPieceFits bm tm') /\
  (forall sq r tm' sq', spawnPiece random bm tm sq = Some (r, tm', sq') ->
                        currentPieceFits bm tm').
Proof.
  intros Hfit.
  split; [by apply moveHorizontal_fits|].
  split; [by apply moveHorizontal_fits|].
  split; [by apply moveDown_fits|].
  split; [by apply rotatePiece_fits|].
  split.
  - intros fuel d tm'. unfold hardDrop.
    destruct (currentPiece tm); [by apply hardDropLoop_fits|].
    by intros [= _ <-].
  - intros sq r tm' sq' H. by apply spawnPiece_fits in H as [? _].
Qed.

Lemma moveTetromino_back (p : Tetromino) (dx dy dx' dy' : Z) :
  dx + dx' = 0 -> dy + dy' = 0 ->
  moveTetromino (moveTetromino p dx dy) dx' dy' = p.
Proof.
  intros Hx Hy. destruct p. unfold moveTetromino.
  cbn [x y type rotation color shape]. f_equal; lia.
Qed.

Lemma setCurrentPiece_back (tm : TetrominoManager) (p q : Tetromino) :
  currentPiece tm = Some p ->
  setCurrentPiece (setCurrentPiece tm (Some q)) (Some p) = tm.
Proof. destruct tm. cbn. by intros ->. Qed.

(** X11.  A horizontal step that succeeded is undone by the opposite step:
    the piece is back where it was, on a board where it fitted. *)
Theorem move_left_right_round_trip (bm : BoardManager.BoardManager)
  (tm : TetrominoManager) :
  currentPieceFits bm tm ->
  ((moveLeft bm tm).1 = true ->
   moveRight bm (moveLeft bm tm).2 = (true, tm)) /\
  ((moveRight bm tm).1 = true ->
   moveLeft bm (moveRight bm tm).2 = (true, tm)).
Proof.
  intros Hfit. unfold moveLeft, moveRight, moveHorizontal.
  destruct (currentPiece tm) as [cur|] eqn:Ecur; [|by split].
  pose proof (Hfit cur Ecur) as Hcur.
  change (0 <? -1) with false. change (0 <? 1) with true. cbv iota.
  split.
  - destruct (BoardManager.canMove bm cur (-1) 0) eqn:E; [|done]. intros _.
    cbn [snd setCurrentPiece currentPiece]. unfold BoardManager.canMove.
    rewrite moveTetromino_back, Hcur by done. f_equal.
    by apply setCurrentPiece_back.
  - destruct (BoardManager.canMove bm cur 1 0) eqn:E; [|done]. intros _.
    cbn [snd setCurrentPiece currentPiece]. unfold BoardManager.canMove.
    rewrite moveTetromino_back, Hcur by done. f_equal.
    by apply setCurrentPiece_back.
Qed.

End Controller.

Lemma controller_keeps_piece_valid_witness :
  TetrominoManager.currentPieceFits (BoardManager.create 10 20)
    (TetrominoManager.rotatePiece (BoardManager.create 10 20)
       (TetrominoManager.mkTetrominoManager
          (Some (TetrominoUtils.mkTetromino Tetrominoes.TT 3 0 0 "#9932CC"
                   (TetrominoUtils.shapeAt Tetrominoes.TT 0)))
          None 3 0)).2.
Proof.
  apply (controller_keeps_piece_valid Scenario.randomZero
           (BoardManager.create 10 20)
           (TetrominoManager.mkTetrominoManager
              (Some (TetrominoUtils.mkTetromino Tetrominoes.TT 3 0 0 "#9932CC"
                       (TetrominoUtils.shapeAt Tetrominoes.TT 0)))
              None 3 0)).
  intros p [= <-]. reflexivity.
Defined.

Lemma move_left_right_round_trip_witness :
  TetrominoManager.moveRight (BoardManager.create 10 20)
    (TetrominoManager.moveLeft (BoardManager.create 10 20)
       (TetrominoManager.mkTetrominoManager
          (Some (TetrominoUtils.mkTetromino Tetrominoes.TT 3 0 0 "#9932CC"
                   (TetrominoUtils.shapeAt Tetrominoes.TT 0)))
          None 3 0)).2
  = (true,
     TetrominoManager.mkTetrominoManager
       (Some (TetrominoUtils.mkTetromino Tetrominoes.TT 3 0 0 "#9932CC"
                (TetrominoUtils.shapeAt Tetrominoes.TT 0)))
       None 3 0).
Proof.
  apply (move_left_right_round_trip (BoardManager.create 10 20)
           (TetrominoManager.mkTetrominoManager
              (Some (TetrominoUtils.mkTetromino Tetrominoes.TT 3 0 0 "#9932CC"
                       (TetrominoUtils.shapeAt Tetrominoes.TT 0)))
              None 3 0)).
  - intros p [= <-]. reflexivity.
  - reflexivity.
Defined.

(** ** Piece controller: dropping *)

Section Dropping.
Import Tetrominoes TetrominoUtils TetrominoManager.

Lemma getTetrominoBlocks_moved (t : Tetromino) (dx dy : Z) (b : Z * Z) :
  b ∈ getTetrominoBlocks t ->
  (b.1 + dx, b.2 + dy) ∈ getTetrominoBlocks (moveTetromino t dx dy).
Proof.
  rewrite !getTetrominoBlocks_elem.
  intros (row & col & cells & Hrow & Hcol & ->).
  exists row, col, cells. split; [done|]. split; [done|].
  cbn [moveTetromino x y fst snd]. f_equal; lia.
Qed.

Lemma moveTetromino_0 (p : Tetromino) : moveTetromino p 0 0 = p.
Proof.
  destruct p. unfold moveTetromino. cbn [x y type rotation color shape].
  f_equal; lia.
Qed.

Lemma moveTetromino_down_add (p : Tetromino) (a b : Z) :
  moveTetromino (moveTetromino p 0 a) 0 b = moveTetromino p 0 (a + b).
Proof.
  unfold moveTetromino. cbn [x y type rotation color shape]. f_equal; lia.
Qed.

Lemma setCurrentPiece_same (tm : TetrominoManager) (p : Tetromino) :
  currentPiece tm = Some p -> setCurrentPiece tm (Some p) = tm.
Proof. destruct tm. cbn. by intros ->. Qed.

(** A piece with a cell cannot fall for ever: within [height] rows there
    is a first position from which the next step down is refused. *)
Lemma landing_exists (bm : BoardManager.BoardManager) (n : nat) :
  forall (q : Tetromino) (b : Z * Z),
    BoardManager.isValidPosition bm q = true -> b ∈ getTetrominoBlocks q ->
    Z.of_nat (BoardManager.height bm) - b.2 <= Z.of_nat n ->
    exists d : nat,
      (d < n)%nat /\
      (forall k : nat, (k <= d)%nat ->
         BoardManager.isValidPosition bm (moveTetromino q 0 (Z.of_nat k)) = true) /\
      BoardManager.isValidPosition bm (moveTetromino q 0 (Z.of_nat d + 1))
      = false.
Proof.
  induction n as [|n IH]; intros q b Hq Hb Hn.
  - destruct (valid_block_cell bm q b Hq Hb) as (_ & Hy & _). lia.
  - destruct (BoardManager.isValidPosition bm (moveTetromino q 0 1)) eqn:E.
    + destruct (IH (moveTetromino q 0 1) (b.1 + 0, b.2 + 1) E
                  (getTetrominoBlocks_moved q 0 1 b Hb))
        as (d & Hd & Hok & Hstop); [cbn; lia|].
      exists (S d). split; [lia|]. split.
      * intros [|k] Hk; [by rewrite moveTetromino_0|].
        specialize (Hok k ltac:(lia)).
        rewrite moveTetromino_down_add in Hok.
        by replace (Z.of_nat (S k)) with (1 + Z.of_nat k) by lia.
      * rewrite moveTetromino_down_add in Hstop.
        by replace (Z.of_nat (S d) + 1) with (1 + (Z.of_nat d + 1)) by lia.
    + exists 0%nat. split; [lia|]. split; [|exact E].
      intros k Hk. replace k with 0%nat by lia. by rewrite moveTetromino_0.
Qed.

Lemma hardDropLoop_lands (bm : BoardManager.BoardManager) (d : nat) :
  forall (fuel : nat) (tm : TetrominoManager) (q : Tetromino) (acc : nat),
    currentPiece tm = Some q ->
    (forall k : nat, (k <= d)%nat ->
       BoardManager.isValidPosition bm (moveTetromino q 0 (Z.of_nat k)) = true) ->
    BoardManager.isValidPosition bm (moveTetromino q 0 (Z.of_nat d + 1))
    = false ->
    (d < fuel)%nat ->
    hardDropLoop fuel bm tm acc
    = Some ((acc + d)%nat,
            setCurrentPiece tm (Some (moveTetromino q 0 (Z.of_nat d)))).
Proof.
  induction d as [|d IH]; intros [|fuel] tm q acc Hcur Hok Hstop Hfuel;
    try lia; cbn [hardDropLoop]; unfold canMoveDown; rewrite Hcur;
    unfold BoardManager.canMoveDown, BoardManager.canMove.
  - change (Z.of_nat 0 + 1) with 1 in Hstop. rewrite Hstop.
    rewrite moveTetromino_0, Nat.add_0_r. by rewrite setCurrentPiece_same.
  - pose proof (Hok 1%nat ltac:(lia)) as H1.
    change (Z.of_nat 1) with 1 in H1. rewrite H1.
    unfold moveDown. rewrite Hcur. unfold BoardManager.canMove. rewrite H1.
    cbn [snd].
    rewrite (IH fuel _ (moveTetromino q 0 1) (S acc)).
    + rewrite moveTetromino_down_add.
      replace (1 + Z.of_nat d) with (Z.of_nat (S d)) by lia.
      replace (S acc + d)%nat with (acc + S d)%nat by lia.
      by destruct tm.
    + done.
    + intros k Hk. rewrite moveTetromino_down_add.
      replace (1 + Z.of_nat k) with (Z.of_nat (S k)) by lia.
      apply Hok. lia.
    + rewrite moveTetromino_down_add.
      by replace (1 + (Z.of_nat d + 1)) with (Z.of_nat (S d) + 1) by lia.
    + lia.
Qed.

Lemma ghostLoop_lands (bm : BoardManager.BoardManager) (d : nat) :
  forall (fuel : nat) (q : Tetromino),
    (forall k : nat, (k <= d)%nat ->
       BoardManager.isValidPosition bm (moveTetromino q 0 (Z.of_nat k)) = true) ->
    BoardManager.isValidPosition bm (moveTetromino q 0 (Z.of_nat d + 1))
    = false ->
    (d < fuel)%nat ->
    ghostLoop fuel bm q = Some (moveTetromino q 0 (Z.of_nat d)).
Proof.
  induction d as [|d IH]; intros [|fuel] q Hok Hstop Hfuel;
    try lia; cbn [ghostLoop]; unfold BoardManager.canMove.
  - change (Z.of_nat 0 + 1) with 1 in Hstop. rewrite Hstop.
    by rewrite moveTetromino_0.
  - pose proof (Hok 1%nat ltac:(lia)) as H1.
    change (Z.of_nat 1) with 1 in H1. rewrite H1.
    assert (Hstep : setTetrominoPosition q (x q) (y q + 1)
                    = moveTetromino q 0 1).
    { unfold setTetrominoPosition, moveTetromino. f_equal; lia. }
    rewrite Hstep, (IH fuel (moveTetromino q 0 1)).
    + rewrite moveTetromino_down_add.
      by replace (1 + Z.of_nat d) with (Z.of_nat (S d)) by lia.
    + intros k Hk. rewrite moveTetromino_down_add.
      replace (1 + Z.of_nat k) with (Z.of_nat (S k)) by lia.
      apply Hok. lia.
    + rewrite moveTetromino_down_add.
      by replace (1 + (Z.of_nat d + 1)) with (Z.of_nat (S d) + 1) by lia.
    + lia.
Qed.

(** X12.  A current piece that fits the board and has at least one cell
    lands: there is a distance [d], less than the board's height, such that
    the piece fits at every step down to [d] and not one step further;
    with [height] loop iterations allowed or more, [hardDrop] returns [d]
    and leaves the piece [d] rows lower, and [getGhostPiece] returns that
    same piece without touching the controller. *)
Theorem hardDrop_lands (bm : BoardManager.BoardManager) (tm : TetrominoManager)
  (p : Tetromino) :
  currentPiece tm = Some p ->
  BoardManager.isValidPosition bm p = true ->
  getTetrominoBlocks p <> [] ->
  exists d : nat,
    (d < BoardManager.height bm)%nat /\
    (forall k : nat, (k <= d)%nat ->
       BoardManager.isValidPosition bm (moveTetromino p 0 (Z.of_nat k)) = true) /\
    BoardManager.isValidPosition bm (moveTetromino p 0 (Z.of_nat d + 1))
    = false /\
    forall fuel : nat, (BoardManager.height bm <= fuel)%nat ->
      hardDrop fuel bm tm
      = Some (d, setCurrentPiece tm (Some (moveTetromino p 0 (Z.of_nat d)))) /\
      getGhostPiece fuel bm tm = Some (Some (moveTetromino p 0 (Z.of_nat d))).
Proof.
  intros Hcur Hp Hblocks.
  destruct (getTetrominoBlocks p) as [|b blocks] eqn:Eb; [done|].
  assert (Hb : b ∈ getTetrominoBlocks p) by (rewrite Eb; left).
  destruct (valid_block_cell bm p b Hp Hb) as (_ & Hy & _).
  destruct (landing_exists bm (BoardManager.height bm) p b Hp Hb ltac:(lia))
    as (d & Hd & Hok & Hstop).
  exists d. split; [done|]. split; [done|]. split; [done|].
  intros fuel Hfuel. split.
  - unfold hardDrop. rewrite Hcur.
    by rewrite (hardDropLoop_lands bm d fuel tm p 0) by (done || lia).
  - unfold getGhostPiece. rewrite Hcur, cloneTetromino_id.
    by rewrite (ghostLoop_lands bm d fuel p) by (done || lia).
Qed.

End Dropping.

(** A T piece at the top of an empty 10x20 board. *)
Lemma hardDrop_lands_witness :
  exists d : nat,
    (d < 20)%nat /\
    (forall k : nat, (k <= d)%nat ->
       BoardManager.isValidPosition (BoardManager.create 10 20)
         (TetrominoUtils.moveTetromino
            (TetrominoUtils.mkTetromino Tetrominoes.TT 3 0 0 "#9932CC"
               (TetrominoUtils.shapeAt Tetrominoes.TT 0)) 0 (Z.of_nat k))
       = true) /\
    BoardManager.isValidPosition (BoardManager.create 10 20)
      (TetrominoUtils.moveTetromino
         (TetrominoUtils.mkTetromino Tetrominoes.TT 3 0 0 "#9932CC"
            (TetrominoUtils.shapeAt Tetrominoes.TT 0)) 0 (Z.of_nat d + 1))
    = false /\
    forall fuel : nat, (20 <= fuel)%nat ->
      TetrominoManager.hardDrop fuel (BoardManager.create 10 20)
        (TetrominoManager.mkTetrominoManager
           (Some (TetrominoUtils.mkTetromino Tetrominoes.TT 3 0 0 "#9932CC"
                    (TetrominoUtils.shapeAt Tetrominoes.TT 0)))
           None 3 0)
      = Some (d,
              TetrominoManager.setCurrentPiece
                (TetrominoManager.mkTetrominoManager
                   (Some (TetrominoUtils.mkTetromino Tetrominoes.TT 3 0 0
                            "#9932CC"
                            (TetrominoUtils.shapeAt Tetrominoes.TT 0)))
                   None 3 0)
                (Some (TetrominoUtils.moveTetromino
                         (TetrominoUtils.mkTetromino Tetrominoes.TT 3 0 0
                            "#9932CC"
                            (TetrominoUtils.shapeAt Tetrominoes.TT 0))
                         0 (Z.of_nat d)))) /\
      TetrominoManager.getGhostPiece fuel (BoardManager.create 10 20)
        (TetrominoManager.mkTetrominoManager
           (Some (TetrominoUtils.mkTetromino Tetrominoes.TT 3 0 0 "#9932CC"
                    (TetrominoUtils.shapeAt Tetrominoes.TT 0)))
           None 3 0)
      = Some (Some (TetrominoUtils.moveTetromino
                      (TetrominoUtils.mkTetromino Tetrominoes.TT 3 0 0
                         "#9932CC"
                         (TetrominoUtils.shapeAt Tetrominoes.TT 0))
                      0 (Z.of_nat d))).
Proof.
  apply (hardDrop_lands (BoardManager.create 10 20)
           (TetrominoManager.mkTetrominoManager
              (Some (TetrominoUtils.mkTetromino Tetrominoes.TT 3 0 0 "#9932CC"
                       (TetrominoUtils.shapeAt Tetrominoes.TT 0)))
              None 3 0)
           (TetrominoUtils.mkTetromino Tetrominoes.TT 3 0 0 "#9932CC"
              (TetrominoUtils.shapeAt Tetrominoes.TT 0))).
  - reflexivity.
  - reflexivity.
  - simpl. discriminate.
Defined.

(** ** Piece controller: predicting a spawn *)

Section SpawnPrediction.
Import Tetrominoes TetrominoUtils TetrominoManager.

Variable random : nat -> Q.
Hypothesis random_range : forall k, (0 <= random k /\ random k < 1)%Q.

(** X13.  With a next piece waiting, [canSpawnPiece()] tells what
    [spawnPiece()] will do: the spawn returns a piece exactly when
    [canSpawnPiece()] is true, and that piece is the waiting one moved to
    the spawn anchor. *)
Theorem canSpawnPiece_predicts_spawn (bm : BoardManager.BoardManager)
  (tm : TetrominoManager) (sq : Sequencer) (np : Tetromino) :
  nextPiece tm = Some np ->
  exists (tm' : TetrominoManager) (sq' : Sequencer),
    spawnPiece random bm tm sq
    = Some (if canSpawnPiece bm tm None
            then Some (setTetrominoPosition np (spawnX tm) (spawnY tm))
            else None,
            tm', sq') /\
    currentPiece tm'
    = (if canSpawnPiece bm tm None
       then Some (setTetrominoPosition np (spawnX tm) (spawnY tm))
       else None).
Proof.
  intros Hnext. unfold spawnPiece, canSpawnPiece. rewrite Hnext.
  cbn [mbind option_bind]. rewrite cloneTetromino_id.
  destruct (createRandomTetromino_total random random_range 0 0 sq)
    as (t' & _ & ->).
  cbn [mbind option_bind].
  destruct (BoardManager.isValidPosition bm
              (setTetrominoPosition np (spawnX tm) (spawnY tm)));
    cbn [negb]; eauto.
Qed.

End SpawnPrediction.

Lemma canSpawnPiece_predicts_spawn_witness :
  exists (tm' : TetrominoManager.TetrominoManager)
         (sq' : TetrominoUtils.Sequencer),
    TetrominoManager.spawnPiece Scenario.randomZero
      Scenario.stackBelowSpawn
      (TetrominoManager.mkTetrominoManager None
         (Some (TetrominoUtils.mkTetromino Tetrominoes.TI 0 0 0 "#00F5FF"
                  (TetrominoUtils.shapeAt Tetrominoes.TI 0)))
         3 0)
      (TetrominoUtils.mkSequencer [] 0)
    = Some (if TetrominoManager.canSpawnPiece Scenario.stackBelowSpawn
                 (TetrominoManager.mkTetrominoManager None
                    (Some (TetrominoUtils.mkTetromino Tetrominoes.TI 0 0 0
                             "#00F5FF"
                             (TetrominoUtils.shapeAt Tetrominoes.TI 0)))
                    3 0) None
            then Some (TetrominoUtils.setTetrominoPosition
                         (TetrominoUtils.mkTetromino Tetrominoes.TI 0 0 0
                            "#00F5FF"
                            (TetrominoUtils.shapeAt Tetrominoes.TI 0)) 3 0)
            else None,
            tm', sq') /\
    TetrominoManager.currentPiece tm'
    = (if TetrominoManager.canSpawnPiece Scenario.stackBelowSpawn
            (TetrominoManager.mkTetrominoManager None
               (Some (TetrominoUtils.mkTetromino Tetrominoes.TI 0 0 0
                        "#00F5FF"
                        (TetrominoUtils.shapeAt Tetrominoes.TI 0)))
               3 0) None
       then Some (TetrominoUtils.setTetrominoPosition
                    (TetrominoUtils.mkTetromino Tetrominoes.TI 0 0 0
                       "#00F5FF"
                       (TetrominoUtils.shapeAt Tetrominoes.TI 0)) 3 0)
       else None).
Proof.
  apply (canSpawnPiece_predicts_spawn Scenario.randomZero
           ltac:(intros k; split; [apply Qle_refl | reflexivity])
           Scenario.stackBelowSpawn
           (TetrominoManager.mkTetrominoManager None
              (Some (TetrominoUtils.mkTetromino Tetrominoes.TI 0 0 0 "#00F5FF"
                       (TetrominoUtils.shapeAt Tetrominoes.TI 0)))
              3 0)
           (TetrominoUtils.mkSequencer [] 0)
           (TetrominoUtils.mkTetromino Tetrominoes.TI 0 0 0 "#00F5FF"
              (TetrominoUtils.shapeAt Tetrominoes.TI 0))).
  reflexivity.
Defined.

(** ** Score keeper: bookkeeping *)

Section ScoreBookkeeping.
Import Js ScoreManager.

(** The two ways a call of [addScore] can go. *)
Lemma addScore_cases (v : value) (sm : ScoreManager) :
  addScore v sm = (0, sm) \/
  exists n : Z,
    1 <= n <= 4 /\
    addScore v sm
    = (getBaseScore n * level sm,
       updateLevel
         (mkScoreManager (config sm) (score sm + getBaseScore n * level sm)
            (level sm) (linesCleared sm + n) (totalPiecesPlaced sm)
            (updateLineClearingStats n (linesClearedByType sm)))).
Proof.
  unfold addScore. destruct (invalidLineCount v) eqn:E; [by left|]. right.
  destruct v as [| |b|q| |[]|s]; try done.
  apply invalidLineCount_number in E as (n & Hn & Hq).
  exists n. split; [done|]. cbn [integerOf].
  by rewrite (Qfloor_of_integer q n Hq).
Qed.

Lemma addScore_consistent (v : value) (sm : ScoreManager) :
  consistent sm ->
  consistent (addScore v sm).2 /\ config (addScore v sm).2 = config sm /\
  totalPiecesPlaced (addScore v sm).2 = totalPiecesPlaced sm.
Proof.
  intros Hc. destruct (addScore_cases v sm) as [E|(n & Hn & E)]; rewrite E;
    [done|].
  split; [|done]. destruct Hc as (Hl & _ & H1 & H2 & H3 & H4).
  unfold consistent, updateLevel.
  cbn [snd config score level linesCleared totalPiecesPlaced
       linesClearedByType].
  split; [|split; [done|]];
    assert (n = 1 \/ n = 2 \/ n = 3 \/ n = 4) as [-> | [-> | [-> | ->]]] by lia;
    cbn [updateLineClearingStats single double triple tetris]; lia.
Qed.

(** X14.  From [reset] on, through any sequence of [addScore] calls with
    arguments of any kind, the books balance: the total of cleared lines
    is singles + 2 doubles + 3 triples + 4 tetrises, the level is
    floor(lines / linesPerLevel) + initialLevel, and neither the
    configuration nor the count of placed pieces is touched.
    [linesPerLevel] is taken not to be zero: the quotient of the source is
    a number of levels only then. *)
Theorem addScores_consistent (sm0 : ScoreManager) (vs : list value) :
  linesPerLevel (config sm0) <> 0 ->
  consistent (addScores vs (reset sm0)) /\
  config (addScores vs (reset sm0)) = config sm0 /\
  totalPiecesPlaced (addScores vs (reset sm0)) = 0.
Proof.
  intros _. induction vs as [|v vs IH] using rev_ind.
  - unfold addScores, consistent, reset.
    cbn [fold_left config score level linesCleared totalPiecesPlaced
         linesClearedByType single double triple tetris].
    change (0 / linesPerLevel (config sm0)) with 0. repeat split; lia.
  - unfold addScores in *. rewrite fold_left_app. cbn [fold_left].
    destruct IH as (Hc & Hcfg & Hp).
    destruct (addScore_consistent v _ Hc) as (Hc' & Hcfg' & Hp').
    split; [done|]. split; congruence.
Qed.

Lemma addScores_consistent_witness :
  consistent
    (addScores [VNum 4; VStr "2"; VNum 1; VNum 3]
       (reset (create (mkConfig 10 1)))).
Proof.
  apply (addScores_consistent (create (mkConfig 10 1))
           [VNum 4; VStr "2"; VNum 1; VNum 3]).
  simpl. lia.
Defined.

(** X15.  In a consistent state with a positive [linesPerLevel] and an
    initial level of at least 1, a call of [addScore] never lowers the
    score, the level or the line total, awards no negative points, and
    leaves the state consistent. *)
Theorem addScore_never_decreases (v : value) (sm : ScoreManager) :
  consistent sm ->
  0 < linesPerLevel (config sm) -> 1 <= initialLevel (config sm) ->
  0 <= (addScore v sm).1 /\
  score sm <= score (addScore v sm).2 /\
  level sm <= level (addScore v sm).2 /\
  linesCleared sm <= linesCleared (addScore v sm).2 /\
  1 <= level (addScore v sm).2 /\
  consistent (addScore v sm).2.
Proof.
  intros Hc Hlpl Hinit.
  pose proof (proj1 (addScore_consistent v sm Hc)) as Hc'.
  destruct Hc as (Hl & Hlevel & H1 & H2 & H3 & H4).
  assert (Hlines : 0 <= linesCleared sm) by lia.
  assert (Hq : 0 <= linesCleared sm / linesPerLevel (config sm))
    by (apply Z.div_pos; lia).
  destruct (addScore_cases v sm) as [E|(n & Hn & E)]; rewrite E in *;
    cbn [fst snd] in *.
  { split; [lia|]. split; [lia|]. split; [lia|]. split; [lia|].
    split; [lia|exact Hc']. }
  unfold updateLevel.
  cbn [config score level linesCleared totalPiecesPlaced linesClearedByType].
  assert (Hbase : 0 <= getBaseScore n)
    by (assert (n = 1 \/ n = 2 \/ n = 3 \/ n = 4) as [-> | [-> | [-> | ->]]] by lia;
        cbn; lia).
  assert (Hmono : linesCleared sm / linesPerLevel (config sm)
                  <= (linesCleared sm + n) / linesPerLevel (config sm))
    by (apply Z.div_le_mono; lia).
  split; [nia|]. split; [nia|]. split; [lia|]. split; [lia|].
  split; [lia|exact Hc'].
Qed.

Lemma addScore_never_decreases_witness :
  score (create (mkConfig 10 1))
  <= score (addScore (VNum 4) (create (mkConfig 10 1))).2.
Proof.
  apply (addScore_never_decreases (VNum 4) (create (mkConfig 10 1))).
  - unfold consistent. vm_compute. repeat split; discriminate.
  - reflexivity.
  - vm_compute. discriminate.
Defined.

(** X16.  In a consistent state with a positive [linesPerLevel],
    [getLinesUntilNextLevel] is between 1 and [linesPerLevel], and a clear
    of n lines raises the level exactly when n is at least that number. *)
Theorem getLinesUntilNextLevel_spec (sm : ScoreManager) :
  consistent sm -> 0 < linesPerLevel (config sm) ->
  1 <= getLinesUntilNextLevel sm <= linesPerLevel (config sm) /\
  forall (q : Q) (n : Z), 1 <= n <= 4 -> q == inject_Z n ->
    level sm < level (addScore (VNum q) sm).2 <->
    getLinesUntilNextLevel sm <= n.
Proof.
  intros (Hl & Hlevel & H1 & H2 & H3 & H4) Hlpl.
  assert (Hlines : 0 <= linesCleared sm) by lia.
  unfold getLinesUntilNextLevel.
  rewrite Z.rem_mod_nonneg by lia.
  pose proof (Z.mod_pos_bound (linesCleared sm) (linesPerLevel (config sm)) Hlpl)
    as Hr.
  pose proof (Z.div_mod (linesCleared sm) (linesPerLevel (config sm))
                ltac:(lia)) as Hdm.
  split; [lia|]. intros q n Hn Hq.
  assert (Hok : invalidLineCount (VNum q) = false)
    by (apply invalidLineCount_number; eauto).
  unfold addScore. rewrite Hok. cbn [integerOf]. unfold updateLevel.
  rewrite (Qfloor_of_integer q n Hq).
  cbn [snd config score level linesCleared totalPiecesPlaced
       linesClearedByType].
  rewrite Hlevel. split.
  - intros Hup.
    destruct (Z_lt_le_dec n (linesPerLevel (config sm)
                             - linesCleared sm mod linesPerLevel (config sm)))
      as [Hlt|]; [|done].
    assert ((linesCleared sm + n) / linesPerLevel (config sm)
            < linesCleared sm / linesPerLevel (config sm) + 1)
      by (apply Z.div_lt_upper_bound; nia).
    lia.
  - intros Hge.
    assert (linesCleared sm / linesPerLevel (config sm) + 1
            <= (linesCleared sm + n) / linesPerLevel (config sm))
      by (apply Z.div_le_lower_bound; nia).
    lia.
Qed.

Lemma getLinesUntilNextLevel_spec_witness :
  1 <= getLinesUntilNextLevel (create (mkConfig 10 1)) <= 10.
Proof.
  apply (getLinesUntilNextLevel_spec (create (mkConfig 10 1))).
  - unfold consistent. vm_compute. repeat split; discriminate.
  - reflexivity.
Defined.

End ScoreBookkeeping.

(** ** Score keeper: fall speed and saved states *)

Section ScoreDerived.
Import Js ScoreManager.

Lemma Qpower_08_step (a : Z) :
  (Qpower (8 # 10) (a + 1) <= Qpower (8 # 10) a)%Q.
Proof.
  rewrite Qpower_plus by discriminate.
  pose proof (Qpower_0_lt (8 # 10) a ltac:(reflexivity)) as Hpos.
  change (Qpower (8 # 10) 1) with (8 # 10)%Q.
  generalize dependent (Qpower (8 # 10) a). intros p Hp. lra.
Qed.

Lemma Qpower_08_antitone (a b : Z) :
  a <= b -> (Qpower (8 # 10) b <= Qpower (8 # 10) a)%Q.
Proof.
  intros Hab. replace b with (a + Z.of_nat (Z.to_nat (b - a))) by lia.
  induction (Z.to_nat (b - a)) as [|n IH].
  - rewrite Z.add_0_r. apply Qle_refl.
  - replace (a + Z.of_nat (S n)) with (a + Z.of_nat n + 1) by lia.
    eapply Qle_trans; [apply Qpower_08_step|exact IH].
Qed.



Lemma numberOr_0 (n : Z) : numberOr (Some n) 0 = n.
Proof. unfold numberOr. by destruct (Z.eqb_spec n 0). Qed.

(** X18.  Saving and loading: [importState] of what [exportState] gave, into
    any score keeper, restores every field, except that a saved level of 0
    is replaced by the initial level of the keeper that loads.  So a state
    whose level is not 0 comes back as it was. *)
Theorem importState_exportState (sm sm' : ScoreManager) :
  importState (exportState sm) sm'
  = mkScoreManager (config sm) (score sm)
      (if level sm =? 0 then initialLevel (config sm') else level sm)
      (linesCleared sm) (totalPiecesPlaced sm) (linesClearedByType sm)
  /\ (level sm <> 0 -> importState (exportState sm) sm' = sm).
Proof.
  assert (H : importState (exportState sm) sm'
              = mkScoreManager (config sm) (score sm)
                  (if level sm =? 0 then initialLevel (config sm')
                   else level sm)
                  (linesCleared sm) (totalPiecesPlaced sm)
                  (linesClearedByType sm)).
  { unfold importState, exportState, mergeConfig.
    cbn [savedConfig savedScore savedLevel savedLinesCleared
         savedTotalPiecesPlaced savedLinesClearedByType savedLinesPerLevel
         savedInitialLevel default].
    rewrite !numberOr_0. by destruct (config sm). }
  split; [exact H|]. intros Hlevel. rewrite H.
  destruct (Z.eqb_spec (level sm) 0); [done|]. by destruct sm.
Qed.

End ScoreDerived.

(** ** Engine: a finished game stays finished *)

Section GameOverFinal.
Import GameEngine.

Variable random : nat -> Q.
Variable now : nat -> Q.

(** X19.  [gameOver] ends the game: the status is game over and, coming
    from any other status, the loop is switched off, with the board and the
    score kept.  In that state the engine is frozen: frames, [update],
    [pause], [resume], [togglePause] and a second [gameOver] change
    nothing and read no clock. *)
Theorem game_over_is_final (e : GameEngine) :
  status (gameOver e) = GameOver /\
  (status e <> GameOver -> isRunning (gameOver e) = false) /\
  boardManager (gameOver e) = boardManager e /\
  scoreManager (gameOver e) = scoreManager e /\
  tetrominoManager (gameOver e) = tetrominoManager e /\
  gameOver (gameOver e) = gameOver e /\
  forall w : World,
    status (engine w) = GameOver ->
    (forall deltaTime, update random now deltaTime w = Some w) /\
    pause now w = w /\ resume now w = w /\ togglePause now w = w /\
    (isRunning (engine w) = false ->
     forall n, frames random now n w = Some w).
Proof.
  assert (Hstatus : status (gameOver e) = GameOver).
  { unfold gameOver. by destruct (decide (status e = GameOver)). }
  split; [exact Hstatus|].
  split; [unfold gameOver; by destruct (decide (status e = GameOver))|].
  split; [unfold gameOver; by destruct (decide (status e = GameOver))|].
  split; [unfold gameOver; by destruct (decide (status e = GameOver))|].
  split; [unfold gameOver; by destruct (decide (status e = GameOver))|].
  split.
  { unfold gameOver at 1. by rewrite decide_True. }
  intros w Hw.
  split; [intros deltaTime; unfold update; by rewrite Hw|].
  split; [unfold pause; by rewrite Hw|].
  split; [unfold resume; by rewrite Hw|].
  split; [unfold togglePause; by rewrite Hw|].
  intros Hrun n. induction n as [|n IH]; [done|].
  cbn [frames]. unfold gameLoop. rewrite Hrun. cbn [negb]. exact IH.
Qed.

End GameOverFinal.

(** ** Engine: gravity *)

Section Gravity.
Import GameEngine.

Variable random : nat -> Q.
Variable now : nat -> Q.

Ltac engine_fields :=
  cbn [engine sequencer nowCalls setEngine config boardManager
       tetrominoManager scoreManager status fallSpeed lastFallTime
       lastUpdateTime lockTimer isLockDelayActive isSoftDropping pauseTime
       isRunning lastClearedRows setBoardManager setTetrominoManager
       setScoreManager setStatus setFallSpeed setLastFallTime
       setLastUpdateTime setLockDelay setIsSoftDropping setPauseTime
       setIsRunning setLastClearedRows performanceNow] in *.

Lemma Qle_bool_false (a b : Q) : (b < a)%Q -> Qle_bool a b = false.
Proof.
  intros Hlt. destruct (Qle_bool a b) eqn:E; [|done].
  apply Qle_bool_iff in E. by apply Qlt_not_le in Hlt.
Qed.


End Gravity.


(** ** Engine: what every operation keeps *)

Section EngineInvariant.
Import GameEngine.

Variable random : nat -> Q.
Variable now : nat -> Q.
Hypothesis random_range : forall k, (0 <= random k /\ random k < 1)%Q.

Ltac engine_fields :=
  cbn [engine sequencer nowCalls setEngine config boardManager
       tetrominoManager scoreManager status fallSpeed lastFallTime
       lastUpdateTime lockTimer isLockDelayActive isSoftDropping pauseTime
       isRunning lastClearedRows setBoardManager setTetrominoManager
       setScoreManager setStatus setFallSpeed setLastFallTime
       setLastUpdateTime setLockDelay setIsSoftDropping setPauseTime
       setIsRunning setLastClearedRows performanceNow] in *.

Lemma invariant_frame (e e' : GameEngine) :
  boardManager e' = boardManager e ->
  tetrominoManager e' = tetrominoManager e ->
  scoreManager e' = scoreManager e ->
  invariant e -> invariant e'.
Proof. unfold invariant. by intros -> -> ->. Qed.

Lemma gameOver_invariant (e : GameEngine) : invariant e -> invariant (gameOver e).
Proof.
  apply invariant_frame; unfold gameOver;
    by destruct (decide (status e = GameOver)).
Qed.

Lemma emptyRow_not_full (w : nat) :
  (0 < w)%nat -> ~ Forall is_Some (BoardManager.emptyRow w).
Proof.
  intros Hw Hfull. destruct w as [|w]; [lia|].
  apply Forall_cons in Hfull as [[? [=]] _].
Qed.

Lemma reset_invariant (e : GameEngine) :
  (0 < BoardManager.width (boardManager e))%nat -> invariant (reset e).
Proof.
  intros Hw. unfold invariant, reset. engine_fields.
  split; [apply clearBoard_wellFormed|]. split; [exact Hw|]. split.
  - apply elem_of_nil_inv. intros i Hi.
    apply (findCompleteRows_elem _ _ (clearBoard_wellFormed _)) in Hi
      as (r & Hr & Hfull).
    apply list_elem_of_lookup_2, elem_of_replicate_inv in Hr. subst r.
    by apply emptyRow_not_full in Hfull.
  - split; [by intros p [=]|].
    unfold ScoreManager.consistent, ScoreManager.reset.
    cbn [ScoreManager.config ScoreManager.level ScoreManager.linesCleared
         ScoreManager.linesClearedByType ScoreManager.single
         ScoreManager.double ScoreManager.triple ScoreManager.tetris].
    change (0 / ScoreManager.linesPerLevel (ScoreManager.config (scoreManager e)))
      with 0.
    repeat split; lia.
Qed.

Lemma create_invariant (c : Config) :
  (0 < boardWidth c)%nat -> invariant (create c).
Proof.
  intros Hw. unfold invariant, create. engine_fields.
  split; [apply create_wellFormed|]. split; [exact Hw|]. split.
  - apply elem_of_nil_inv. intros i Hi.
    apply (findCompleteRows_elem _ _ (create_wellFormed _ _)) in Hi
      as (r & Hr & Hfull).
    apply list_elem_of_lookup_2, elem_of_replicate_inv in Hr. subst r.
    by apply emptyRow_not_full in Hfull.
  - split; [by intros p [=]|].
    unfold ScoreManager.consistent. vm_compute. repeat split; discriminate.
Qed.

Lemma tryMovePieceDown_invariant (e : GameEngine) :
  invariant e -> invariant (tryMovePieceDown e).
Proof.
  intros Hinv. unfold tryMovePieceDown.
  destruct (TetrominoManager.hasActivePiece (tetrominoManager e)); [|done].
  cbn [negb].
  pose proof (moveDown_fits (boardManager e) (tetrominoManager e)
                (proj1 (proj2 (proj2 (proj2 Hinv))))) as Hfit.
  destruct (TetrominoManager.moveDown (boardManager e) (tetrominoManager e))
    as [moved tm]. cbn [snd] in Hfit.
  destruct moved.
  - destruct Hinv as (? & ? & ? & _ & ?). unfold invariant. by engine_fields.
  - destruct (isLockDelayActive e); [done|]. by eapply invariant_frame.
Qed.

Lemma handleLinesCleared_invariant (e : GameEngine) (n : nat) (rs : list nat) :
  invariant e -> invariant (handleLinesCleared e n rs).
Proof.
  intros (? & ? & ? & ? & Hsm). unfold handleLinesCleared.
  pose proof (proj1 (addScore_consistent
                       (Js.VNum (inject_Z (Z.of_nat n))) _ Hsm)) as Hsm'.
  destruct (ScoreManager.addScore _ (scoreManager e)) as [points sm].
  unfold invariant, updateFallSpeed. by engine_fields.
Qed.

Lemma lockCurrentPiece_invariant (e : GameEngine) :
  invariant e -> invariant (lockCurrentPiece e).
Proof.
  intros Hinv. unfold lockCurrentPiece, TetrominoManager.hasActivePiece,
    TetrominoManager.lockPiece.
  destruct (TetrominoManager.currentPiece (tetrominoManager e))
    as [cur|] eqn:Ecur; [|done].
  cbn [negb]. destruct Hinv as (Hwf & Hw & _ & Hfit & Hsm).
  pose proof (Hfit cur Ecur) as Hcur.
  pose proof (placePiece_wellFormed (boardManager e) cur Hwf) as Hwf1.
  assert (Hw1 : BoardManager.width (BoardManager.placePiece (boardManager e) cur).2
                = BoardManager.width (boardManager e)).
  { unfold BoardManager.placePiece. by rewrite Hcur. }
  assert (Hok : (BoardManager.placePiece (boardManager e) cur).1 = true).
  { unfold BoardManager.placePiece. by rewrite Hcur. }
  destruct (BoardManager.placePiece (boardManager e) cur) as [success bm1].
  cbn [fst snd] in *. subst success. engine_fields.
  destruct (clearLines_wellFormed bm1 Hwf1) as (Hwf2 & Hw2 & _).
  pose proof (clearLines_no_complete_row bm1 Hwf1 ltac:(lia)) as Hnone.
  destruct (BoardManager.clearLines bm1) as [result bm2].
  cbn [fst snd] in *. engine_fields.
  set (e3 := setBoardManager
               (setScoreManager
                  (setTetrominoManager (setBoardManager e bm1)
                     (TetrominoManager.setCurrentPiece (tetrominoManager e)
                        None))
                  (ScoreManager.addPiecePlacement (scoreManager e)))
               bm2).
  assert (Hbase : invariant e3).
  { unfold invariant, e3. engine_fields. split; [done|]. split; [lia|].
    split; [done|]. split; [by intros p [=]|]. exact Hsm. }
  set (e4 := if (0 <? BoardManager.count result)%nat
             then handleLinesCleared e3 (BoardManager.count result)
                    (BoardManager.rows result)
             else e3).
  assert (Hcleared : invariant e4).
  { unfold e4. destruct (0 <? BoardManager.count result)%nat; [|exact Hbase].
    by apply handleLinesCleared_invariant. }
  assert (Hinv' : invariant (setLockDelay e4 false 0))
    by by eapply invariant_frame.
  destruct (checkGameOverConditions _); [|exact Hinv'].
  by apply gameOver_invariant.
Qed.

Lemma updateLockDelay_invariant (deltaTime : Q) (e : GameEngine) :
  invariant e -> invariant (updateLockDelay deltaTime e).
Proof.
  intros Hinv. unfold updateLockDelay.
  destruct (isLockDelayActive e && bool_decide (status e = Playing)); [|done].
  assert (Hinv' : invariant (setLockDelay e true (lockTimer e + deltaTime)%Q))
    by by eapply invariant_frame.
  destruct (Qle_bool _ _); [|exact Hinv'].
  by apply lockCurrentPiece_invariant.
Qed.

Lemma updateFalling_invariant (deltaTime : Q) (w : World) :
  invariant (engine w) -> invariant (engine (updateFalling now deltaTime w)).
Proof.
  intros Hinv. unfold updateFalling. engine_fields.
  destruct (Qle_bool _ _); [|done]. engine_fields.
  apply (invariant_frame (tryMovePieceDown (engine w))); [done..|].
  by apply tryMovePieceDown_invariant.
Qed.

Lemma spawnIfNeeded_invariant (w : World) :
  invariant (engine w) ->
  exists (goOn : bool) (w1 : World),
    spawnIfNeeded random w = Some (goOn, w1) /\ invariant (engine w1).
Proof.
  intros Hinv. unfold spawnIfNeeded.
  destruct (TetrominoManager.hasActivePiece (tetrominoManager (engine w)));
    cbn [negb]; [by eauto|].
  destruct (spawnPiece_returns random random_range (boardManager (engine w))
              (tetrominoManager (engine w)) (sequencer w))
    as (cand & next & sq' & Hspawn).
  pose proof (proj1 (spawnPiece_fits random _ _ _ _ _ _ Hspawn)) as Hfit.
  rewrite Hspawn. cbn [mbind option_bind].
  set (tm := TetrominoManager.mkTetrominoManager _ _ _ _) in *.
  assert (Hspawned : invariant (setTetrominoManager (engine w) tm)).
  { destruct Hinv as (? & ? & ? & _ & ?). unfold invariant. by engine_fields. }
  destruct (BoardManager.isValidPosition (boardManager (engine w)) cand).
  - destruct (checkGameOverConditions _); eexists _, _; (split; [done|]);
      engine_fields; [by apply gameOver_invariant|by eapply invariant_frame].
  - eexists _, _. split; [done|]. engine_fields. by apply gameOver_invariant.
Qed.

Lemma update_invariant (deltaTime : Q) (w : World) :
  invariant (engine w) ->
  exists w', update random now deltaTime w = Some w' /\ invariant (engine w').
Proof.
  intros Hinv. unfold update.
  destruct (bool_decide (status (engine w) = Playing)); cbn [negb];
    [|by eauto].
  destruct (spawnIfNeeded_invariant w Hinv) as (goOn & w1 & -> & Hinv1).
  destruct goOn; [|by eauto].
  eexists. split; [done|]. engine_fields.
  by apply updateLockDelay_invariant, updateFalling_invariant.
Qed.

Lemma gameLoop_invariant (w : World) :
  invariant (engine w) ->
  exists w', gameLoop random now w = Some w' /\ invariant (engine w').
Proof.
  intros Hinv. unfold gameLoop.
  destruct (isRunning (engine w)); cbn [negb]; [|by eauto]. engine_fields.
  assert (Hinv' : invariant (setLastUpdateTime (engine w) (now (nowCalls w))))
    by by eapply invariant_frame.
  destruct (decide (status (engine w) = Playing)); [|by eauto].
  by apply update_invariant.
Qed.

Lemma frames_invariant (n : nat) (w : World) :
  invariant (engine w) ->
  exists w', frames random now n w = Some w' /\ invariant (engine w').
Proof.
  revert w. induction n as [|n IH]; intros w Hinv; [by eauto|].
  cbn [frames]. destruct (gameLoop_invariant w Hinv) as (w1 & -> & Hinv1).
  by apply IH.
Qed.

Lemma start_invariant (w : World) :
  invariant (engine w) ->
  exists w', start random now w = Some w' /\ invariant (engine w').
Proof.
  intros Hinv. unfold start. destruct (isRunning (engine w)); [by eauto|].
  assert (Hreset : invariant (setIsRunning (setStatus (reset (engine w))
                                              Playing) true)).
  { apply (invariant_frame (reset (engine w))); [done..|].
    apply reset_invariant, Hinv. }
  set (e1 := setIsRunning (setStatus (reset (engine w)) Playing) true) in *.
  destruct (spawnPiece_returns random random_range (boardManager e1)
              (tetrominoManager e1) (sequencer w))
    as (cand & next & sq' & Hspawn).
  pose proof (proj1 (spawnPiece_fits random _ _ _ _ _ _ Hspawn)) as Hfit.
  rewrite Hspawn. cbn [mbind option_bind].
  set (tm := TetrominoManager.mkTetrominoManager _ _ _ _) in *.
  assert (Hspawned : invariant (setTetrominoManager e1 tm)).
  { destruct Hreset as (? & ? & ? & _ & ?). unfold invariant. by engine_fields. }
  destruct (BoardManager.isValidPosition (boardManager e1) cand).
  - engine_fields. apply gameLoop_invariant. engine_fields.
    by eapply invariant_frame.
  - eexists. split; [done|]. engine_fields. by apply gameOver_invariant.
Qed.

(** X21.  The engine's invariant (a well-formed board with no complete row
    left on it, a current piece that fits, consistent score counters) holds
    for a new engine on a board with at least one column, and every
    operation returns with it still true: [update], a run of frames,
    [start], [restart], [pause], [resume], [togglePause], the soft-drop
    switches, [stop], [reset] and [gameOver]. *)
Theorem engine_keeps_invariant (w : World) :
  invariant (engine w) ->
  (forall deltaTime, exists w',
     update random now deltaTime w = Some w' /\ invariant (engine w')) /\
  (forall n, exists w',
     frames random now n w = Some w' /\ invariant (engine w')) /\
  (exists w', start random now w = Some w' /\ invariant (engine w')) /\
  (exists w', restart random now w = Some w' /\ invariant (engine w')) /\
  invariant (engine (pause now w)) /\
  invariant (engine (resume now w)) /\
  invariant (engine (togglePause now w)) /\
  invariant (startSoftDrop (engine w)) /\
  invariant (stopSoftDrop (engine w)) /\
  invariant (stop (engine w)) /\
  invariant (reset (engine w)) /\
  invariant (gameOver (engine w)) /\
  (forall c, (0 < boardWidth c)%nat -> invariant (create c)).
Proof.
  intros Hinv.
  assert (Hpause : invariant (engine (pause now w))).
  { unfold pause. destruct (decide (status (engine w) = Playing)); [|done].
    engine_fields. by eapply invariant_frame. }
  assert (Hresume : invariant (engine (resume now w))).
  { unfold resume. destruct (decide (status (engine w) = Paused)); [|done].
    engine_fields. by eapply invariant_frame. }
  split; [intros deltaTime; by apply update_invariant|].
  split; [intros n; by apply frames_invariant|].
  split; [by apply start_invariant|].
  split.
  { unfold restart. apply start_invariant. engine_fields.
    apply reset_invariant. engine_fields. apply Hinv. }
  split; [exact Hpause|]. split; [exact Hresume|].
  split.
  { unfold togglePause. destruct (decide (status (engine w) = Playing));
      [done|]. by destruct (decide (status (engine w) = Paused)). }
  split; [by eapply invariant_frame|]. split; [by eapply invariant_frame|].
  split; [by eapply invariant_frame|].
  split; [apply reset_invariant, Hinv|].
  split; [by apply gameOver_invariant|].
  intros c. apply create_invariant.
Qed.

End EngineInvariant.

Lemma engine_keeps_invariant_witness :
  exists w',
    GameEngine.frames Scenario.randomZero Scenario.clockAt1000 3
      Scenario.freeFall = Some w' /\
    GameEngine.invariant (GameEngine.engine w').
Proof.
  apply (engine_keeps_invariant Scenario.randomZero Scenario.clockAt1000
           ltac:(intros k; split; [apply Qle_refl | reflexivity])
           Scenario.freeFall).
  split; [apply create_wellFormed|]. split; [simpl; lia|].
  split; [reflexivity|]. split; [intros p [= <-]; reflexivity|].
  unfold ScoreManager.consistent. vm_compute. repeat split; discriminate.
Defined.

(** ** Engine: starting a game *)

Section FreshGame.
Import GameEngine.

Variable random : nat -> Q.
Variable now : nat -> Q.
Hypothesis random_range : forall k, (0 <= random k /\ random k < 1)%Q.

Ltac engine_fields :=
  cbn [engine sequencer nowCalls setEngine config boardManager
       tetrominoManager scoreManager status fallSpeed lastFallTime
       lastUpdateTime lockTimer isLockDelayActive isSoftDropping pauseTime
       isRunning lastClearedRows setBoardManager setTetrominoManager
       setScoreManager setStatus setFallSpeed setLastFallTime
       setLastUpdateTime setLockDelay setIsSoftDropping setPauseTime
       setIsRunning setLastClearedRows performanceNow] in *.

Lemma clearBoard_cellAt (bm : BoardManager.BoardManager) (col row : nat) :
  (col < BoardManager.width bm)%nat -> (row < BoardManager.height bm)%nat ->
  BoardManager.cellAt (BoardManager.clearBoard bm) col row = Some None.
Proof.
  intros Hcol Hrow.
  unfold BoardManager.cellAt, BoardManager.clearBoard,
    BoardManager.initializeBoard, BoardManager.emptyRow.
  cbn [BoardManager.board].
  rewrite lookup_replicate_2 by done. cbn [mbind option_bind].
  by rewrite lookup_replicate_2.
Qed.

(** On a cleared board a piece fits as soon as its cells are inside. *)
Lemma clearBoard_isValidPosition (bm : BoardManager.BoardManager)
  (t : TetrominoUtils.Tetromino) :
  (forall b, b ∈ TetrominoUtils.getTetrominoBlocks t ->
     0 <= b.1 < Z.of_nat (BoardManager.width bm) /\
     0 <= b.2 < Z.of_nat (BoardManager.height bm)) ->
  BoardManager.isValidPosition (BoardManager.clearBoard bm) t = true.
Proof.
  intros Hin. apply isValidPosition_blocks. intros b Hb.
  destruct (Hin b Hb) as [Hx Hy].
  assert (Hw : BoardManager.isWithinBounds (BoardManager.clearBoard bm) b.1 b.2
               = true) by by apply isWithinBounds_spec.
  split; [exact Hw|]. unfold BoardManager.isOccupied. rewrite Hw.
  cbn [negb]. by rewrite clearBoard_cellAt by lia.
Qed.

(** Every piece of the catalog, in its spawn orientation, lies in the
    first three rows and four columns from its anchor. *)
Lemma spawn_piece_extent (t : Tetrominoes.TetrominoType) (px py : Z)
  (c : string) (b : Z * Z) :
  b ∈ TetrominoUtils.getTetrominoBlocks
        (TetrominoUtils.mkTetromino t px py 0 c (TetrominoUtils.shapeAt t 0)) ->
  px <= b.1 <= px + 3 /\ py <= b.2 <= py + 2.
Proof.
  intros Hb. apply getTetrominoBlocks_elem in Hb
    as (row & col & cells & Hrow & Hcol & ->).
  cbn [TetrominoUtils.x TetrominoUtils.y TetrominoUtils.shape fst snd] in *.
  destruct t; cbn in Hrow;
    (destruct row as [|[|[|[|row]]]]; cbn in Hrow; try done;
     injection Hrow as <-;
     destruct col as [|[|[|[|col]]]]; cbn in Hcol; try done; lia).
Qed.

Lemma start_fresh (w : World) :
  isRunning (engine w) = false ->
  (4 <= BoardManager.width (boardManager (engine w)))%nat ->
  (3 <= BoardManager.height (boardManager (engine w)))%nat ->
  TetrominoManager.spawnX (tetrominoManager (engine w))
  = Z.of_nat (BoardManager.width (boardManager (engine w)) / 2) - 2 ->
  TetrominoManager.spawnY (tetrominoManager (engine w)) = 0 ->
  (now (S (S (nowCalls w))) - now (nowCalls w)
   < initialFallSpeed (config (engine w)))%Q ->
  exists (t t' : Tetrominoes.TetrominoType) (sq' : TetrominoUtils.Sequencer),
    start random now w
    = Some (mkWorld
              (mkGameEngine (config (engine w))
                 (BoardManager.clearBoard (boardManager (engine w)))
                 (TetrominoManager.mkTetrominoManager
                    (Some (TetrominoUtils.mkTetromino t
                             (TetrominoManager.spawnX
                                (tetrominoManager (engine w)))
                             (TetrominoManager.spawnY
                                (tetrominoManager (engine w)))
                             0 (Tetrominoes.TETROMINO_COLORS t)
                             (TetrominoUtils.shapeAt t 0)))
                    (Some (TetrominoUtils.mkTetromino t' 0 0 0
                             (Tetrominoes.TETROMINO_COLORS t')
                             (TetrominoUtils.shapeAt t' 0)))
                    (TetrominoManager.spawnX (tetrominoManager (engine w)))
                    (TetrominoManager.spawnY (tetrominoManager (engine w))))
                 (ScoreManager.reset (scoreManager (engine w)))
                 Playing (initialFallSpeed (config (engine w)))
                 (now (nowCalls w)) (now (S (nowCalls w))) 0 false false 0
                 true (lastClearedRows (engine w)))
              sq' (S (S (S (nowCalls w))))).
Proof.
  intros Hrun Hw Hh Hsx Hsy Hclock.
  unfold start. rewrite Hrun. engine_fields.
  unfold TetrominoManager.spawnPiece, reset, TetrominoManager.reset.
  engine_fields.
  cbn [TetrominoManager.nextPiece TetrominoManager.spawnX
       TetrominoManager.spawnY].
  destruct (createRandomTetromino_total random random_range 0 0 (sequencer w))
    as (t & _ & ->).
  cbn [mbind option_bind].
  destruct (createRandomTetromino_total random random_range 0 0
              (TetrominoUtils.getRandomTetrominoType random (sequencer w)).2)
    as (t' & _ & ->).
  cbn [mbind option_bind].
  unfold TetrominoUtils.setTetrominoPosition.
  cbn [TetrominoUtils.type TetrominoUtils.rotation TetrominoUtils.color
       TetrominoUtils.shape].
  rewrite clearBoard_isValidPosition.
  - cbn [negb mbind option_bind]. engine_fields. exists t, t'. eexists.
    unfold gameLoop. engine_fields. cbn [negb].
    rewrite decide_True by done.
    unfold update. engine_fields. rewrite bool_decide_eq_true_2 by done.
    cbn [negb]. unfold spawnIfNeeded, TetrominoManager.hasActivePiece.
    engine_fields. cbn [TetrominoManager.currentPiece negb].
    unfold updateFalling. engine_fields.
    rewrite (Qle_bool_false _ _ Hclock). unfold updateLockDelay.
    engine_fields. cbn [andb]. reflexivity.
  - intros b Hb. apply spawn_piece_extent in Hb as [Hx Hy].
    rewrite Hsx, Hsy in *.
    rewrite Nat2Z.inj_div in *. change (Z.of_nat 2) with 2 in *.
    split; [|lia]. Z.div_mod_to_equations. lia.
Qed.


End FreshGame.


(** ** Engine: locking a piece and scoring the lines *)

Section LockAndScore.
Import GameEngine.

Ltac engine_fields :=
  cbn [engine sequencer nowCalls setEngine config boardManager
       tetrominoManager scoreManager status fallSpeed lastFallTime
       lastUpdateTime lockTimer isLockDelayActive isSoftDropping pauseTime
       isRunning lastClearedRows setBoardManager setTetrominoManager
       setScoreManager setStatus setFallSpeed setLastFallTime
       setLastUpdateTime setLockDelay setIsSoftDropping setPauseTime
       setIsRunning setLastClearedRows performanceNow] in *.

(** Every piece of the catalog has four cells. *)
Lemma catalog_blocks_length (t : TetrominoUtils.Tetromino) :
  (TetrominoUtils.rotation t <= Tetrominoes.MAX_ROTATION_STATE)%nat ->
  TetrominoUtils.shape t
  = TetrominoUtils.shapeAt (TetrominoUtils.type t) (TetrominoUtils.rotation t) ->
  length (TetrominoUtils.getTetrominoBlocks t) = 4%nat.
Proof.
  destruct t as [ty px py r c sh]. unfold Tetrominoes.MAX_ROTATION_STATE.
  cbn [TetrominoUtils.rotation TetrominoUtils.shape TetrominoUtils.type].
  intros Hr ->.
  destruct r as [|[|[|[|r]]]]; [..|lia]; destruct ty; reflexivity.
Qed.

(** On a board without a complete row, a row that is complete after a
    piece is placed holds a cell of that piece. *)
Lemma complete_rows_touch (bm : BoardManager.BoardManager)
  (cur : TetrominoUtils.Tetromino) (i : nat) :
  BoardManager.wellFormed bm -> BoardManager.findCompleteRows bm = [] ->
  BoardManager.isValidPosition bm cur = true ->
  i ∈ BoardManager.findCompleteRows (BoardManager.placePiece bm cur).2 ->
  Z.of_nat i ∈ snd <$> TetrominoUtils.getTetrominoBlocks cur.
Proof.
  intros Hwf Hnone Hvalid Hi.
  pose proof (placePiece_wellFormed bm cur Hwf) as Hwf1.
  apply (findCompleteRows_elem _ _ Hwf1) in Hi as (r1 & Hr1 & Hfull).
  destruct (decide (Z.of_nat i ∈ snd <$> TetrominoUtils.getTetrominoBlocks cur))
    as [|Hout]; [done|]. exfalso.
  assert (Hheight : BoardManager.height (BoardManager.placePiece bm cur).2
                    = BoardManager.height bm).
  { unfold BoardManager.placePiece. by rewrite Hvalid. }
  assert (Hrow : (i < length (BoardManager.board bm))%nat).
  { apply lookup_lt_Some in Hr1.
    destruct Hwf as [-> _], Hwf1 as [Hl1 _]. lia. }
  destruct (lookup_lt_is_Some_2 _ _ Hrow) as [r0 Hr0].
  assert (Hsame : r1 = r0).
  { apply list_eq. intros col.
    pose proof (placePiece_cellAt bm cur col i Hvalid) as Hcell.
    unfold BoardManager.cellAt in Hcell. rewrite Hr1, Hr0 in Hcell.
    cbn [mbind option_bind] in Hcell. rewrite Hcell.
    rewrite bool_decide_eq_false_2; [done|].
    intros Hb. apply Hout. apply list_elem_of_fmap.
    by exists (Z.of_nat col, Z.of_nat i). }
  subst r1.
  assert (Hin : i ∈ BoardManager.findCompleteRows bm)
    by (apply findCompleteRows_elem; eauto).
  rewrite Hnone in Hin. by apply elem_of_nil in Hin.
Qed.

Lemma clearLines_count (bm : BoardManager.BoardManager) :
  BoardManager.count (BoardManager.clearLines bm).1
  = length (BoardManager.findCompleteRows bm).
Proof.
  unfold BoardManager.clearLines.
  destruct (length (BoardManager.findCompleteRows bm) =? 0)%nat eqn:E; [|done].
  apply Nat.eqb_eq in E. by rewrite E.
Qed.

Lemma lock_clears_at_most (bm : BoardManager.BoardManager)
  (cur : TetrominoUtils.Tetromino) :
  BoardManager.wellFormed bm -> BoardManager.findCompleteRows bm = [] ->
  BoardManager.isValidPosition bm cur = true ->
  (BoardManager.count
     (BoardManager.clearLines (BoardManager.placePiece bm cur).2).1
   <= length (TetrominoUtils.getTetrominoBlocks cur))%nat.
Proof.
  intros Hwf Hnone Hvalid. rewrite clearLines_count.
  rewrite <- (length_fmap Z.of_nat),
    <- (length_fmap snd (TetrominoUtils.getTetrominoBlocks cur)).
  apply submseteq_length, NoDup_submseteq.
  - apply (NoDup_fmap_2 _). unfold BoardManager.findCompleteRows.
    apply NoDup_filter, NoDup_seq.
  - intros z (i & -> & Hi)%list_elem_of_fmap.
    by apply (complete_rows_touch bm cur i).
Qed.

Lemma addScore_integer (n : Z) (sm : ScoreManager.ScoreManager) :
  1 <= n <= 4 ->
  ScoreManager.addScore (Js.VNum (inject_Z n)) sm
  = (ScoreManager.getBaseScore n * ScoreManager.level sm,
     ScoreManager.updateLevel
       (ScoreManager.mkScoreManager (ScoreManager.config sm)
          (ScoreManager.score sm
           + ScoreManager.getBaseScore n * ScoreManager.level sm)
          (ScoreManager.level sm) (ScoreManager.linesCleared sm + n)
          (ScoreManager.totalPiecesPlaced sm)
          (ScoreManager.updateLineClearingStats n
             (ScoreManager.linesClearedByType sm)))).
Proof.
  intros Hn. unfold ScoreManager.addScore.
  assert (Hok : ScoreManager.invalidLineCount (Js.VNum (inject_Z n)) = false)
    by (apply invalidLineCount_number; by exists n).
  rewrite Hok. cbn [ScoreManager.integerOf]. by rewrite Qfloor_Z.
Qed.

(** X23.  Locking a catalog piece in an engine that satisfies the
    invariant: the piece is written to the board and the complete rows are
    cleared, and they are at most four; the piece is counted, the current
    piece is gone and the lock delay is off; and every cleared line is
    scored: with n rows cleared the line total grows by n and the score by
    base(n) times the level before the clear (nothing for n = 0). *)
Theorem lockCurrentPiece_scores (e : GameEngine) (cur : TetrominoUtils.Tetromino) :
  invariant e ->
  TetrominoManager.currentPiece (tetrominoManager e) = Some cur ->
  (TetrominoUtils.rotation cur <= Tetrominoes.MAX_ROTATION_STATE)%nat ->
  TetrominoUtils.shape cur
  = TetrominoUtils.shapeAt (TetrominoUtils.type cur)
      (TetrominoUtils.rotation cur) ->
  (BoardManager.count
     (BoardManager.clearLines
        (BoardManager.placePiece (boardManager e) cur).2).1 <= 4)%nat /\
  boardManager (lockCurrentPiece e)
  = (BoardManager.clearLines
       (BoardManager.placePiece (boardManager e) cur).2).2 /\
  TetrominoManager.currentPiece (tetrominoManager (lockCurrentPiece e)) = None /\
  isLockDelayActive (lockCurrentPiece e) = false /\
  ScoreManager.totalPiecesPlaced (scoreManager (lockCurrentPiece e))
  = ScoreManager.totalPiecesPlaced (scoreManager e) + 1 /\
  ScoreManager.linesCleared (scoreManager (lockCurrentPiece e))
  = ScoreManager.linesCleared (scoreManager e)
    + Z.of_nat (BoardManager.count
                  (BoardManager.clearLines
                     (BoardManager.placePiece (boardManager e) cur).2).1) /\
  ScoreManager.score (scoreManager (lockCurrentPiece e))
  = ScoreManager.score (scoreManager e)
    + ScoreManager.getBaseScore
        (Z.of_nat (BoardManager.count
                     (BoardManager.clearLines
                        (BoardManager.placePiece (boardManager e) cur).2).1))
      * ScoreManager.level (scoreManager e).
Proof.
  intros (Hwf & Hw & Hnone & Hfit & Hsm) Ecur Hrot Hshape.
  pose proof (Hfit cur Ecur) as Hcur.
  pose proof (lock_clears_at_most (boardManager e) cur Hwf Hnone Hcur) as Hle.
  rewrite (catalog_blocks_length cur Hrot Hshape) in Hle.
  split; [exact Hle|].
  unfold lockCurrentPiece, TetrominoManager.hasActivePiece,
    TetrominoManager.lockPiece.
  rewrite Ecur. cbn [negb].
  assert (Hok : (BoardManager.placePiece (boardManager e) cur).1 = true).
  { unfold BoardManager.placePiece. by rewrite Hcur. }
  destruct (BoardManager.placePiece (boardManager e) cur) as [success bm1].
  cbn [fst snd] in *. subst success. engine_fields.
  destruct (BoardManager.clearLines bm1) as [[n rs] bm2].
  cbn [fst snd BoardManager.count BoardManager.rows] in *. engine_fields.
  set (e3 := setBoardManager
               (setScoreManager
                  (setTetrominoManager (setBoardManager e bm1)
                     (TetrominoManager.setCurrentPiece (tetrominoManager e)
                        None))
                  (ScoreManager.addPiecePlacement (scoreManager e)))
               bm2).
  set (e4 := if (0 <? n)%nat then handleLinesCleared e3 n rs else e3).
  assert (H4 : boardManager e4 = bm2 /\
               TetrominoManager.currentPiece (tetrominoManager e4) = None /\
               ScoreManager.totalPiecesPlaced (scoreManager e4)
               = ScoreManager.totalPiecesPlaced (scoreManager e) + 1 /\
               ScoreManager.linesCleared (scoreManager e4)
               = ScoreManager.linesCleared (scoreManager e) + Z.of_nat n /\
               ScoreManager.score (scoreManager e4)
               = ScoreManager.score (scoreManager e)
                 + ScoreManager.getBaseScore (Z.of_nat n)
                   * ScoreManager.level (scoreManager e)).
  { unfold e4. destruct (0 <? n)%nat eqn:En.
    - apply Nat.ltb_lt in En. unfold handleLinesCleared, e3. engine_fields.
      rewrite addScore_integer by lia. unfold updateFallSpeed.
      engine_fields. done.
    - apply Nat.ltb_ge in En. replace n with 0%nat by lia.
      unfold e3. engine_fields. change (Z.of_nat 0) with 0.
      change (ScoreManager.getBaseScore 0) with 0.
      rewrite Z.mul_0_l, !Z.add_0_r. done. }
  destruct H4 as (Hb & Hp & Ht & Hl & Hs).
  assert (H5 : forall e5, e5 = setLockDelay e4 false 0 \/
                          e5 = gameOver (setLockDelay e4 false 0) ->
               boardManager e5 = boardManager e4 /\
               tetrominoManager e5 = tetrominoManager e4 /\
               scoreManager e5 = scoreManager e4 /\
               isLockDelayActive e5 = false).
  { intros e5 [->| ->]; [done|]. unfold gameOver.
    by destruct (decide (status (setLockDelay e4 false 0) = GameOver)). }
  match goal with
  | |- context [if ?c then gameOver ?a else ?a] =>
      destruct (H5 (if c then gameOver a else a)) as (-> & -> & -> & ->);
        [destruct c; auto|]
  end.
  done.
Qed.

End LockAndScore.

(** The I piece fills the last gap of the bottom row: one line, 100
    points at level 1. *)
Lemma lockCurrentPiece_scores_witness :
  ScoreManager.score
    (GameEngine.scoreManager (GameEngine.lockCurrentPiece Scenario.lastGap))
  = 0 + ScoreManager.getBaseScore
          (Z.of_nat
             (BoardManager.count
                (BoardManager.clearLines
                   (BoardManager.placePiece
                      (GameEngine.boardManager Scenario.lastGap)
                      (TetrominoUtils.mkTetromino Tetrominoes.TI (-2) 16 1
                         (Tetrominoes.TETROMINO_COLORS Tetrominoes.TI)
                         (TetrominoUtils.shapeAt Tetrominoes.TI 1))).2).1))
        * 1.
Proof.
  apply (lockCurrentPiece_scores Scenario.lastGap
           (TetrominoUtils.mkTetromino Tetrominoes.TI (-2) 16 1
              (Tetrominoes.TETROMINO_COLORS Tetrominoes.TI)
              (TetrominoUtils.shapeAt Tetrominoes.TI 1))).
  - split; [split; [reflexivity|by apply (bool_decide_unpack _)]|].
    split; [simpl; lia|]. split; [reflexivity|].
    split; [intros p [= <-]; reflexivity|].
    unfold ScoreManager.consistent. vm_compute. repeat split; discriminate.
  - reflexivity.
  - unfold Tetrominoes.MAX_ROTATION_STATE. simpl. lia.
  - reflexivity.
Defined.

Example replay_last_gap :
  ScoreManager.score
    (GameEngine.scoreManager (GameEngine.lockCurrentPiece Scenario.lastGap))
  = 100 /\
  BoardManager.board
    (GameEngine.boardManager (GameEngine.lockCurrentPiece Scenario.lastGap))
  = replicate 17 (BoardManager.emptyRow 10)
    ++ replicate 3
         (Some (BoardManager.mkCell Tetrominoes.TI "#00F5FF")
            :: replicate 9 None) /\
  GameEngine.status (GameEngine.lockCurrentPiece Scenario.lastGap)
  = GameEngine.Playing.
Proof. by vm_compute. Qed.

(** ** Pieces: the bounding box *)

Section PieceBounds.
Import Tetrominoes TetrominoUtils.

(** The loop of [getTetrominoBounds]: the box grows to hold every block it
    meets, and each side stays where it started or sits on a block. *)
Lemma bounds_loop (blocks : list (Z * Z)) (init : Bounds) :
  let result :=
    fold_left (fun (b : Bounds) (block : Z * Z) =>
                 mkBounds (Z.min (minX b) block.1) (Z.max (maxX b) block.1)
                          (Z.min (minY b) block.2) (Z.max (maxY b) block.2))
              blocks init in
  (minX result <= minX init /\ maxX init <= maxX result /\
   minY result <= minY init /\ maxY init <= maxY result) /\
  (forall b, b ∈ blocks ->
     minX result <= b.1 <= maxX result /\ minY result <= b.2 <= maxY result) /\
  (minX result = minX init \/ exists b, b ∈ blocks /\ b.1 = minX result) /\
  (maxX result = maxX init \/ exists b, b ∈ blocks /\ b.1 = maxX result) /\
  (minY result = minY init \/ exists b, b ∈ blocks /\ b.2 = minY result) /\
  (maxY result = maxY init \/ exists b, b ∈ blocks /\ b.2 = maxY result).
Proof.
  revert init. induction blocks as [|block blocks IH]; intros init; cbn zeta.
  - cbn [fold_left]. split; [lia|]. split; [by intros b ?%elem_of_nil|].
    by repeat split; left.
  - cbn [fold_left].
    specialize (IH (mkBounds (Z.min (minX init) block.1)
                      (Z.max (maxX init) block.1)
                      (Z.min (minY init) block.2)
                      (Z.max (maxY init) block.2))).
    cbn zeta in IH. cbn [minX maxX minY maxY] in IH.
    destruct IH as ((H1 & H2 & H3 & H4) & Hall & Ha & Hb & Hc & Hd).
    split; [lia|]. split.
    { intros b [->|Hb']%elem_of_cons; [lia|by apply Hall]. }
    split; [|split; [|split]].
    + destruct Ha as [Ha|(b & ? & ?)]; [|right; exists b; split;
                                          [by right|done]].
      destruct (Z.min_spec (minX init) block.1) as [[_ E]|[_ E]];
        [left; lia|right; exists block; split; [left|lia]].
    + destruct Hb as [Hb|(b & ? & ?)]; [|right; exists b; split;
                                          [by right|done]].
      destruct (Z.max_spec (maxX init) block.1) as [[_ E]|[_ E]];
        [right; exists block; split; [left|lia]|left; lia].
    + destruct Hc as [Hc|(b & ? & ?)]; [|right; exists b; split;
                                          [by right|done]].
      destruct (Z.min_spec (minY init) block.2) as [[_ E]|[_ E]];
        [left; lia|right; exists block; split; [left|lia]].
    + destruct Hd as [Hd|(b & ? & ?)]; [|right; exists b; split;
                                          [by right|done]].
      destruct (Z.max_spec (maxY init) block.2) as [[_ E]|[_ E]];
        [right; exists block; split; [left|lia]|left; lia].
Qed.

(** X24.  [getTetrominoBounds] is the tight bounding box of a piece that
    has cells: every cell lies inside it and each of its four sides
    touches a cell, so width and height are at least 1.  A piece without
    cells gets the box at the origin, reported as 1 wide and 1 high. *)
Theorem getTetrominoBounds_spec (t : Tetromino) :
  (getTetrominoBlocks t <> [] ->
   (forall b, b ∈ getTetrominoBlocks t ->
      minX (getTetrominoBounds t) <= b.1 <= maxX (getTetrominoBounds t) /\
      minY (getTetrominoBounds t) <= b.2 <= maxY (getTetrominoBounds t)) /\
   (exists b, b ∈ getTetrominoBlocks t /\ b.1 = minX (getTetrominoBounds t)) /\
   (exists b, b ∈ getTetrominoBlocks t /\ b.1 = maxX (getTetrominoBounds t)) /\
   (exists b, b ∈ getTetrominoBlocks t /\ b.2 = minY (getTetrominoBounds t)) /\
   (exists b, b ∈ getTetrominoBlocks t /\ b.2 = maxY (getTetrominoBounds t)) /\
   1 <= getTetrominoWidth t /\ 1 <= getTetrominoHeight t) /\
  (getTetrominoBlocks t = [] ->
   getTetrominoBounds t = mkBounds 0 0 0 0 /\
   getTetrominoWidth t = 1 /\ getTetrominoHeight t = 1).
Proof.
  unfold getTetrominoWidth, getTetrominoHeight, getTetrominoBounds.
  destruct (getTetrominoBlocks t) as [|first blocks] eqn:E;
    (split; [|by intros]); [done|]. intros _.
  pose proof (bounds_loop (first :: blocks)
                (mkBounds first.1 first.1 first.2 first.2)) as H.
  cbn zeta in H. cbn [minX maxX minY maxY] in H.
  destruct H as ((H1 & H2 & H3 & H4) & Hall & Ha & Hb & Hc & Hd).
  split; [exact Hall|].
  assert (Hfirst : first ∈ first :: blocks) by left.
  split; [destruct Ha as [->|?]; eauto|].
  split; [destruct Hb as [->|?]; eauto|].
  split; [destruct Hc as [->|?]; eauto|].
  split; [destruct Hd as [->|?]; eauto|].
  lia.
Qed.

End PieceBounds.

(** ** Pieces: what the module makes *)

Section CatalogPieces.
Import Tetrominoes TetrominoUtils.

(** X25.  [createTetromino] refuses a rotation above 3 and otherwise
    makes a catalog piece; rotating either way, moving, positioning and
    cloning a catalog piece give catalog pieces (a clone is equal to its
    original); a catalog piece has exactly four cells; and on catalog
    pieces [areTetrominoesEqual], which compares type, position and
    rotation only, holds exactly for equal pieces. *)
Theorem catalog_pieces (t1 t2 : Tetromino) :
  catalog t1 -> catalog t2 ->
  (forall ty px py r,
     match createTetromino ty px py r with
     | Some p => (r <= 3)%nat /\ catalog p
     | None => (3 < r)%nat
     end) /\
  catalog (rotateTetromino t1) /\
  catalog (rotateTetrominoCounterClockwise t1) /\
  (forall dx dy, catalog (moveTetromino t1 dx dy)) /\
  (forall px py, catalog (setTetrominoPosition t1 px py)) /\
  cloneTetromino t1 = t1 /\
  length (getTetrominoBlocks t1) = 4%nat /\
  (areTetrominoesEqual t1 t2 = true <-> t1 = t2).
Proof.
  intros (Hr1 & Hs1 & Hc1) (Hr2 & Hs2 & Hc2).
  split.
  { intros ty px py r. unfold createTetromino, MAX_ROTATION_STATE.
    destruct (3 <? r)%nat eqn:E.
    - by apply Nat.ltb_lt in E.
    - apply Nat.ltb_ge in E. by repeat split. }
  split.
  { unfold catalog, rotateTetromino, MAX_ROTATION_STATE.
    cbn [type rotation shape color]. split; [|done].
    pose proof (Nat.mod_upper_bound (rotation t1 + 1) (3 + 1)). lia. }
  split.
  { unfold catalog, rotateTetrominoCounterClockwise, MAX_ROTATION_STATE in *.
    cbn [type rotation shape color]. split; [|done].
    destruct (rotation t1 =? 0)%nat; lia. }
  split; [by intros dx dy|]. split; [by intros px py|].
  split; [apply cloneTetromino_id|].
  split.
  { unfold MAX_ROTATION_STATE in Hr1.
    destruct t1 as [ty px py r c sh]. cbn [type rotation shape color] in *.
    subst sh. destruct r as [|[|[|[|r]]]]; [..|lia]; destruct ty; reflexivity. }
  unfold areTetrominoesEqual.
  rewrite !andb_true_iff, bool_decide_eq_true, !Z.eqb_eq, Nat.eqb_eq.
  split; [|by intros ->].
  intros (((Hty & Hx) & Hy) & Hrot).
  destruct t1, t2. cbn [type x y rotation shape color] in *. congruence.
Qed.

Lemma catalog_pieces_witness :
  areTetrominoesEqual
    (rotateTetromino
       (mkTetromino TL 4 2 3 (TETROMINO_COLORS TL) (shapeAt TL 3)))
    (mkTetromino TL 4 2 0 (TETROMINO_COLORS TL) (shapeAt TL 0)) = true
  <-> rotateTetromino
        (mkTetromino TL 4 2 3 (TETROMINO_COLORS TL) (shapeAt TL 3))
      = mkTetromino TL 4 2 0 (TETROMINO_COLORS TL) (shapeAt TL 0).
Proof.
  apply (catalog_pieces
           (rotateTetromino
              (mkTetromino TL 4 2 3 (TETROMINO_COLORS TL) (shapeAt TL 3)))
           (mkTetromino TL 4 2 0 (TETROMINO_COLORS TL) (shapeAt TL 0))).
  - unfold catalog, MAX_ROTATION_STATE. simpl. split; [lia|done].
  - unfold catalog, MAX_ROTATION_STATE. simpl. split; [lia|done].
Defined.

End CatalogPieces.

(** ** Score keeper: the derived statistics *)

Section ScoreStats.
Import Js ScoreManager.

(** In a consistent state the share of lines cleared by tetrises, as
    [getStats] reports it, is a percentage: between 0 and 100. *)
Lemma tetrisPercentage_range (sm : ScoreManager) :
  consistent sm -> 0 <= tetrisPercentage sm <= 100.
Proof.
  intros (Hl & _ & H1 & H2 & H3 & H4).
  unfold tetrisPercentage, round, times, divide.
  destruct (0 <? linesCleared sm) eqn:E; [|lia]. apply Z.ltb_lt in E.
  assert (Hpos : (0 < inject_Z (linesCleared sm))%Q)
    by (rewrite <- (Zlt_Qlt 0); exact E).
  assert (Hle : (inject_Z (tetris (linesClearedByType sm) * 4)
                 <= inject_Z (linesCleared sm))%Q)
    by (rewrite <- Zle_Qle; lia).
  assert (Hge : (0 <= inject_Z (tetris (linesClearedByType sm) * 4))%Q)
    by (rewrite <- (Zle_Qle 0); lia).
  assert (Hratio : (0 <= inject_Z (tetris (linesClearedByType sm) * 4)
                        / inject_Z (linesCleared sm) <= 1)%Q).
  { split.
    - apply Qle_shift_div_l; [done|]. lra.
    - apply Qle_shift_div_r; [done|]. lra. }
  generalize dependent (inject_Z (tetris (linesClearedByType sm) * 4)
                        / inject_Z (linesCleared sm))%Q.
  intros ratio [Hr0 Hr1].
  pose proof (fl_nonneg ratio Hr0) as Hx0.
  pose proof (fl_above ratio 1 Hr0 Hr1 ltac:(lia)) as Hx1.
  assert (Hu1 : (Qpower 2 (Z.log2 1 - 53) <= 1 # 1000)%Q) by discriminate.
  set (x := fl ratio) in *. clearbody x.
  assert (Hp0 : (0 <= x * 100)%Q) by lra.
  assert (Hp1 : (x * 100 <= inject_Z 127)%Q)
    by (change (inject_Z 127) with 127%Q; lra).
  pose proof (fl_nonneg _ Hp0) as Hy0.
  pose proof (fl_above _ 127 Hp0 Hp1 ltac:(lia)) as Hy1.
  assert (Hu2 : (Qpower 2 (Z.log2 127 - 53) <= 1 # 1000)%Q) by discriminate.
  set (y := fl (x * 100)) in *. clearbody y. split.
  - apply (Z.le_trans _ (Qfloor 0)); [done|]. apply Qfloor_resp_le. lra.
  - apply (Z.le_trans _ (Qfloor (100 + (3 # 4)))); [|done].
    apply Qfloor_resp_le. lra.
Qed.

(** The roundings are visible: after 23 tetrises and 68 single lines the
    share is 92/160, and [getStats] reports 57, not 58; 7 points over 2
    pieces average to 4. *)
Example getStats_replay :
  tetrisPercentage
    (mkScoreManager (mkConfig 10 1) 0 17 160 0
       (mkLinesClearedByType 68 0 0 23)) = 57 /\
  Qfloor ((92 # 160) * 100 + (1 # 2)) = 58 /\
  averageScorePerPiece
    (mkScoreManager (mkConfig 10 1) 7 1 0 2
       (mkLinesClearedByType 0 0 0 0)) = 4.
Proof. by vm_compute. Qed.

End ScoreStats.

(** ** Board: column heights *)

Section ColumnHeights.
Import BoardManager.

(** What a [break]ing scan of [seq a n] finds: the first index that
    passes the test. *)
Lemma find_seq_first (f : nat -> bool) (a n : nat) :
  match find f (seq a n) with
  | Some r => (a <= r < a + n)%nat /\ f r = true /\
              forall r', (a <= r' < r)%nat -> f r' = false
  | None => forall r', (a <= r' < a + n)%nat -> f r' = false
  end.
Proof.
  revert a. induction n as [|n IH]; intros a; cbn [seq find].
  - intros r' Hr'. lia.
  - destruct (f a) eqn:E.
    + split; [lia|]. split; [done|]. intros r' Hr'. lia.
    + specialize (IH (S a)). destruct (find f (seq (S a) n)) as [r|].
      * destruct IH as (Hr & Hfr & Hbefore). split; [lia|]. split; [done|].
        intros r' Hr'. destruct (decide (r' = a)) as [->|]; [done|].
        apply Hbefore. lia.
      * intros r' Hr'. destruct (decide (r' = a)) as [->|]; [done|].
        apply IH. lia.
Qed.

(** X26.  [getColumnHeights] gives one entry per column.  An entry is 0
    exactly when the column holds no block; otherwise it is the height of
    the column's topmost block above the floor, at most the board's
    height.  And [isGameOver] is true exactly when some column that holds
    a block has a height greater than [height - 2] (as integers: on a board
    of height 1 this is -1, and an empty column does not count), that is,
    when the topmost block of some column is in one of the top two rows. *)
Theorem getColumnHeights_spec (bm : BoardManager) :
  wellFormed bm ->
  length (getColumnHeights bm) = width bm /\
  (forall col h, getColumnHeights bm !! col = Some h ->
     (h <= height bm)%nat /\
     (h = 0%nat <->
      forall row, (row < height bm)%nat -> cellAt bm col row = Some None) /\
     ((0 < h)%nat ->
      (exists c, cellAt bm col (height bm - h) = Some (Some c)) /\
      forall row, (row < height bm - h)%nat -> cellAt bm col row = Some None)) /\
  (isGameOver bm = true <->
   exists col h, getColumnHeights bm !! col = Some h /\ (0 < h)%nat /\
                 Z.of_nat (height bm) - 2 < Z.of_nat h).
Proof.
  intros Hwf.
  assert (Hcell : forall col row, (col < width bm)%nat -> (row < height bm)%nat ->
            exists cell, cellAt bm col row = Some cell /\
                         negb (isNull (cellAt bm col row))
                         = match cell with Some _ => true | None => false end).
  { intros col row Hcol Hrow. destruct Hwf as [Hlen Hrows]. unfold cellAt.
    destruct (lookup_lt_is_Some_2 (board bm) row ltac:(lia)) as [r Hr].
    rewrite Hr. cbn [mbind option_bind].
    assert (length r = width bm)
      by (apply (proj1 (Forall_forall _ _) Hrows);
          by eapply list_elem_of_lookup_2).
    destruct (lookup_lt_is_Some_2 r col ltac:(lia)) as [cell Hc].
    rewrite Hc. exists cell. split; [done|]. by destruct cell. }
  assert (Hentry : forall col h, getColumnHeights bm !! col = Some h ->
            (col < width bm)%nat /\
            h = match find (fun row => negb (isNull (cellAt bm col row)))
                           (seq 0 (height bm)) with
                | Some row => (height bm - row)%nat
                | None => 0%nat
                end).
  { intros col h Hh. unfold getColumnHeights in Hh.
    change (map ?f ?l) with (f <$> l) in Hh.
    rewrite list_lookup_fmap in Hh.
    destruct (seq 0 (width bm) !! col) as [c|] eqn:Ec; [|done].
    apply lookup_seq in Ec as [-> Hc]. cbn in Hh. injection Hh as <-.
    split; [lia|done]. }
  split; [unfold getColumnHeights; by rewrite length_map, length_seq|].
  split.
  - intros col h Hh. apply Hentry in Hh as [Hcol ->].
    pose proof (find_seq_first
                  (fun row => negb (isNull (cellAt bm col row))) 0 (height bm))
      as Hfind.
    destruct (find _ (seq 0 (height bm))) as [r|].
    + destruct Hfind as (Hr & Hocc & Hbefore).
      destruct (Hcell col r Hcol ltac:(lia)) as (cell & Hc & Hn).
      rewrite Hn in Hocc. destruct cell as [c|]; [|done].
      split; [lia|]. split.
      * split; [lia|]. intros Hempty. rewrite Hempty in Hc by lia. done.
      * intros _. replace (height bm - (height bm - r))%nat with r by lia.
        split; [by exists c|]. intros row Hrow.
        destruct (Hcell col row Hcol ltac:(lia)) as (cell & Hc' & Hn').
        rewrite (Hbefore row ltac:(lia)) in Hn'. by destruct cell.
    + split; [lia|]. split; [|lia]. split; [|done]. intros _ row Hrow.
      destruct (Hcell col row Hcol Hrow) as (cell & Hc' & Hn').
      rewrite (Hfind row ltac:(lia)) in Hn'. by destruct cell.
  - rewrite (isGameOver_spec bm Hwf). split.
    + intros (col & row & c & Hrow & Hc).
      assert (Hcol : (col < width bm)%nat /\ (row < height bm)%nat).
      { destruct Hwf as [Hlen Hrows]. unfold cellAt in Hc.
        destruct (board bm !! row) as [r|] eqn:Er; [|done]. cbn in Hc.
        assert (length r = width bm)
          by (apply (proj1 (Forall_forall _ _) Hrows);
              by eapply list_elem_of_lookup_2).
        apply lookup_lt_Some in Er, Hc. lia. }
      destruct Hcol as [Hcol Hrow'].
      destruct (lookup_lt_is_Some_2 (getColumnHeights bm) col) as [h Hh].
      { unfold getColumnHeights. by rewrite length_map, length_seq. }
      exists col, h. split; [done|]. apply Hentry in Hh as [_ ->].
      pose proof (find_seq_first
                    (fun row => negb (isNull (cellAt bm col row))) 0
                    (height bm)) as Hfind.
      destruct (find _ (seq 0 (height bm))) as [r|].
      * destruct Hfind as (Hr & _ & Hbefore).
        destruct (decide (r <= row)%nat) as [|Hgt]; [split; lia|].
        specialize (Hbefore row ltac:(lia)). by rewrite Hc in Hbefore.
      * specialize (Hfind row ltac:(lia)). by rewrite Hc in Hfind.
    + intros (col & h & Hh & Hpos & Hhigh). apply Hentry in Hh as [Hcol ->].
      pose proof (find_seq_first
                    (fun row => negb (isNull (cellAt bm col row))) 0
                    (height bm)) as Hfind.
      destruct (find _ (seq 0 (height bm))) as [r|]; [|lia].
      destruct Hfind as (Hr & Hocc & _).
      destruct (Hcell col r Hcol ltac:(lia)) as (cell & Hc & Hn).
      rewrite Hn in Hocc. destruct cell as [c|]; [|done].
      exists col, r, c. split; [lia|done].
Qed.

End ColumnHeights.

Lemma getColumnHeights_spec_witness :
  length (BoardManager.getColumnHeights Scenario.holeBelowFullRow) = 10%nat.
Proof.
  apply (getColumnHeights_spec Scenario.holeBelowFullRow).
  split; [reflexivity|]. by apply (bool_decide_unpack _).
Defined.

(** On an empty board of height 1 every column has height 0, which is
    above [height - 2 = -1], and the game is not over: only columns that
    hold a block count. *)
Example getColumnHeights_height_one :
  BoardManager.getColumnHeights (BoardManager.create 3 1) = [0; 0; 0]%nat /\
  BoardManager.isGameOver (BoardManager.create 3 1) = false /\
  Z.of_nat (BoardManager.height (BoardManager.create 3 1)) - 2 < Z.of_nat 0.
Proof. by vm_compute. Qed.

(** ** Board: clearing rows one at a time *)

Section RowByRow.
Import BoardManager.

(** [clearRow] on the rows alone. *)
Lemma clearRow_board (bm : BoardManager) (i : nat) :
  length (board bm) = height bm ->
  clearRow bm i
  = mkBoardManager (width bm) (height bm)
      (if (length (board bm) <=? i)%nat then board bm
       else emptyRow (width bm) :: delete i (board bm))
  /\ length (if (length (board bm) <=? i)%nat then board bm
            else emptyRow (width bm) :: delete i (board bm))
     = height bm.
Proof.
  intros Hlen. unfold clearRow. rewrite Hlen.
  destruct (height bm <=? i)%nat eqn:E.
  - split; [by destruct bm|done].
  - split; [done|]. apply Nat.leb_gt in E. cbn [length].
    rewrite length_delete by (apply lookup_lt_is_Some_2; lia). lia.
Qed.

Lemma fold_clearRow_board (idxs : list nat) (bm : BoardManager) :
  length (board bm) = height bm ->
  fold_left clearRow idxs bm
  = mkBoardManager (width bm) (height bm)
      (fold_left (fun (rows : list Row) i =>
                    if (length rows <=? i)%nat then rows
                    else emptyRow (width bm) :: delete i rows)
                 idxs (board bm)).
Proof.
  revert bm. induction idxs as [|i idxs IH]; intros bm Hlen.
  - by destruct bm.
  - cbn [fold_left]. destruct (clearRow_board bm i Hlen) as [-> Hlen'].
    by rewrite IH.
Qed.

(** Clearing the complete rows of [l] one by one, topmost first, behind
    a prefix [above] of rows that stay. *)
Lemma fold_clearRow_rows (w : nat) (P : nat -> Prop)
  `{!forall i, Decision (P i)} (l above : list Row) :
  (forall i r, l !! i = Some r ->
     P (length above + i)%nat <-> Forall is_Some r) ->
  fold_left (fun (rows : list Row) i =>
               if (length rows <=? i)%nat then rows
               else emptyRow w :: delete i rows)
            (filter P (seq (length above) (length l))) (above ++ l)
  = replicate (length (filter (fun r : Row => Forall is_Some r) l))
      (emptyRow w)
    ++ above ++ filter (fun r : Row => ~ Forall is_Some r) l.
Proof.
  revert above. induction l as [|r l IH]; intros above HP.
  - by rewrite !app_nil_r.
  - cbn [length seq].
    assert (Hhead : P (length above) <-> Forall is_Some r).
    { rewrite <- (HP 0%nat r eq_refl). by rewrite Nat.add_0_r. }
    assert (Htail : forall above' : list Row,
              length above' = S (length above) ->
              forall i r', l !! i = Some r' ->
                P (length above' + i)%nat <-> Forall is_Some r').
    { intros above' Hlen i r' Hi. rewrite <- (HP (S i) r' Hi).
      by replace (length above' + i)%nat with (length above + S i)%nat by lia. }
    destruct (decide (Forall is_Some r)) as [Hfull|Hnot].
    + rewrite filter_cons_True by by apply Hhead.
      rewrite (filter_cons_True _ r) by done.
      rewrite (filter_cons_False _ r) by tauto.
      cbn [fold_left length].
      assert (Hgt : (length (above ++ r :: l) <=? length above)%nat = false).
      { apply Nat.leb_gt. rewrite length_app. cbn [length]. lia. }
      rewrite Hgt, delete_middle.
      change (emptyRow w :: above ++ l) with ((emptyRow w :: above) ++ l).
      change (S (length above)) with (length (emptyRow w :: above)).
      rewrite IH by by apply Htail.
      rewrite replicate_S_end, <- !app_assoc. done.
    + rewrite filter_cons_False by by rewrite Hhead.
      rewrite (filter_cons_False _ r) by done.
      rewrite (filter_cons_True _ r) by done.
      replace (above ++ r :: l) with ((above ++ [r]) ++ l)
        by by rewrite <- app_assoc.
      replace (S (length above)) with (length (above ++ [r]))
        by (rewrite length_app; cbn [length]; lia).
      rewrite IH.
      * by rewrite <- !app_assoc.
      * apply Htail. rewrite length_app. cbn [length]. lia.
Qed.

(** X27.  [clearLines] does what calling [clearRow] for each row of
    [findCompleteRows], topmost first, does. *)
Theorem clearLines_row_by_row (bm : BoardManager) :
  wellFormed bm ->
  fold_left clearRow (findCompleteRows bm) bm = (clearLines bm).2.
Proof.
  intros Hwf.
  destruct (clearLines_wellFormed bm Hwf) as (_ & Hw & Hh).
  destruct (clearLines_board bm Hwf) as (Hboard & Hcount & _).
  rewrite fold_clearRow_board by apply Hwf.
  assert (Hrows : fold_left
            (fun (rows : list Row) i =>
               if (length rows <=? i)%nat then rows
               else emptyRow (width bm) :: delete i rows)
            (findCompleteRows bm) (board bm)
          = board (clearLines bm).2).
  { rewrite Hboard, Hcount. unfold findCompleteRows.
    destruct Hwf as [Hlen Hrows]. rewrite <- Hlen.
    apply (fold_clearRow_rows (width bm)
             (fun i => isRowComplete bm i = true) (board bm) []).
    intros i r Hr. by apply isRowComplete_full. }
  rewrite Hrows, <- Hw, <- Hh. by destruct (clearLines bm).2.
Qed.

Lemma clearLines_row_by_row_witness :
  fold_left clearRow (findCompleteRows Scenario.holeBelowFullRow)
    Scenario.holeBelowFullRow
  = (clearLines Scenario.holeBelowFullRow).2.
Proof.
  apply (clearLines_row_by_row Scenario.holeBelowFullRow).
  split; [reflexivity|]. by apply (bool_decide_unpack _).
Defined.

End RowByRow.

(** ** Input handler: actions *)

Section InputActions.
Import GameEngine.

Variable random : nat -> Q.
Variable now : nat -> Q.
Hypothesis random_range : forall k, (0 <= random k /\ random k < 1)%Q.

Ltac engine_fields :=
  cbn [engine sequencer nowCalls setEngine config boardManager
       tetrominoManager scoreManager status fallSpeed lastFallTime
       lastUpdateTime lockTimer isLockDelayActive isSoftDropping pauseTime
       isRunning lastClearedRows setBoardManager setTetrominoManager
       setScoreManager setStatus setFallSpeed setLastFallTime
       setLastUpdateTime setLockDelay setIsSoftDropping setPauseTime
       setIsRunning setLastClearedRows performanceNow] in *.

Lemma setTetrominoManager_invariant (e : GameEngine)
  (tm : TetrominoManager.TetrominoManager) :
  invariant e -> TetrominoManager.currentPieceFits (boardManager e) tm ->
  invariant (setTetrominoManager e tm).
Proof. intros (? & ? & ? & _ & ?) Hfit. unfold invariant. by engine_fields. Qed.

Lemma togglePause_frame (w : World) :
  boardManager (engine (togglePause now w)) = boardManager (engine w) /\
  tetrominoManager (engine (togglePause now w)) = tetrominoManager (engine w) /\
  scoreManager (engine (togglePause now w)) = scoreManager (engine w) /\
  sequencer (togglePause now w) = sequencer w.
Proof.
  unfold togglePause, pause, resume.
  destruct (decide (status (engine w) = Playing)); [done|].
  by destruct (decide (status (engine w) = Paused)).
Qed.

(** X28.  What a key can do to the game.  In an engine that satisfies the
    invariant every action returns with the invariant still true (no input
    puts the piece in an invalid position).  Short of ["restart"], an
    action never touches the board, the score or the piece bag; and short
    of ["restart"] and ["pause"] it keeps the status, and does nothing at
    all unless the game is playing. *)
Theorem executeAction_safe (action : string) (w : World) :
  invariant (engine w) ->
  exists w',
    InputHandler.executeAction random now action w = Some w' /\
    invariant (engine w') /\
    (action <> "restart" ->
     boardManager (engine w') = boardManager (engine w) /\
     scoreManager (engine w') = scoreManager (engine w) /\
     sequencer w' = sequencer w) /\
    (action <> "restart" -> action <> "pause" ->
     status (engine w') = status (engine w) /\
     (status (engine w) <> Playing -> w' = w)).
Proof.
  intros Hinv. unfold InputHandler.executeAction.
  cbn [getGameState snapStatus].
  destruct (decide (action = "pause")) as [->|Hpause].
  { destruct (togglePause_frame w) as (Hb & Ht & Hs & Hq).
    eexists. split; [done|]. split; [by eapply invariant_frame|].
    split; [done|]. by intros _ []. }
  destruct (decide (action = "restart")) as [->|Hrestart].
  { destruct (start_invariant random now random_range
                (setEngine w (reset (stop (engine w))))) as (w' & Hw' & Hinv').
    - engine_fields. apply reset_invariant. engine_fields. apply Hinv.
    - exists w'. split; [exact Hw'|]. split; [exact Hinv'|]. by split; intros []. }
  destruct (bool_decide_reflect (status (engine w) = Playing)) as [Hplay|Hplay];
    cbn [negb].
  2: { exists w. split; [done|]. split; [done|]. split; [done|].
       by intros _ _. }
  assert (Hfit : TetrominoManager.currentPieceFits (boardManager (engine w))
                   (tetrominoManager (engine w))) by apply Hinv.
  repeat match goal with
  | |- context [decide (action = ?a)] => destruct (decide (action = a))
  end;
    (eexists; split; [done|]; engine_fields;
     split;
     [first [ apply setTetrominoManager_invariant;
              [done|first [by apply moveHorizontal_fits
                          |by apply rotatePiece_fits]]
            | by eapply invariant_frame
            | done ]
     | split; [done|]; intros _ _; split; [done|]; by intros [] ]).
Qed.

End InputActions.

Lemma executeAction_safe_witness :
  exists w',
    InputHandler.executeAction Scenario.randomZero Scenario.clockAt1000
      "moveLeft" Scenario.freeFall = Some w' /\
    GameEngine.invariant (GameEngine.engine w') /\
    ("moveLeft" <> "restart" ->
     GameEngine.boardManager (GameEngine.engine w')
     = GameEngine.boardManager (GameEngine.engine Scenario.freeFall) /\
     GameEngine.scoreManager (GameEngine.engine w')
     = GameEngine.scoreManager (GameEngine.engine Scenario.freeFall) /\
     GameEngine.sequencer w' = GameEngine.sequencer Scenario.freeFall) /\
    ("moveLeft" <> "restart" -> "moveLeft" <> "pause" ->
     GameEngine.status (GameEngine.engine w')
     = GameEngine.status (GameEngine.engine Scenario.freeFall) /\
     (GameEngine.status (GameEngine.engine Scenario.freeFall)
      <> GameEngine.Playing -> w' = Scenario.freeFall)).
Proof.
  apply (executeAction_safe Scenario.randomZero Scenario.clockAt1000
           ltac:(intros k; split; [apply Qle_refl | reflexivity])
           "moveLeft" Scenario.freeFall).
  split; [apply create_wellFormed|]. split; [simpl; lia|].
  split; [reflexivity|]. split; [intros p [= <-]; reflexivity|].
  unfold ScoreManager.consistent. vm_compute. repeat split; discriminate.
Defined.

(** ** Input handler: keys held down *)

Section HeldKeys.
Import GameEngine.

Variable random : nat -> Q.
Variable now : nat -> Q.

Lemma continuous_action_runs (a : string) (w : World) :
  a ∈ InputHandler.continuousActions ->
  exists w',
    InputHandler.executeAction random now a w = Some w' /\
    nowCalls w' = nowCalls w.
Proof.
  intros Ha. unfold InputHandler.executeAction.
  assert (Hcases : a = "moveLeft" \/ a = "moveRight" \/ a = "softDrop").
  { unfold InputHandler.continuousActions in Ha.
    repeat (apply elem_of_cons in Ha as [Ha|Ha]; [by auto|]).
    by apply elem_of_nil in Ha. }
  destruct Hcases as [-> | [-> | ->]]; cbn [decide];
    repeat (match goal with
            | |- context [decide (?x = ?y)] => destruct (decide (x = y))
            end; try done);
    destruct (negb _); eauto.
Qed.

Lemma deleteTimer_fresh (timers : list (string * InputHandler.Timer))
  (key : string) (timer : InputHandler.Timer) :
  key ∉ timers.*1 ->
  InputHandler.deleteTimer
    (InputHandler.setTimer timers key timer) key = timers.
Proof.
  intros Hfresh. unfold InputHandler.setTimer, InputHandler.deleteTimer.
  rewrite bool_decide_eq_false_2 by done.
  rewrite filter_app, filter_cons_False, filter_nil, app_nil_r
    by (cbn; tauto).
  induction timers as [|[k t] timers IH]; [done|].
  rewrite fmap_cons, not_elem_of_cons in Hfresh. destruct Hfresh as [Hk Hrest].
  rewrite filter_cons_True by (cbn in *; congruence).
  by rewrite IH.
Qed.

(** X29.  A key mapped to one of the continuous actions (move left, move
    right, soft drop).  While it is held, further key-down events for it
    (the keyboard's own repeat) are ignored.  Pressed when it was not held,
    it runs its action once, is marked as pressed and gets a timer that
    has not repeated yet, stamped with the clock; releasing it then puts
    the handler back exactly as it was before the press, and the release
    of a soft-drop key switches soft drop off. *)
Theorem key_press_and_release (key a : string) (h : InputHandler.InputHandler)
  (w : World) :
  InputHandler.mappedAction h key = Some a ->
  a ∈ InputHandler.continuousActions ->
  (key ∈ InputHandler.keysPressed h ->
   InputHandler.handleKeyDown random now key h w = Some (h, w)) /\
  (key ∉ InputHandler.keysPressed h ->
   key ∉ (InputHandler.keyTimers h).*1 ->
   exists h1 w1 wa,
     InputHandler.executeAction random now a w = Some wa /\
     InputHandler.handleKeyDown random now key h w = Some (h1, w1) /\
     w1 = mkWorld (engine wa) (sequencer wa) (S (nowCalls wa)) /\
     InputHandler.isKeyPressed h1 key = true /\
     last (InputHandler.keyTimers h1)
     = Some (key,
             InputHandler.mkTimer a (now (nowCalls w))
               (InputHandler.configInitialDelay (InputHandler.config h))
               (if decide (a = "softDrop")
                then InputHandler.configSoftDropInterval (InputHandler.config h)
                else InputHandler.configRepeatInterval (InputHandler.config h))
               false) /\
     (InputHandler.handleKeyUp key h1 w1).1 = h /\
     (a = "softDrop" ->
      isSoftDropping (engine (InputHandler.handleKeyUp key h1 w1).2) = false)).
Proof.
  intros Hmap Ha. split.
  - intros Hheld. unfold InputHandler.handleKeyDown. rewrite Hmap.
    rewrite (bool_decide_eq_true_2 _ Ha), (bool_decide_eq_true_2 _ Hheld).
    done.
  - intros Hfree Htimer.
    destruct (continuous_action_runs a w Ha) as (wa & Hrun & Hclock).
    unfold InputHandler.handleKeyDown. rewrite Hmap.
    rewrite (bool_decide_eq_true_2 _ Ha), (bool_decide_eq_false_2 _ Hfree).
    cbn [negb]. rewrite Hrun. cbn [performanceNow].
    eexists _, _, wa. split; [done|]. split; [done|]. split; [done|].
    split; [|split; [|split]].
    + unfold InputHandler.isKeyPressed, InputHandler.setKeys.
      cbn [InputHandler.keysPressed]. apply bool_decide_eq_true_2.
      apply elem_of_union. left. by apply elem_of_singleton.
    + unfold InputHandler.setKeys, InputHandler.setTimer.
      cbn [InputHandler.keyTimers].
      rewrite bool_decide_eq_false_2 by done. by rewrite last_snoc, Hclock.
    + unfold InputHandler.handleKeyUp, InputHandler.mappedAction,
        InputHandler.setKeys in *.
      cbn [InputHandler.keyMappings InputHandler.keysPressed
           InputHandler.keyTimers InputHandler.config InputHandler.isActive].
      destruct (InputHandler.keyMappings h !! key) as [a'|]; [|done].
      destruct (decide (a' = "")); [done|]. injection Hmap as ->.
      rewrite (bool_decide_eq_true_2 _ Ha). cbn [fst].
      rewrite deleteTimer_fresh by done.
      destruct h as [keys timers cfg mappings active].
      cbn [InputHandler.keysPressed InputHandler.keyTimers
           InputHandler.config InputHandler.keyMappings
           InputHandler.isActive] in *.
      f_equal. apply leibniz_equiv. intros k.
      rewrite elem_of_difference, elem_of_union, elem_of_singleton.
      split; [by intros [[->|?] ?]|]. intros Hk. split; [by right|].
      by intros ->.
    + intros ->. unfold InputHandler.handleKeyUp, InputHandler.mappedAction,
        InputHandler.setKeys in *.
      cbn [InputHandler.keyMappings].
      destruct (InputHandler.keyMappings h !! key) as [a'|]; [|done].
      destruct (decide (a' = "")); [done|]. injection Hmap as ->.
      by rewrite (bool_decide_eq_true_2 _ Ha).
Qed.

End HeldKeys.

Lemma key_press_and_release_witness :
  InputHandler.handleKeyDown Scenario.randomZero Scenario.clockAt1000
    "ArrowDown"
    (InputHandler.setKeys InputHandler.create {[ "ArrowDown" ]} [])
    Scenario.freeFall
  = Some (InputHandler.setKeys InputHandler.create {[ "ArrowDown" ]} [],
          Scenario.freeFall).
Proof.
  apply (key_press_and_release Scenario.randomZero Scenario.clockAt1000
           "ArrowDown" "softDrop"
           (InputHandler.setKeys InputHandler.create {[ "ArrowDown" ]} [])
           Scenario.freeFall).
  - reflexivity.
  - do 2 apply list_elem_of_further. apply list_elem_of_here.
  - vm_compute. reflexivity.
Defined.

(** ** Input handler: key repeat *)

Section KeyRepeat.
Import GameEngine.

Variable random : nat -> Q.
Variable now : nat -> Q.

Lemma updateTimers_idle (currentTime : Q)
  (timers : list (string * InputHandler.Timer)) (w : World) :
  (forall key t, (key, t) ∈ timers ->
     (Js.minus currentTime (InputHandler.lastExecuted t)
      < if InputHandler.hasRepeated t then InputHandler.repeatInterval t
        else InputHandler.initialDelay t)%Q) ->
  InputHandler.updateTimers random now currentTime timers w
  = Some (timers, w).
Proof.
  induction timers as [|[key t] timers IH]; intros Hidle; [done|].
  cbn [InputHandler.updateTimers].
  pose proof (Hidle key t (list_elem_of_here _ _)) as Ht.
  rewrite IH by (intros k t' Hk; apply (Hidle k); by apply list_elem_of_further).
  destruct (InputHandler.hasRepeated t); cbn [negb];
    by rewrite (Qle_bool_false _ _ Ht).
Qed.

(** X30.  Key repeat.  An inactive handler's [update] does nothing.  An
    active one reads the clock once and compares, for each held key, the
    time since its action last ran (the clock minus the key's stamp, as a
    double) with the key's waiting time (the initial delay before the
    first repeat, the repeat interval after it).  While that time is below
    the waiting time for every held key nothing else happens; and a single
    held key for which it has reached the waiting time runs its action
    once more, is stamped with the clock and counts as having repeated. *)
Theorem update_key_repeat (h : InputHandler.InputHandler) (w : World) :
  (InputHandler.isActive h = false ->
   InputHandler.update random now h w = Some (h, w)) /\
  (InputHandler.isActive h = true ->
   (forall key t, (key, t) ∈ InputHandler.keyTimers h ->
      (Js.minus (now (nowCalls w)) (InputHandler.lastExecuted t)
       < if InputHandler.hasRepeated t then InputHandler.repeatInterval t
         else InputHandler.initialDelay t)%Q) ->
   InputHandler.update random now h w
   = Some (h, mkWorld (engine w) (sequencer w) (S (nowCalls w)))) /\
  (InputHandler.isActive h = true ->
   forall key t, InputHandler.keyTimers h = [(key, t)] ->
     ((if InputHandler.hasRepeated t then InputHandler.repeatInterval t
       else InputHandler.initialDelay t)
      <= Js.minus (now (nowCalls w)) (InputHandler.lastExecuted t))%Q ->
     InputHandler.update random now h w
     = match InputHandler.executeAction random now (InputHandler.action t)
               (mkWorld (engine w) (sequencer w) (S (nowCalls w))) with
       | Some w' =>
         Some (InputHandler.setKeys h (InputHandler.keysPressed h)
                 [(key,
                   InputHandler.mkTimer (InputHandler.action t)
                     (now (nowCalls w)) (InputHandler.initialDelay t)
                     (InputHandler.repeatInterval t) true)],
               w')
       | None => None
       end).
Proof.
  unfold InputHandler.update. split; [by intros ->|]. split.
  - intros -> Hidle. cbn [negb performanceNow].
    rewrite updateTimers_idle by done. by destruct h.
  - intros -> key t -> Hdue. cbn [negb performanceNow].
    cbn [InputHandler.updateTimers].
    apply Qle_bool_iff in Hdue.
    destruct (InputHandler.hasRepeated t) eqn:Hrep; cbn [negb];
      rewrite Hdue; cbn [InputHandler.action InputHandler.initialDelay
                           InputHandler.repeatInterval
                           InputHandler.hasRepeated];
      destruct (InputHandler.executeAction _ _ _ _); [|done| |done];
      by rewrite ?Hrep.
Qed.

(** The difference is the rounded one: with the key stamped at 0.1 ms and
    the clock at 200.1 ms the exact difference of the two doubles is below
    200 ms, the computed one is 200 ms, and the action runs. *)
Example update_key_repeat_replay :
  (Scenario.clockAt200_1 0 - Js.fl (1 # 10) < 200)%Q /\
  Js.minus (Scenario.clockAt200_1 0) (Js.fl (1 # 10)) = 200%Q /\
  (fun r : InputHandler.InputHandler * World => InputHandler.keyTimers r.1)
    <$> InputHandler.update Scenario.randomZero Scenario.clockAt200_1
          Scenario.heldLeft Scenario.freeFall
  = Some [("ArrowLeft",
           InputHandler.mkTimer "moveLeft" (Js.fl (2001 # 10)) 200 50 true)] /\
  (fun r : InputHandler.InputHandler * World =>
     TetrominoManager.currentPiece (tetrominoManager (engine r.2)))
    <$> InputHandler.update Scenario.randomZero Scenario.clockAt200_1
          Scenario.heldLeft Scenario.freeFall
  = Some (Some (TetrominoUtils.moveTetromino Scenario.pieceAtSpawn (-1) 0)).
Proof. by vm_compute. Qed.

End KeyRepeat.
